(** * mup-multicore: a shallow embedding of [index.js]

    The plugin starts one worker container per spare CPU core next to the
    container that MUP itself deploys.  This development embeds

    - the configuration validators ([validate.multiCore],
      [validate['app.servers']]) over raw JavaScript values,
    - the per-server override table and the three resolution functions
      ([prepareConfig], [getInstanceCount], [getStartingPort],
      [shouldUseNginx]),
    - the asynchronous lifecycle operations ([detectCores],
      [startWorkerContainers], [stopWorkerContainers],
      [restartWorkerContainers], [updateMupNginx] and the hooks) as programs
      over remote shell commands, run against an arbitrary remote host,

    and states the properties of the specification over them. *)

From Stdlib Require Import ZArith QArith Qround Bool List String Ascii Lia.
From Stdlib Require Import DecimalString DecimalZ.
From ExtLib Require Import Structures.Monad Structures.MonadExc.
Import ListNotations.
Import MonadNotation.
Local Open Scope string_scope.
Local Open Scope Z_scope.
Local Open Scope monad_scope.

Set Implicit Arguments.
Set Warnings "-register-all".

(* ===================================================================== *)
(** * JavaScript numbers and values *)
(* ===================================================================== *)

(** A JavaScript number is a finite value or [NaN].  Finite values are kept
    as rationals: every comparison the plugin makes is against an integer
    literal, and the only arithmetic is adding a loop index.  A value of a
    configuration is a double, so it is one of these rationals; the two
    infinities are not represented (with [instances: Infinity] the creation
    loop of the plugin would not end). *)
Inductive number : Type :=
| Fin (q : Q)
| NaN.

Definition of_Z (z : Z) : number := Fin (inject_Z z).

(** The double nearest to an integer, ties going to the even significand:
    the integer itself up to 2^53 in magnitude, a multiple of a power of two
    beyond.  (Integers from 2^1024 on, which JavaScript reads as
    [Infinity], are outside the model.) *)
Definition double_of_Z (z : Z) : Z :=
  let m := Z.abs z in
  if m <=? 2 ^ 53 then z
  else
    let e := Z.log2 m - 52 in
    let q := m / 2 ^ e in
    let r := m mod 2 ^ e in
    let half := 2 ^ (e - 1) in
    let q' := if r <? half then q
              else if half <? r then q + 1
              else if Z.even q then q else q + 1 in
    Z.sgn z * (q' * 2 ^ e).

(** The result of [+] or [-]: an exact result that is an integer is rounded
    to the nearest double; an exact result with a fractional part is kept
    as it is (it is the code's result whenever it fits the 53 bits of a
    double, as a port with a fraction does). *)
Definition round_result (q : Q) : Q :=
  let r := Qred q in
  if Pos.eqb (Qden r) 1 then inject_Z (double_of_Z (Qnum r)) else q.

(** [a < b] on numbers; any comparison with [NaN] is false. *)
Definition num_lt (a b : number) : bool :=
  match a, b with
  | Fin x, Fin y => negb (Qle_bool y x)
  | _, _ => false
  end.

(** [a <= b] on numbers. *)
Definition num_le (a b : number) : bool :=
  match a, b with
  | Fin x, Fin y => Qle_bool x y
  | _, _ => false
  end.

Definition num_gt (a b : number) : bool := num_lt b a.

Definition num_add (a b : number) : number :=
  match a, b with
  | Fin x, Fin y => Fin (round_result (x + y))
  | _, _ => NaN
  end.

Definition num_sub (a b : number) : number :=
  match a, b with
  | Fin x, Fin y => Fin (round_result (x - y))
  | _, _ => NaN
  end.

(** Truthiness of a number: [0] and [NaN] are falsy. *)
Definition num_truthy (n : number) : bool :=
  match n with
  | Fin q => negb (Qeq_bool q 0)
  | NaN => false
  end.

(** The number is an integer, and which one. *)
Definition num_is_int (n : number) (z : Z) : Prop :=
  match n with
  | Fin q => q == inject_Z z
  | NaN => False
  end.

(** Raw configuration values as the validators receive them: [undefined],
    [null], booleans, numbers, strings and plain objects (an object is its
    list of own properties in insertion order). *)
Inductive value : Type :=
| VUndef
| VNull
| VBool (b : bool)
| VNum (n : number)
| VStr (s : string)
| VObj (fields : list (string * value)).

Fixpoint assoc {A : Type} (k : string) (l : list (string * A)) : option A :=
  match l with
  | [] => None
  | (k', v) :: l' => if String.eqb k k' then Some v else assoc k l'
  end.

(** Property read [v.k] (and [v?.k]): a missing property, or a property of
    something that is not an object, reads as [undefined]. *)
Definition get (v : value) (k : string) : value :=
  match v with
  | VObj fs => match assoc k fs with Some x => x | None => VUndef end
  | _ => VUndef
  end.

(** [Object.keys]. *)
Definition keys (v : value) : list string :=
  match v with
  | VObj fs => map fst fs
  | _ => []
  end.

Definition truthy (v : value) : bool :=
  match v with
  | VUndef | VNull => false
  | VBool b => b
  | VNum n => num_truthy n
  | VStr s => negb (String.eqb s "")
  | VObj _ => true
  end.

Inductive jstype : Type := TUndefined | TObject | TBoolean | TNumber | TString.

(** The [typeof] operator. *)
Definition typeof (v : value) : jstype :=
  match v with
  | VUndef => TUndefined
  | VNull | VObj _ => TObject
  | VBool _ => TBoolean
  | VNum _ => TNumber
  | VStr _ => TString
  end.

Definition jstype_eqb (a b : jstype) : bool :=
  match a, b with
  | TUndefined, TUndefined | TObject, TObject | TBoolean, TBoolean
  | TNumber, TNumber | TString, TString => true
  | _, _ => false
  end.

Definition is_undefined (v : value) : bool :=
  match v with VUndef => true | _ => false end.

(** [v !== 'auto'] for a value already known to be a string. *)
Definition is_auto (v : value) : bool :=
  match v with VStr s => String.eqb s "auto" | _ => false end.

(** [v < k] and [v > k] for a value already known to be a number. *)
Definition val_lt (v : value) (k : Z) : bool :=
  match v with VNum n => num_lt n (of_Z k) | _ => false end.

Definition val_gt (v : value) (k : Z) : bool :=
  match v with VNum n => num_gt n (of_Z k) | _ => false end.

(* ===================================================================== *)
(** * Configuration validation *)
(* ===================================================================== *)

(** One entry of the list a validator returns. *)
Record detail : Type := Detail { message : string; path : string }.

(** The double-quote character of the two messages that quote [auto]. *)
Definition dq : string := String (ascii_of_nat 34) EmptyString.

Definition msg_instances_type : string :=
  "instances must be " ++ dq ++ "auto" ++ dq ++ " or a number".
Definition msg_instances_string : string :=
  "instances string value must be " ++ dq ++ "auto" ++ dq.
Definition msg_instances_min : string := "instances must be at least 1".
Definition msg_port_type : string := "startingPort must be a number".
Definition msg_port_range : string :=
  "startingPort must be between 1024 and 65535".
Definition msg_nginx_type : string := "useNginx must be a boolean".
Definition msg_not_object : string :=
  "multiCore configuration must be an object".

Module Validate.

(** [validate.multiCore(config)]: the global [multiCore] block. *)
Definition multiCore (config : value) : list detail :=
  if negb (truthy (get config "multiCore")) then []
  else
    let multiCore := get config "multiCore" in
    let instances := get multiCore "instances" in
    let startingPort := get multiCore "startingPort" in
    let useNginx := get multiCore "useNginx" in
    (if negb (is_undefined instances) then
       if negb (jstype_eqb (typeof instances) TString)
          && negb (jstype_eqb (typeof instances) TNumber)
       then [Detail msg_instances_type "multiCore.instances"]
       else if jstype_eqb (typeof instances) TString && negb (is_auto instances)
       then [Detail msg_instances_string "multiCore.instances"]
       else if jstype_eqb (typeof instances) TNumber && val_lt instances 1
       then [Detail msg_instances_min "multiCore.instances"]
       else []
     else [])
    ++
    (if negb (is_undefined startingPort) then
       if negb (jstype_eqb (typeof startingPort) TNumber)
       then [Detail msg_port_type "multiCore.startingPort"]
       else if val_lt startingPort 1024 || val_gt startingPort 65535
       then [Detail msg_port_range "multiCore.startingPort"]
       else []
     else [])
    ++
    (if negb (is_undefined useNginx) then
       if negb (jstype_eqb (typeof useNginx) TBoolean)
       then [Detail msg_nginx_type "multiCore.useNginx"]
       else []
     else []).

(** The body of the [forEach] callback of [validate['app.servers']] for one
    server name; the entries it pushes. *)
Definition server_entry (servers : value) (serverName : string) : list detail :=
  let serverConfig := get servers serverName in
  if truthy serverConfig && truthy (get serverConfig "multiCore") then
    let multiCore := get serverConfig "multiCore" in
    let basePath := "app.servers." ++ serverName ++ ".multiCore" in
    if negb (jstype_eqb (typeof multiCore) TObject)
    then [Detail msg_not_object basePath]
    else
      let instances := get multiCore "instances" in
      let startingPort := get multiCore "startingPort" in
      let useNginx := get multiCore "useNginx" in
      (if negb (is_undefined instances) then
         if negb (jstype_eqb (typeof instances) TString)
            && negb (jstype_eqb (typeof instances) TNumber)
         then [Detail msg_instances_type (basePath ++ ".instances")]
         else if jstype_eqb (typeof instances) TString && negb (is_auto instances)
         then [Detail msg_instances_string (basePath ++ ".instances")]
         else if jstype_eqb (typeof instances) TNumber && val_lt instances 1
         then [Detail msg_instances_min (basePath ++ ".instances")]
         else []
       else [])
      ++
      (if negb (is_undefined startingPort) then
         if negb (jstype_eqb (typeof startingPort) TNumber)
         then [Detail msg_port_type (basePath ++ ".startingPort")]
         else if val_lt startingPort 1024 || val_gt startingPort 65535
         then [Detail msg_port_range (basePath ++ ".startingPort")]
         else []
       else [])
      ++
      (if negb (is_undefined useNginx) then
         if negb (jstype_eqb (typeof useNginx) TBoolean)
         then [Detail msg_nginx_type (basePath ++ ".useNginx")]
         else []
       else [])
  else [].

(** [validate['app.servers'](config)]: every per-server [multiCore] block. *)
Definition app_servers (config : value) : list detail :=
  if negb (truthy (get config "app"))
     || negb (truthy (get (get config "app") "servers"))
  then []
  else
    let servers := get (get config "app") "servers" in
    flat_map (server_entry servers) (keys servers).

End Validate.

(* ===================================================================== *)
(** * Strings: [trim], [split(',')], [parseInt] and template rendering *)
(* ===================================================================== *)

(** A string is kept as the bytes of its UTF-8 encoding.

    White space as [String.prototype.trim] and [parseInt] see it.  In the
    ASCII range: tab, line feed, vertical tab, form feed, carriage return
    and space. *)
Definition is_space (c : ascii) : bool :=
  let n := nat_of_ascii c in
  ((9 <=? n)%nat && (n <=? 13)%nat) || (n =? 32)%nat.

(** Beyond the ASCII range: the no-break space U+00A0 (bytes C2 A0), and in
    three bytes U+1680, U+2000 to U+200A, U+2028, U+2029, U+202F, U+205F,
    U+3000 and U+FEFF. *)
Definition starts_wide (a : ascii) : bool :=
  let x := nat_of_ascii a in
  ((x =? 194) || (x =? 225) || (x =? 226) || (x =? 227) || (x =? 239))%nat.

Definition is_space2 (a b : ascii) : bool :=
  ((nat_of_ascii a =? 194) && (nat_of_ascii b =? 160))%nat.

Definition is_space3 (a b c : ascii) : bool :=
  let x := nat_of_ascii a in
  let y := nat_of_ascii b in
  let z := nat_of_ascii c in
  (((x =? 225) && (y =? 154) && (z =? 128))
   || ((x =? 226) && (y =? 128)
       && (((128 <=? z) && (z <=? 138)) || (z =? 168) || (z =? 169)
           || (z =? 175)))
   || ((x =? 226) && (y =? 129) && (z =? 159))
   || ((x =? 227) && (y =? 128) && (z =? 128))
   || ((x =? 239) && (y =? 187) && (z =? 191)))%nat.

Fixpoint trim_start (s : string) : string :=
  match s with
  | String a r =>
      if is_space a then trim_start r
      else if negb (starts_wide a) then s
      else
        match r with
        | String b r2 =>
            if is_space2 a b then trim_start r2
            else
              match r2 with
              | String c r3 => if is_space3 a b c then trim_start r3 else s
              | EmptyString => s
              end
        | EmptyString => s
        end
  | EmptyString => EmptyString
  end.

(** The string holds white space only. *)
Fixpoint all_space (s : string) : bool :=
  match s with
  | String a r =>
      if is_space a then all_space r
      else if negb (starts_wide a) then false
      else
        match r with
        | String b r2 =>
            if is_space2 a b then all_space r2
            else
              match r2 with
              | String c r3 => if is_space3 a b c then all_space r3 else false
              | EmptyString => false
              end
        | EmptyString => false
        end
  | EmptyString => true
  end.

Fixpoint trim_end (s : string) : string :=
  match s with
  | String c r => if all_space s then EmptyString else String c (trim_end r)
  | EmptyString => EmptyString
  end.

Definition trim (s : string) : string := trim_end (trim_start s).

(** [output.trim()] used as a condition: the output has a visible character. *)
Definition nonblank (s : string) : bool := negb (String.eqb (trim s) "").

(** [s.split(sep)] for a one-character separator. *)
Fixpoint split_aux (sep : ascii) (cur : string) (s : string) : list string :=
  match s with
  | EmptyString => [cur]
  | String c r =>
      if Ascii.eqb c sep then cur :: split_aux sep "" r
      else split_aux sep (cur ++ String c "") r
  end.

Definition split (sep : ascii) (s : string) : list string := split_aux sep "" s.

Definition split_comma (s : string) : list string := split ","%char s.

(** The line-feed character and [s.split('\n')]. *)
Definition nl : string := String (ascii_of_nat 10) EmptyString.
Definition split_lines (s : string) : list string := split (ascii_of_nat 10) s.

(** [haystack.includes(needle)]. *)
Fixpoint includes (haystack needle : string) : bool :=
  String.prefix needle haystack ||
  match haystack with
  | String _ r => includes r needle
  | EmptyString => false
  end.

(** Value of a character as a digit (0-9, a-z, A-Z). *)
Definition digit_of (c : ascii) : option Z :=
  let n := Z.of_nat (nat_of_ascii c) in
  if (48 <=? n) && (n <=? 57) then Some (n - 48)
  else if (97 <=? n) && (n <=? 122) then Some (n - 87)
  else if (65 <=? n) && (n <=? 90) then Some (n - 55)
  else None.

(** The longest prefix of digits of the radix, as a number; [None] when
    that prefix is empty. *)
Fixpoint parse_digits (radix : Z) (s : string) (acc : option Z) : option Z :=
  match s with
  | String c r =>
      match digit_of c with
      | Some d =>
          if d <? radix
          then parse_digits radix r
                 (Some (radix * (match acc with Some a => a | None => 0 end) + d))
          else acc
      | None => acc
      end
  | EmptyString => acc
  end.

(** [parseInt(s)] with no radix argument: leading white space, a sign, a
    [0x] prefix for base 16, then digits; [NaN] when no digit follows.  The
    result is the double nearest to the integer the digits denote. *)
Definition parseInt (s : string) : number :=
  let s1 := trim_start s in
  let '(sign, s2) :=
    match s1 with
    | String "-"%char r => (-1, r)
    | String "+"%char r => (1, r)
    | _ => (1, s1)
    end in
  let '(radix, s3) :=
    match s2 with
    | String "0"%char (String "x"%char r) => (16, r)
    | String "0"%char (String "X"%char r) => (16, r)
    | _ => (10, s2)
    end in
  match parse_digits radix s3 None with
  | Some n => of_Z (double_of_Z (sign * n))
  | None => NaN
  end.

(** Decimal text of an integer, as a template literal prints it. *)
Definition string_of_Z (z : Z) : string := NilZero.string_of_int (Z.to_int z).

(** Text of a number inside a template literal.  [NaN] and the integers
    below 10^21 in magnitude, which JavaScript prints as plain decimals, are
    covered; the digits of a fraction and the exponent notation of larger
    numbers are not modelled. *)
Definition show_number (n : number) : option string :=
  match n with
  | NaN => Some "NaN"
  | Fin q =>
      let r := Qred q in
      if Pos.eqb (Qden r) 1 && (Z.abs (Qnum r) <? 10 ^ 21)
      then Some (string_of_Z (Qnum r)) else None
  end.

(* ===================================================================== *)
(** * Typed configuration, the override table and effective settings *)
(* ===================================================================== *)

(** The lifecycle operations compare these settings with numbers and add
    loop indices to them, so the configuration they read is kept typed: a
    field holds a value of the type its validator asks for, or is not
    defined. *)

(** [instances]: the string ['auto'] or a number. *)
Inductive instances_spec : Type :=
| Auto
| Count (n : number).

(** A [multiCore] block, global or per server; [None] is a field that is
    not defined. *)
Record MultiCore : Type := mkMultiCore {
  instances : option instances_spec;
  startingPort : option number;
  useNginx : option bool
}.

(** An entry of [config.app.servers]; only its [multiCore] key matters
    here. *)
Record ServerEntry : Type := mkServerEntry {
  entry_multiCore : option MultiCore
}.

Record App : Type := mkApp {
  app_name : string;
  app_env_PORT : option number;            (* config.app.env.PORT *)
  app_docker : bool;                       (* config.app.docker is set *)
  app_servers : option (list (string * ServerEntry))
}.

Record Config : Type := mkConfig {
  cfg_app : option App;
  cfg_multiCore : option MultiCore
}.

(** [api.getOptions().servers]: absent, an array of names, or one string of
    names joined by commas. *)
Inductive servers_option : Type :=
| NoFilter
| FilterArray (names : list string)
| FilterString (names : string).

Record Api : Type := mkApi {
  getConfig : Config;
  getOptions : servers_option
}.

(** The module-level table [serverConfigs]: server name to its
    [multiCore] block. *)
Definition server_table : Type := list (string * MultiCore).

(** [obj[k] = v]: overwrite in place, or add the key last.  (JavaScript
    lists keys that are array indices first; server names that are plain
    numbers are not treated apart.) *)
Fixpoint obj_set {A : Type} (k : string) (v : A) (l : list (string * A))
  : list (string * A) :=
  match l with
  | [] => [(k, v)]
  | (k', v') :: l' =>
      if String.eqb k k' then (k', v) :: l' else (k', v') :: obj_set k v l'
  end.

(** Truthiness of a typed field value. *)
Class Truthy (A : Type) : Type := is_truthy : A -> bool.

#[global] Instance Truthy_bool : Truthy bool := fun b => b.
#[global] Instance Truthy_number : Truthy number := num_truthy.
#[global] Instance Truthy_instances : Truthy instances_spec :=
  fun i => match i with Auto => true | Count n => num_truthy n end.

(** [a || b] where either side may be [undefined]. *)
Definition js_or {A : Type} `{Truthy A} (a b : option A) : option A :=
  match a with
  | Some x => if is_truthy x then a else b
  | None => b
  end.

(** [a || d] with a literal [d] on the right. *)
Definition js_or_default {A : Type} `{Truthy A} (a : option A) (d : A) : A :=
  match a with
  | Some x => if is_truthy x then x else d
  | None => d
  end.

(** [block?.field]. *)
Definition opt_field {A : Type} (f : MultiCore -> option A)
  (block : option MultiCore) : option A :=
  match block with
  | Some m => f m
  | None => None
  end.

(** The [forEach] callback of [prepareConfig] for one server name: a
    per-server [multiCore] block moves into the table and is deleted from
    the server's entry. *)
Definition prepareConfig_step (acc : server_table * list (string * ServerEntry))
  (serverName : string) : server_table * list (string * ServerEntry) :=
  let '(table, servers) := acc in
  match assoc serverName servers with
  | Some (mkServerEntry (Some mc)) =>
      (obj_set serverName mc table,
       obj_set serverName (mkServerEntry None) servers)
  | _ => acc
  end.

(** [prepareConfig(config)]: rebuilds the override table from the
    per-server [multiCore] blocks and deletes them from the configuration.
    The table is left as it was when there is no [app.servers]. *)
Definition prepareConfig (serverConfigs : server_table) (config : Config)
  : server_table * Config :=
  match cfg_app config with
  | Some a =>
      match app_servers a with
      | Some servers =>
          let '(table, servers') :=
            fold_left prepareConfig_step (map fst servers) ([], servers) in
          (table,
           mkConfig
             (Some (mkApp (app_name a) (app_env_PORT a) (app_docker a)
                      (Some servers')))
             (cfg_multiCore config))
      | None => (serverConfigs, config)
      end
  | None => (serverConfigs, config)
  end.

Definition getInstanceCount (serverConfigs : server_table) (config : Config)
  (serverName : string) : instances_spec :=
  let serverConfig := assoc serverName serverConfigs in
  let globalConfig := cfg_multiCore config in
  js_or_default
    (js_or (opt_field instances serverConfig) (opt_field instances globalConfig))
    Auto.

Definition getStartingPort (serverConfigs : server_table) (config : Config)
  (serverName : string) : number :=
  let serverConfig := assoc serverName serverConfigs in
  let globalConfig := cfg_multiCore config in
  js_or_default
    (js_or (opt_field startingPort serverConfig)
       (opt_field startingPort globalConfig))
    (of_Z 3001).

Definition shouldUseNginx (serverConfigs : server_table) (config : Config)
  (serverName : string) : bool :=
  let serverConfig := assoc serverName serverConfigs in
  let globalConfig := cfg_multiCore config in
  js_or_default
    (js_or (opt_field useNginx serverConfig) (opt_field useNginx globalConfig))
    false.

(** [getAppPort(config)]. *)
Definition getAppPort (config : Config) : number :=
  match cfg_app config with
  | Some a => js_or_default (app_env_PORT a) (of_Z 3000)
  | None => of_Z 3000
  end.

(** The names every object inherits from [Object.prototype].  The look-up
    [allServers[serverName]] of such a name that is not a server finds the
    inherited function, which is truthy, so the name is selected.
    ([__proto__] is left out: the assignment
    [filteredServers['__proto__'] = ...] sets the prototype and adds no
    key.) *)
Definition inherited_names : list string :=
  ["constructor"; "toString"; "toLocaleString"; "valueOf"; "hasOwnProperty";
   "isPrototypeOf"; "propertyIsEnumerable"; "__defineGetter__";
   "__defineSetter__"; "__lookupGetter__"; "__lookupSetter__"].

(** [allServers[serverName]] when it is truthy: the entry of the server,
    or for an inherited name the inherited function, which has no
    [multiCore] property. *)
Definition lookup_server (allServers : list (string * ServerEntry))
  (serverName : string) : option ServerEntry :=
  match assoc serverName allServers with
  | Some entry => Some entry
  | None =>
      if existsb (String.eqb serverName) inherited_names
      then Some (mkServerEntry None)
      else None
  end.

(** [getFilteredServers(api)], for a configuration that has an [app].  The
    servers are listed as [Object.keys] lists them. *)
Definition getFilteredServers (a : App) (options : servers_option)
  : list (string * ServerEntry) :=
  let allServers := match app_servers a with Some s => s | None => [] end in
  let filter selectedServers :=
    fold_left
      (fun filteredServers serverName =>
         match lookup_server allServers serverName with
         | Some entry => obj_set serverName entry filteredServers
         | None => filteredServers
         end)
      selectedServers [] in
  match options with
  | NoFilter => allServers
  | FilterArray names => filter names
  | FilterString s =>
      if String.eqb s "" then allServers else filter (split_comma s)
  end.

(* ===================================================================== *)
(** * Remote commands *)
(* ===================================================================== *)

(** [`${appName}-worker-${i}`]: the container name of slot [i]. *)
Definition worker_name (appName : string) (i : Z) : string :=
  appName ++ "-worker-" ++ string_of_Z i.

(** [`${appName}-worker`]: the name filter of the worker inventory. *)
Definition worker_filter (appName : string) : string := appName ++ "-worker".

(** The shell commands the plugin sends through [api.runSSHCommand], one
    constructor per command text of [index.js]; [render] gives the text. *)
Inductive command : Type :=
| Nproc
    (* nproc *)
| PsWorkers (all : bool) (appName : string)
    (* docker ps -aq --filter name=${appName}-worker   (-q when not all) *)
| StopWorkers (all tolerant : bool) (appName : string)
    (* docker stop $(docker ps -aq --filter name=${appName}-worker) || true *)
| RmWorkers (tolerant : bool) (appName : string)
    (* docker rm $(docker ps -aq --filter name=${appName}-worker) || true *)
| RestartWorkers (appName : string)
    (* docker restart $(docker ps -aq --filter name=${appName}-worker) *)
| StopContainer (containerName : string)
    (* docker stop ${containerName} || true *)
| RmContainer (containerName : string)
    (* docker rm ${containerName} || true *)
| InspectImage (containerName : string)
    (* docker inspect ${containerName} --format='{{.Image}}' *)
| Run (containerName hostname : string) (port appPort : number) (coreId : Z)
      (appName actualImage : string)
    (* docker run -d --name ... -p 127.0.0.1:${port}:${appPort} ... *)
| PsStatus (containerName : string)
| Logs (containerName : string)
| Images (actualImage : string)
| PsGrep (appName : string)
| NginxBackupEnv (appName : string)
| NginxWriteUpstream (appName : string) (appPort : number)
                     (workerPorts : list number)
| NginxPatchSite (appPort : number)
| NginxInsertUpstream (appName : string)
| NginxReload.

Definition ps_flag (all : bool) : string := if all then "-aq" else "-q".
Definition or_true (tolerant : bool) : string :=
  if tolerant then " || true" else "".
Definition indent12 : string := "            ".

(** All-or-nothing concatenation of texts that may be unavailable. *)
Fixpoint concat_opt (parts : list (option string)) : option string :=
  match parts with
  | [] => Some ""
  | Some s :: rest =>
      match concat_opt rest with Some r => Some (s ++ r) | None => None end
  | None :: _ => None
  end.

Definition upstream_line (port : number) : option string :=
  concat_opt [Some "  server 127.0.0.1:"; show_number port; Some (";" ++ nl)].

(** The text of [upstream] built in [updateMupNginx]. *)
Definition upstream_text (appPort : number) (workerPorts : list number)
  : option string :=
  concat_opt
    ([Some ("upstream meteor_backend {" ++ nl); upstream_line appPort]
       ++ map upstream_line workerPorts ++ [Some ("}" ++ nl)]).

(** The command text sent to the remote shell; [None] when it would print a
    fractional number. *)
Definition render (c : command) : option string :=
  match c with
  | Nproc => Some "nproc"
  | PsWorkers all appName =>
      Some ("docker ps " ++ ps_flag all ++ " --filter name="
              ++ worker_filter appName)
  | StopWorkers all tolerant appName =>
      Some ("docker stop $(docker ps " ++ ps_flag all ++ " --filter name="
              ++ worker_filter appName ++ ")" ++ or_true tolerant)
  | RmWorkers tolerant appName =>
      Some ("docker rm $(docker ps -aq --filter name="
              ++ worker_filter appName ++ ")" ++ or_true tolerant)
  | RestartWorkers appName =>
      Some ("docker restart $(docker ps -aq --filter name="
              ++ worker_filter appName ++ ")")
  | StopContainer containerName =>
      Some ("docker stop " ++ containerName ++ " || true")
  | RmContainer containerName =>
      Some ("docker rm " ++ containerName ++ " || true")
  | InspectImage containerName =>
      Some ("docker inspect " ++ containerName ++ " --format='{{.Image}}'")
  | Run containerName hostname port appPort coreId appName actualImage =>
      concat_opt
        [Some ("docker run -d " ++ indent12 ++ "--name " ++ containerName
                 ++ " " ++ indent12 ++ "--hostname " ++ hostname
                 ++ " " ++ indent12 ++ "--restart always "
                 ++ indent12 ++ "--network=bridge "
                 ++ indent12 ++ "-p 127.0.0.1:");
         show_number port; Some ":"; show_number appPort;
         Some (" " ++ indent12 ++ "-e PORT="); show_number appPort;
         Some (" " ++ indent12 ++ "-e CORE_ID=" ++ string_of_Z coreId
                 ++ " " ++ indent12 ++ "--env-file /opt/" ++ appName
                 ++ "/config/env.list " ++ indent12 ++ actualImage)]
  | PsStatus containerName =>
      Some ("docker ps --filter name=" ++ containerName ++ " --format "
              ++ dq ++ "{{.Names}} {{.Status}}" ++ dq)
  | Logs containerName =>
      Some ("docker logs " ++ containerName ++ " 2>&1 || echo "
              ++ dq ++ "Container not found" ++ dq)
  | Images actualImage =>
      Some ("docker images " ++ actualImage ++ " --format "
              ++ dq ++ "{{.Repository}}:{{.Tag}}" ++ dq)
  | PsGrep appName => Some ("docker ps | grep " ++ appName)
  | NginxBackupEnv appName =>
      Some ("sudo cp /opt/" ++ appName ++ "/config/env.list /tmp/"
              ++ appName ++ ".env.backup")
  | NginxWriteUpstream appName appPort workerPorts =>
      concat_opt
        [Some ("cat > /tmp/" ++ appName ++ "-upstream.conf << 'EOF'" ++ nl);
         upstream_text appPort workerPorts; Some (nl ++ "EOF")]
  | NginxPatchSite appPort =>
      concat_opt
        [Some (nl ++ "          if [ -f /etc/nginx/sites-enabled/default ]; then"
                 ++ nl ++ "            sudo sed -i 's/proxy_pass.*");
         show_number appPort;
         Some (";/proxy_pass http:\/\/meteor_backend;/g' "
                 ++ "/etc/nginx/sites-enabled/default" ++ nl
                 ++ "          fi" ++ nl ++ "        ")]
  | NginxInsertUpstream appName =>
      Some (nl ++ "          sudo sed -i '/http {/r /tmp/" ++ appName
              ++ "-upstream.conf' /etc/nginx/nginx.conf || true" ++ nl
              ++ "        ")
  | NginxReload => Some "sudo nginx -t && sudo systemctl reload nginx || true"
  end.

(** What a command does to containers, and to which ones. *)
Inductive target : Type :=
| ByName (containerName : string)     (* one container, by exact name *)
| ByFilter (pattern : string).        (* every container listed by
                                         [docker ps --filter name=pattern] *)

Inductive action : Type := Create | Stop | Remove | Restart.

(** The container mutation a command performs, if any. *)
Definition mutation (c : command) : option (action * target) :=
  match c with
  | StopWorkers _ _ appName => Some (Stop, ByFilter (worker_filter appName))
  | RmWorkers _ appName => Some (Remove, ByFilter (worker_filter appName))
  | RestartWorkers appName => Some (Restart, ByFilter (worker_filter appName))
  | StopContainer n => Some (Stop, ByName n)
  | RmContainer n => Some (Remove, ByName n)
  | Run n _ _ _ _ _ _ => Some (Create, ByName n)
  | _ => None
  end.

Definition is_create (c : command) : bool :=
  match c with Run _ _ _ _ _ _ _ => true | _ => false end.

Definition is_removal (c : command) : bool :=
  match mutation c with
  | Some (Stop, _) | Some (Remove, _) => true
  | _ => false
  end.

Definition is_nginx (c : command) : bool :=
  match c with
  | NginxBackupEnv _ | NginxWriteUpstream _ _ _ | NginxPatchSite _
  | NginxInsertUpstream _ | NginxReload => true
  | _ => false
  end.

(** [docker ps --filter name=pattern] lists the containers whose name
    contains the pattern. *)
Definition filter_matches (pattern containerName : string) : bool :=
  includes containerName pattern.

(** The command may touch the container of this name. *)
Definition touches (c : command) (containerName : string) : bool :=
  match mutation c with
  | Some (_, ByName n) => String.eqb n containerName
  | Some (_, ByFilter pat) => filter_matches pat containerName
  | None => false
  end.

(* ===================================================================== *)
(** * Asynchronous programs over remote commands *)
(* ===================================================================== *)

(** What [api.runSSHCommand] gives back: a result with its [output], or a
    rejection (unreachable host, non-zero exit). *)
Inductive response : Type :=
| Output (output : string)
| Rejected (error : string).

(** The lines the plugin writes with [console.log]. *)
Inductive log_line : Type :=
| LogCoresFallback (serverName : string)
| LogNginxBanner
| LogNginxSkip (serverName : string)
| LogNginxUpdated (serverName : string) (cores : number)
| LogNginxError (serverName error : string)
| LogStartBanner
| LogSingleCore (serverName : string)
| LogCleanedUp
| LogNoWorkersNeeded (serverName : string)
| LogNoImage (serverName : string)
| LogUsingImage (serverName actualImage : string)
| LogCleaningUp
| LogStarting (serverName : string) (cores : number)
| LogWorkerUp (containerName : string) (port : number) (coreId : Z)
| LogWorkerFailed (containerName : string)
| LogWorkerLogs (output : string)
| LogImageMissing (actualImage : string)
| LogWorkerError (containerName error : string)
| LogAllRunning (serverName : string)
| LogStatusLine (line : string)
| LogStartError (serverName error : string)
| LogStopBanner
| LogStopped (serverName : string)
| LogNoneToStop (serverName : string)
| LogStopError (serverName error : string)
| LogRestartBanner
| LogRestarted (serverName : string)
| LogNoneToRestart (serverName : string)
| LogRestartError (serverName error : string).

(** An [async] function body: it returns, throws, awaits a remote command
    or logs a line. *)
Inductive prog (A : Type) : Type :=
| Ret (a : A)
| Raise (error : string)
| Ssh (serverName : string) (c : command) (k : response -> prog A)
| Log (l : log_line) (k : prog A).

Arguments Raise {A} error.

Fixpoint prog_bind {A B : Type} (p : prog A) (f : A -> prog B) : prog B :=
  match p with
  | Ret a => f a
  | Raise e => Raise e
  | Ssh s c k => Ssh s c (fun r => prog_bind (k r) f)
  | Log l k => Log l (prog_bind k f)
  end.

(** [try { p } catch (error) { handler(error) }]. *)
Fixpoint try_catch {A : Type} (p : prog A) (handler : string -> prog A)
  : prog A :=
  match p with
  | Ret a => Ret a
  | Raise e => handler e
  | Ssh s c k => Ssh s c (fun r => try_catch (k r) handler)
  | Log l k => Log l (try_catch k handler)
  end.

#[global] Instance Monad_prog : Monad prog :=
  {| ret := @Ret; bind := @prog_bind |}.

#[global] Instance MonadExc_prog : MonadExc string prog :=
  {| raise := @Raise; catch := @try_catch |}.

(** [await api.runSSHCommand(server, command)], yielding [result.output]. *)
Definition runSSHCommand (serverName : string) (c : command) : prog string :=
  Ssh serverName c
    (fun r => match r with Output o => Ret o | Rejected e => Raise e end).

(** [console.log(line)]. *)
Definition log (l : log_line) : prog unit := Log l (Ret tt).

(** The successive values of [i] in [for (let i = start; cond(i); i++)],
    for at most [fuel] iterations. *)
Fixpoint for_indices (fuel : nat) (i : Z) (cond : Z -> bool) : list Z :=
  match fuel with
  | O => []
  | S fuel' => if cond i then i :: for_indices fuel' (i + 1) cond else []
  end.

(** The loop body run for each value in turn; a throw leaves the loop. *)
Fixpoint for_each {X : Type} (xs : list X) (body : X -> prog unit) : prog unit :=
  match xs with
  | [] => Ret tt
  | x :: rest => body x ;; for_each rest body
  end.

(** A bound on how often the condition of
    [for (let i = 1; i < cores; i++)] is tested.  The condition fails at
    the latest at [i = max 1 (ceil cores)], so one test more than
    [ceil cores] is always enough: the loop of the model ends because the
    condition fails, never because the bound is reached. *)
Definition cores_fuel (cores : number) : nat :=
  match cores with
  | Fin q => S (Z.to_nat (Qceiling q))
  | NaN => 1
  end.

(** The slot numbers of [for (let i = 1; i < cores; i++)].  The counter is
    an exact integer here; the counter of the code is a double, which
    counts exactly up to [2 ^ 53]. *)
Definition worker_slots (cores : number) : list Z :=
  for_indices (cores_fuel cores) 1 (fun i => num_lt (of_Z i) cores).

(** The slot numbers of [for (let i = 1; i <= 10; i++)]. *)
Definition fallback_slots : list Z := for_indices 10 1 (fun i => i <=? 10).

(** One task of a [Promise.all]: run to its end, keeping a rejection. *)
Definition settle (task : prog unit) : prog (option string) :=
  catch (task ;; ret None) (fun e => ret (Some e)).

Fixpoint settle_all (tasks : list (prog unit)) : prog (list (option string)) :=
  match tasks with
  | [] => ret []
  | t :: rest => r <- settle t ;; rs <- settle_all rest ;; ret (r :: rs)
  end.

Fixpoint first_rejection (rs : list (option string)) : option string :=
  match rs with
  | [] => None
  | Some e :: _ => Some e
  | None :: rest => first_rejection rest
  end.

(** [Promise.all(tasks)]: every task runs to its end; the whole rejects
    when one of them did.  The tasks are run one after the other in the
    order of [Object.keys]; the interleaving of tasks of different servers
    at their [await]s is not represented. *)
Definition promise_all (tasks : list (prog unit)) : prog unit :=
  rs <- settle_all tasks ;;
  match first_rejection rs with
  | Some e => raise e
  | None => ret tt
  end.

(** The [TypeError] of reading a property of an undefined [config.app]. *)
Definition type_error : string :=
  "TypeError: Cannot read properties of undefined".

(* ===================================================================== *)
(** * The lifecycle operations of [index.js] *)
(* ===================================================================== *)

Definition detectCores (serverName : string) : prog number :=
  catch
    (result <- runSSHCommand serverName Nproc ;;
     ret (parseInt (trim result)))
    (fun _ =>
       log (LogCoresFallback serverName) ;;
       ret (of_Z 2)).

(** [instanceCount === 'auto' ? await detectCores(api, serverName)
                              : instanceCount]. *)
Definition resolveCores (serverName : string) (instanceCount : instances_spec)
  : prog number :=
  match instanceCount with
  | Auto => detectCores serverName
  | Count n => ret n
  end.

(** The [catch] branch of both inventory clean-ups: slots 1 to 10 by name. *)
Definition fallbackCleanup (serverName appName : string) : prog unit :=
  for_each fallback_slots
    (fun i =>
       runSSHCommand serverName (StopContainer (worker_name appName i)) ;;
       runSSHCommand serverName (RmContainer (worker_name appName i)) ;;
       ret tt).

(** The inventory clean-up of the single-core branch. *)
Definition cleanupSingleCore (serverName appName : string) : prog unit :=
  catch
    (existingWorkers <- runSSHCommand serverName (PsWorkers true appName) ;;
     if nonblank existingWorkers then
       runSSHCommand serverName (StopWorkers true true appName) ;;
       runSSHCommand serverName (RmWorkers true appName) ;;
       log LogCleanedUp
     else ret tt)
    (fun _ => fallbackCleanup serverName appName).

(** The inventory clean-up that precedes the creation loop. *)
Definition cleanupBeforeStart (serverName appName : string) : prog unit :=
  catch
    (existingWorkers <- runSSHCommand serverName (PsWorkers true appName) ;;
     if nonblank existingWorkers then
       log LogCleaningUp ;;
       runSSHCommand serverName (StopWorkers true true appName) ;;
       runSSHCommand serverName (RmWorkers true appName) ;;
       ret tt
     else ret tt)
    (fun _ => fallbackCleanup serverName appName).

(** [startingPort + i - 1]. *)
Definition slot_port (startingPort : number) (i : Z) : number :=
  num_sub (num_add startingPort (of_Z i)) (of_Z 1).

(** The [docker run] command of slot [i]. *)
Definition runCmd (serverName appName : string) (appPort startingPort : number)
  (actualImage : string) (i : Z) : command :=
  Run (worker_name appName i)
      (serverName ++ "-" ++ appName ++ "-" ++ string_of_Z i)
      (slot_port startingPort i) appPort i appName actualImage.

(** The body of the creation loop for slot [i] (the two-second pause after
    [docker run] is not represented). *)
Definition startSlot (serverName appName : string) (appPort startingPort : number)
  (actualImage : string) (i : Z) : prog unit :=
  let containerName := worker_name appName i in
  let port := slot_port startingPort i in
  catch
    (runSSHCommand serverName
       (runCmd serverName appName appPort startingPort actualImage i) ;;
     statusCheck <- runSSHCommand serverName (PsStatus containerName) ;;
     if includes statusCheck containerName && includes statusCheck "Up" then
       log (LogWorkerUp containerName port i)
     else
       logs <- runSSHCommand serverName (Logs containerName) ;;
       log (LogWorkerFailed containerName) ;;
       log (LogWorkerLogs logs) ;;
       imageCheck <- runSSHCommand serverName (Images actualImage) ;;
       if negb (includes imageCheck actualImage) then
         log (LogImageMissing actualImage)
       else ret tt)
    (fun error => log (LogWorkerError containerName error)).

(** The creation loop [for (let i = 1; i < cores; i++)]. *)
Definition startSlots (serverName appName : string) (appPort startingPort : number)
  (actualImage : string) (cores : number) : prog unit :=
  for_each (worker_slots cores)
    (startSlot serverName appName appPort startingPort actualImage).

(** One server's reconciliation once [cores] is known: the callback of
    [startWorkerContainers] from [if (cores <= 1)] on. *)
Definition reconcile (serverName appName : string) (appPort startingPort : number)
  (cores : number) : prog unit :=
  if num_le cores (of_Z 1) then
    log (LogSingleCore serverName) ;;
    cleanupSingleCore serverName appName ;;
    log (LogNoWorkersNeeded serverName)
  else
    catch
      (imageQuery <- runSSHCommand serverName (InspectImage appName) ;;
       let actualImage := trim imageQuery in
       if String.eqb actualImage "" then
         log (LogNoImage serverName)
       else
         log (LogUsingImage serverName actualImage) ;;
         cleanupBeforeStart serverName appName ;;
         log (LogStarting serverName cores) ;;
         startSlots serverName appName appPort startingPort actualImage cores ;;
         status <- runSSHCommand serverName (PsGrep appName) ;;
         log (LogAllRunning serverName) ;;
         for_each (split_lines status)
           (fun line => if nonblank line then log (LogStatusLine line)
                        else ret tt))
      (fun error => log (LogStartError serverName error)).

(** The callback of [startWorkerContainers] for one server. *)
Definition startWorkersOn (serverConfigs : server_table) (config : Config)
  (appName : string) (serverName : string) : prog unit :=
  let appPort := getAppPort config in
  let instanceCount := getInstanceCount serverConfigs config serverName in
  let startingPort := getStartingPort serverConfigs config serverName in
  cores <- resolveCores serverName instanceCount ;;
  reconcile serverName appName appPort startingPort cores.

Definition startWorkerContainers (serverConfigs : server_table) (api : Api)
  : prog unit :=
  let config := getConfig api in
  match cfg_app config with
  | None => raise type_error
  | Some a =>
      let serversToProcess := getFilteredServers a (getOptions api) in
      let appName := app_name a in
      log LogStartBanner ;;
      promise_all
        (map (startWorkersOn serverConfigs config appName)
           (map fst serversToProcess))
  end.

(** The callback of [stopWorkerContainers] for one server. *)
Definition stopWorkersOn (appName serverName : string) : prog unit :=
  catch
    (workerList <- runSSHCommand serverName (PsWorkers false appName) ;;
     if nonblank workerList then
       runSSHCommand serverName (StopWorkers false false appName) ;;
       runSSHCommand serverName (RmWorkers false appName) ;;
       log (LogStopped serverName)
     else log (LogNoneToStop serverName))
    (fun error => log (LogStopError serverName error)).

Definition stopWorkerContainers (api : Api) : prog unit :=
  let config := getConfig api in
  match cfg_app config with
  | None => raise type_error
  | Some a =>
      let serversToProcess := getFilteredServers a (getOptions api) in
      let appName := app_name a in
      log LogStopBanner ;;
      promise_all (map (stopWorkersOn appName) (map fst serversToProcess))
  end.

(** The [try] block of the [restartWorkerContainers] callback: [true] when
    it ends in [return startWorkerContainers(api)].  That promise is not
    awaited inside the [try], so it runs after the block is left. *)
Definition restartOrStart (appName serverName : string) : prog bool :=
  catch
    (workerList <- runSSHCommand serverName (PsWorkers true appName) ;;
     if nonblank workerList then
       runSSHCommand serverName (RestartWorkers appName) ;;
       log (LogRestarted serverName) ;;
       ret false
     else
       log (LogNoneToRestart serverName) ;;
       ret true)
    (fun error => log (LogRestartError serverName error) ;; ret false).

(** The callback of [restartWorkerContainers] for one server. *)
Definition restartWorkersOn (serverConfigs : server_table) (api : Api)
  (appName serverName : string) : prog unit :=
  startAll <- restartOrStart appName serverName ;;
  if startAll : bool then startWorkerContainers serverConfigs api else ret tt.

Definition restartWorkerContainers (serverConfigs : server_table) (api : Api)
  : prog unit :=
  let config := getConfig api in
  match cfg_app config with
  | None => raise type_error
  | Some a =>
      let serversToProcess := getFilteredServers a (getOptions api) in
      let appName := app_name a in
      log LogRestartBanner ;;
      promise_all
        (map (restartWorkersOn serverConfigs api appName)
           (map fst serversToProcess))
  end.

(** The ports listed after the primary in the upstream block. *)
Definition upstream_ports (startingPort cores : number) : list number :=
  map (slot_port startingPort) (worker_slots cores).

(** The callback of [updateMupNginx] for one server. *)
Definition updateNginxOn (serverConfigs : server_table) (config : Config)
  (appName : string) (serverName : string) : prog unit :=
  let appPort := getAppPort config in
  if negb (shouldUseNginx serverConfigs config serverName) then
    log (LogNginxSkip serverName)
  else
    let instanceCount := getInstanceCount serverConfigs config serverName in
    let startingPort := getStartingPort serverConfigs config serverName in
    cores <- resolveCores serverName instanceCount ;;
    catch
      (runSSHCommand serverName (NginxBackupEnv appName) ;;
       runSSHCommand serverName
         (NginxWriteUpstream appName appPort
            (upstream_ports startingPort cores)) ;;
       runSSHCommand serverName (NginxPatchSite appPort) ;;
       runSSHCommand serverName (NginxInsertUpstream appName) ;;
       runSSHCommand serverName NginxReload ;;
       log (LogNginxUpdated serverName cores))
      (fun error => log (LogNginxError serverName error)).

Definition updateMupNginx (serverConfigs : server_table) (api : Api)
  : prog unit :=
  let config := getConfig api in
  match cfg_app config with
  | None => raise type_error
  | Some a =>
      let serversToProcess := getFilteredServers a (getOptions api) in
      let appName := app_name a in
      log LogNginxBanner ;;
      promise_all
        (map (updateNginxOn serverConfigs config appName)
           (map fst serversToProcess))
  end.

Module Hooks.

(** [hooks['post.default.deploy']]. *)
Definition post_default_deploy (serverConfigs : server_table) (api : Api)
  : prog unit :=
  let config := getConfig api in
  match cfg_app config with
  | Some a =>
      if app_docker a then
        let serversToProcess := getFilteredServers a (getOptions api) in
        let needsNginx :=
          existsb (fun serverName => shouldUseNginx serverConfigs config serverName)
            (map fst serversToProcess) in
        if needsNginx then
          startWorkerContainers serverConfigs api ;;
          updateMupNginx serverConfigs api
        else startWorkerContainers serverConfigs api
      else ret tt
  | None => ret tt
  end.

(** [hooks['post.default.start']]. *)
Definition post_default_start (serverConfigs : server_table) (api : Api)
  : prog unit :=
  match cfg_app (getConfig api) with
  | Some a =>
      if app_docker a then startWorkerContainers serverConfigs api else ret tt
  | None => ret tt
  end.

(** [hooks['post.default.restart']]. *)
Definition post_default_restart (serverConfigs : server_table) (api : Api)
  : prog unit :=
  match cfg_app (getConfig api) with
  | Some a =>
      if app_docker a then restartWorkerContainers serverConfigs api
      else ret tt
  | None => ret tt
  end.

(** [hooks['post.default.stop']]. *)
Definition post_default_stop (serverConfigs : server_table) (api : Api)
  : prog unit :=
  match cfg_app (getConfig api) with
  | Some a => if app_docker a then stopWorkerContainers api else ret tt
  | None => ret tt
  end.

End Hooks.

(* ===================================================================== *)
(** * Running a program against a remote host *)
(* ===================================================================== *)

(** A remote host answers each command from its current state. *)
Record host (S : Type) : Type := mkHost {
  respond : S -> string -> command -> S * response
}.

(** What a run leaves behind, in order: the commands sent with their
    answers, and the lines logged. *)
Inductive event : Type :=
| Ran (serverName : string) (c : command) (r : response)
| Logged (l : log_line).

Inductive outcome (A : Type) : Type :=
| Fulfilled (a : A)
| Failed (error : string).

Arguments Failed {A} error.

Fixpoint exec {S A : Type} (h : host S) (p : prog A) (st : S)
  : S * list event * outcome A :=
  match p with
  | Ret a => (st, [], Fulfilled a)
  | Raise e => (st, [], Failed e)
  | Ssh s c k =>
      let '(st1, r) := respond h st s c in
      let '(st2, tr, o) := exec h (k r) st1 in
      (st2, Ran s c r :: tr, o)
  | Log l k =>
      let '(st2, tr, o) := exec h k st in
      (st2, Logged l :: tr, o)
  end.

Definition final_state {S A : Type} (run : S * list event * outcome A) : S :=
  fst (fst run).
Definition trace {S A : Type} (run : S * list event * outcome A) : list event :=
  snd (fst run).
Definition result {S A : Type} (run : S * list event * outcome A) : outcome A :=
  snd run.

(** The commands of a trace, without answers and log lines. *)
Definition commands (tr : list event) : list (string * command) :=
  flat_map (fun e => match e with Ran s c _ => [(s, c)] | Logged _ => [] end) tr.

Definition logged (tr : list event) : list log_line :=
  flat_map (fun e => match e with Ran _ _ _ => [] | Logged l => [l] end) tr.

(* ===================================================================== *)
(** * A reliable Docker host *)
(* ===================================================================== *)

(** The part of a container runtime the plugin relies on, for a host that
    stays reachable: containers have a name, an image, a published port
    and a running flag; names are unique; [docker rm] removes stopped
    containers only; [docker run] creates the container even when its port
    cannot be bound, and [docker restart] leaves such a container stopped.
    Which ports cannot be bound is a datum of the state ([port_busy]); a
    port published by another container of the state is not added to it,
    so the running flags are those of a host on which the containers do
    not compete for ports among themselves. *)
Module Docker.

Record container : Type := mkContainer {
  c_name : string;
  c_image : string;
  c_port : number;
  c_running : bool
}.

Record dockerd : Type := mkDockerd {
  containers : list container;
  nproc_output : string;
  port_busy : number -> bool       (* ports some other process holds *)
}.

Definition with_containers (st : dockerd) (cs : list container) : dockerd :=
  mkDockerd cs (nproc_output st) (port_busy st).

Definition named (n : string) (c : container) : bool := String.eqb (c_name c) n.

(** The container is listed by [docker ps -aq|-q --filter name=pattern]. *)
Definition listed (all : bool) (pattern : string) (c : container) : bool :=
  filter_matches pattern (c_name c) && (all || c_running c).

Definition set_running (b : bool) (c : container) : container :=
  mkContainer (c_name c) (c_image c) (c_port c) b.

(** Container ids are opaque to the plugin; it only tests a listing for
    emptiness. *)
Definition container_id (c : container) : string := "id-" ++ c_name c.

Definition unlines (ls : list string) : string :=
  fold_right (fun l acc => l ++ nl ++ acc) "" ls.

Definition status_line (c : container) : string :=
  c_name c ++ (if c_running c then " Up 2 seconds" else " Created").

Definition respond_docker (st : dockerd) (serverName : string) (c : command)
  : dockerd * response :=
  let cs := containers st in
  match c with
  | Nproc => (st, Output (nproc_output st))
  | PsWorkers all appName =>
      (st, Output (unlines (map container_id
                              (filter (listed all (worker_filter appName)) cs))))
  | StopWorkers all tolerant appName =>
      let hit := listed all (worker_filter appName) in
      (with_containers st
         (map (fun x => if hit x then set_running false x else x) cs),
       if tolerant || existsb hit cs then Output ""
       else Rejected "docker stop requires at least 1 argument")
  | RmWorkers tolerant appName =>
      let hit := listed true (worker_filter appName) in
      (with_containers st
         (filter (fun x => negb (hit x && negb (c_running x))) cs),
       if tolerant
          || (existsb hit cs
              && forallb (fun x => negb (hit x && c_running x)) cs)
       then Output ""
       else Rejected "docker rm failed")
  | RestartWorkers appName =>
      let hit := listed true (worker_filter appName) in
      (with_containers st
         (map (fun x =>
                 if hit x then set_running (negb (port_busy st (c_port x))) x
                 else x) cs),
       if existsb hit cs then
         if existsb (fun x => hit x && port_busy st (c_port x)) cs
         then Rejected "port is already allocated"
         else Output ""
       else Rejected "docker restart requires at least 1 argument")
  | StopContainer n =>
      (with_containers st
         (map (fun x => if named n x then set_running false x else x) cs),
       Output "")
  | RmContainer n =>
      (with_containers st
         (filter (fun x => negb (named n x && negb (c_running x))) cs),
       Output "")
  | InspectImage n =>
      match find (named n) cs with
      | Some x => (st, Output (c_image x ++ nl))
      | None => (st, Rejected "Error: No such object")
      end
  | Run n _ port _ _ _ image =>
      if existsb (named n) cs then
        (st, Rejected "Conflict. The container name is already in use")
      else if port_busy st port then
        (with_containers st (cs ++ [mkContainer n image port false]),
         Rejected "port is already allocated")
      else
        (with_containers st (cs ++ [mkContainer n image port true]),
         Output (container_id (mkContainer n image port true)))
  | PsStatus n =>
      (st, Output (unlines (map status_line
                              (filter (fun x => filter_matches n (c_name x)
                                                && c_running x) cs))))
  | Logs n =>
      (st, Output (if existsb (named n) cs then "" else "Container not found"))
  | Images image => (st, Output (image ++ ":latest"))
  | PsGrep appName =>
      (st, Output (unlines (map status_line
                              (filter (fun x => includes (c_name x) appName
                                                && c_running x) cs))))
  | NginxBackupEnv _ | NginxWriteUpstream _ _ _ | NginxPatchSite _
  | NginxInsertUpstream _ | NginxReload => (st, Output "")
  end.

Definition docker_host : host dockerd := mkHost respond_docker.

(** The replica inventory of an application: name and published port of
    every container the worker filter lists. *)
Definition worker_inventory (appName : string) (st : dockerd)
  : list (string * number) :=
  map (fun x => (c_name x, c_port x))
    (filter (listed true (worker_filter appName)) (containers st)).

(** The containers the worker filter does not list. *)
Definition without_workers (appName : string) (cs : list container)
  : list container :=
  filter (fun x => negb (listed true (worker_filter appName) x)) cs.

(** The containers the creation loop leaves behind: one per slot, running
    unless its port could not be bound. *)
Definition new_workers (appName actualImage : string)
  (startingPort cores : number) (busy : number -> bool) : list container :=
  map (fun i =>
         mkContainer (worker_name appName i) actualImage
           (slot_port startingPort i) (negb (busy (slot_port startingPort i))))
    (worker_slots cores).

(** The host after one server's reconciliation. *)
Definition reconciled (appName : string) (startingPort cores : number)
  (st : dockerd) : dockerd :=
  if num_le cores (of_Z 1) then
    with_containers st (without_workers appName (containers st))
  else
    match find (named appName) (containers st) with
    | None => st
    | Some primary =>
        let actualImage := trim (c_image primary ++ nl) in
        if String.eqb actualImage "" then st
        else
          with_containers st
            (without_workers appName (containers st)
               ++ new_workers appName actualImage startingPort cores
                    (port_busy st))
    end.

(** The core count a pass resolves on this host. *)
Definition resolved_cores (instanceCount : instances_spec) (st : dockerd)
  : number :=
  match instanceCount with
  | Auto => parseInt (trim (nproc_output st))
  | Count n => n
  end.

End Docker.

(* ===================================================================== *)
(** * Predicates used in the statements *)
(* ===================================================================== *)

(** Every command the program can send, whatever the answers, satisfies
    [P]. *)
Inductive sends (P : string -> command -> Prop) {A : Type} : prog A -> Prop :=
| sends_Ret : forall a, sends P (Ret a)
| sends_Raise : forall e, sends P (Raise e)
| sends_Ssh : forall s c k,
    P s c -> (forall r, sends P (k r)) -> sends P (Ssh s c k)
| sends_Log : forall l k, sends P k -> sends P (Log l k).

(** Every command of a trace satisfies [P]. *)
Definition all_commands (P : string -> command -> Prop) (tr : list event) : Prop :=
  Forall (fun e => match e with Ran s c _ => P s c | Logged _ => True end) tr.

(** The program never rejects. *)
Inductive never_fails {A : Type} : prog A -> Prop :=
| nf_Ret : forall a, never_fails (Ret a)
| nf_Ssh : forall s c k, (forall r, never_fails (k r)) -> never_fails (Ssh s c k)
| nf_Log : forall l k, never_fails k -> never_fails (Log l k).

(** ** Validation rules *)

(** The rule of the specification for [instances]: the literal ["auto"] or
    an integer that is at least 1. *)
Definition instances_as_specified (v : value) : Prop :=
  v = VStr "auto" \/ exists n z, v = VNum n /\ num_is_int n z /\ 1 <= z.

(** The validator flags a defined [instances] unless it is as specified. *)
Definition flags_instances_unless_specified (config : value) : Prop :=
  let v := get (get config "multiCore") "instances" in
  v <> VUndef ->
  ~ instances_as_specified v ->
  exists d, In d (Validate.multiCore config) /\ path d = "multiCore.instances".

(** What the validators let through: ["auto"] or a number that is not
    below 1; a number that is neither below 1024 nor above 65535; a
    boolean; and in each case a field that is not defined. *)
Definition instances_accepted (v : value) : bool :=
  match v with
  | VUndef => true
  | VStr s => String.eqb s "auto"
  | VNum n => negb (num_lt n (of_Z 1))
  | _ => false
  end.

Definition startingPort_accepted (v : value) : bool :=
  match v with
  | VUndef => true
  | VNum n => negb (num_lt n (of_Z 1024)) && negb (num_gt n (of_Z 65535))
  | _ => false
  end.

Definition useNginx_accepted (v : value) : bool :=
  match v with
  | VUndef | VBool _ => true
  | _ => false
  end.

(** Some entry of the list has this path. *)
Definition flagged (p : string) (details : list detail) : bool :=
  existsb (fun d => String.eqb (path d) p) details.

(** The path of a global entry, moved under one server. *)
Definition under_server (serverName : string) (p : string) : string :=
  "app.servers." ++ serverName ++ "." ++ p.

(** A global block with a fractional instance count. *)
Definition config_fraction : value :=
  VObj [("multiCore", VObj [("instances", VNum (Fin (5 # 2)))])].

(** A block that breaks each of the three rules, globally and for [web1]. *)
Definition block_invalid : list (string * value) :=
  [("instances", VNum (of_Z 0)); ("startingPort", VNum (of_Z 80));
   ("useNginx", VStr "yes")].
Definition config_invalid : value :=
  VObj [("multiCore", VObj block_invalid)].
Definition servers_invalid : value :=
  VObj [("web1", VObj [("multiCore", VObj block_invalid)])].

(** ** Example configurations and hosts *)

(** Nginx is enabled globally and switched off for the backend worker
    [worker1], as in the README's mixed deployment. *)
Definition config_mixed : Config :=
  mkConfig
    (Some (mkApp "myapp" None true
             (Some [("web1", mkServerEntry (Some (mkMultiCore None None (Some true))));
                    ("worker1",
                     mkServerEntry (Some (mkMultiCore None None (Some false))))])))
    (Some (mkMultiCore (Some Auto) (Some (of_Z 3001)) (Some true))).

(** A host on which [nproc] is not installed: the command comes back with
    the shell's complaint as its output. *)
Definition host_without_nproc : host unit :=
  mkHost (fun st _ _ => (st, Output "bash: nproc: command not found")).

(** A host that cannot be reached. *)
Definition host_unreachable : host unit :=
  mkHost (fun st _ _ => (st, Rejected "connect ETIMEDOUT")).


(** Two servers, no per-server blocks, two cores each, and a Docker host
    that runs the primary and no worker. *)
Definition config_two : Config :=
  mkConfig
    (Some (mkApp "myapp" None true
             (Some [("web1", mkServerEntry None); ("web2", mkServerEntry None)])))
    (Some (mkMultiCore (Some (Count (of_Z 2))) None None)).

Definition api_two : Api := mkApi config_two NoFilter.

Definition docker_primary_only : Docker.dockerd :=
  Docker.mkDockerd [Docker.mkContainer "myapp" "sha256:1f2e" (of_Z 3000) true]
    ("4" ++ nl) (fun _ => false).

(** ** Command inventories *)

(** The commands one server's reconciliation can send. *)
Definition reconcile_command (serverName appName : string)
  (appPort startingPort cores : number) (s : string) (c : command) : Prop :=
  s = serverName /\
  (c = InspectImage appName \/
   c = PsWorkers true appName \/
   c = StopWorkers true true appName \/
   c = RmWorkers true appName \/
   (exists i, In i fallback_slots /\
              (c = StopContainer (worker_name appName i) \/
               c = RmContainer (worker_name appName i))) \/
   (exists i actualImage,
       In i (worker_slots cores) /\
       (c = runCmd serverName appName appPort startingPort actualImage i \/
        c = PsStatus (worker_name appName i) \/
        c = Logs (worker_name appName i) \/
        c = Images actualImage)) \/
   c = PsGrep appName).

(** The commands [startWorkerContainers] can send. *)
Definition start_command (serverConfigs : server_table) (config : Config)
  (appName : string) (s : string) (c : command) : Prop :=
  c = Nproc \/
  exists cores,
    reconcile_command s appName (getAppPort config)
      (getStartingPort serverConfigs config s) cores s c.

(** The commands [stopWorkerContainers] can send. *)
Definition stop_command (appName : string) (c : command) : Prop :=
  c = PsWorkers false appName \/ c = StopWorkers false false appName \/
  c = RmWorkers false appName.

(** The commands [restartWorkerContainers] can send. *)
Definition restart_command (serverConfigs : server_table) (config : Config)
  (appName : string) (s : string) (c : command) : Prop :=
  c = PsWorkers true appName \/ c = RestartWorkers appName \/
  start_command serverConfigs config appName s c.

(** ** The primary container *)

(** A command leaves the primary alone: it does not touch the container
    named [appName], and what it creates, stops, removes or restarts is
    designated by the worker name filter or by the name of a worker slot. *)
Definition primary_safe (appName : string) (c : command) : Prop :=
  touches c appName = false /\
  forall act t, mutation c = Some (act, t) ->
    t = ByFilter (worker_filter appName)
    \/ exists i, t = ByName (worker_name appName i).

(** ** Created containers *)

(** The [docker run] commands of a trace, in order. *)
Definition created (tr : list event) : list (string * command) :=
  filter (fun sc => is_create (snd sc)) (commands tr).

(** The stop and remove commands of a trace, in order. *)
Definition removals (tr : list event) : list (string * command) :=
  filter (fun sc => is_removal (snd sc)) (commands tr).

(** A Docker host that runs the primary and a stale worker in slot 7 on an
    old port, and the three-core reconciliation of [web1] against it. *)
Definition docker_stale_worker : Docker.dockerd :=
  Docker.mkDockerd
    [Docker.mkContainer "myapp" "sha256:1f2e" (of_Z 3000) true;
     Docker.mkContainer "myapp-worker-7" "sha256:0a0a" (of_Z 4007) true]
    ("4" ++ nl) (fun _ => false).

Definition run_stale_worker
  : Docker.dockerd * list event * outcome unit :=
  exec Docker.docker_host
    (reconcile "web1" "myapp" (of_Z 3000) (of_Z 3001) (of_Z 3))
    docker_stale_worker.

(** ** The bounded fallback *)


(** The stop and remove commands of the fallback, slot by slot. *)
Definition fallback_commands (serverName appName : string)
  : list (string * command) :=
  flat_map
    (fun i => [(serverName, StopContainer (worker_name appName i));
               (serverName, RmContainer (worker_name appName i))])
    fallback_slots.


(** ** Server selection and the override table *)

(** [config.app.servers || {}]. *)
Definition all_servers (a : App) : list (string * ServerEntry) :=
  match app_servers a with Some s => s | None => [] end.

(** The name occurs in the list. *)
Definition mentions (names : list string) (n : string) : bool :=
  existsb (String.eqb n) names.

(** The string holds a comma. *)
Fixpoint has_comma (s : string) : bool :=
  match s with
  | EmptyString => false
  | String c r => Ascii.eqb c ","%char || has_comma r
  end.

(** Three servers, as in the README, and a per-server block on two of
    them. *)
Definition servers_three : list (string * ServerEntry) :=
  [("web1", mkServerEntry (Some (mkMultiCore None None (Some true))));
   ("web2", mkServerEntry None);
   ("worker1",
    mkServerEntry (Some (mkMultiCore (Some (Count (of_Z 2)))
                           (Some (of_Z 4001)) None)))].

Definition app_three : App := mkApp "myapp" None true (Some servers_three).

Definition config_three : Config :=
  mkConfig (Some app_three) (Some (mkMultiCore (Some Auto) None None)).

(** No byte of the string is white space or starts a white-space
    character. *)
Fixpoint no_space (s : string) : bool :=
  match s with
  | EmptyString => true
  | String c r => negb (is_space c) && negb (starts_wide c) && no_space r
  end.

(** ** Nginx steps and published ports *)

(** The five commands of [updateMupNginx] for one server, in order. *)
Definition nginx_sequence (appName : string) (appPort startingPort cores : number)
  : list command :=
  [NginxBackupEnv appName;
   NginxWriteUpstream appName appPort (upstream_ports startingPort cores);
   NginxPatchSite appPort;
   NginxInsertUpstream appName;
   NginxReload].

(** The host port a [docker run] publishes. *)
Definition published_port (c : command) : option number :=
  match c with
  | Run _ _ port _ _ _ _ => Some port
  | _ => None
  end.

(** The host rejects every command. *)
Definition rejects_everything {S : Type} (h : host S) : Prop :=
  forall st s c, exists st' e, respond h st s c = (st', Rejected e).

(** Two servers; [worker1] is configured for a single instance. *)
Definition config_single : Config :=
  mkConfig
    (Some (mkApp "myapp" None true
             (Some [("web1", mkServerEntry None);
                    ("worker1", mkServerEntry None)])))
    (Some (mkMultiCore (Some Auto) None (Some true))).

Definition table_single : server_table :=
  [("worker1", mkMultiCore (Some (Count (of_Z 1))) None None)].

Definition api_single : Api := mkApi config_single NoFilter.


(** A Docker host with the primary, a running worker and a stopped one. *)
Definition docker_mixed_workers : Docker.dockerd :=
  Docker.mkDockerd
    [Docker.mkContainer "myapp" "sha256:1f2e" (of_Z 3000) true;
     Docker.mkContainer "myapp-worker-1" "sha256:1f2e" (of_Z 3001) true;
     Docker.mkContainer "myapp-worker-2" "sha256:1f2e" (of_Z 3002) false]
    ("4" ++ nl) (fun _ => false).

(** A Docker host with the primary and one stopped worker. *)
Definition docker_stopped_worker : Docker.dockerd :=
  Docker.mkDockerd
    [Docker.mkContainer "myapp" "sha256:1f2e" (of_Z 3000) true;
     Docker.mkContainer "myapp-worker-1" "sha256:1f2e" (of_Z 3001) false]
    ("4" ++ nl) (fun _ => false).


(** A Docker host whose [nproc] prints no number, with two workers. *)
Definition docker_bad_nproc : Docker.dockerd :=
  Docker.mkDockerd
    [Docker.mkContainer "myapp" "sha256:1f2e" (of_Z 3000) true;
     Docker.mkContainer "myapp-worker-1" "sha256:1f2e" (of_Z 3001) true;
     Docker.mkContainer "myapp-worker-2" "sha256:1f2e" (of_Z 3002) true]
    ("nproc: command not found" ++ nl) (fun _ => false).


(** A configuration whose global block and whose block for [web1] are the
    string ["on"], and one with the invalid block under [app.servers]. *)
Definition config_block_string : value :=
  VObj [("multiCore", VStr "on");
        ("app", VObj [("servers", VObj [("web1", VObj [("multiCore", VStr "on")])])])].

Definition config_servers_invalid : value :=
  VObj [("app", VObj [("servers", servers_invalid)])].


(** ** The clean-up a trace holds *)

(** Every stop and remove by name of the slots 1 to 10 is in the trace and
    was answered. *)
Definition by_name_done (serverName appName : string) (tr : list event)
  : Prop :=
  forall sc, In sc (fallback_commands serverName appName) ->
  exists o, In (Ran (fst sc) (snd sc) (Output o)) tr.

(** The trace holds a clean-up that came to its end: the inventory query;
    when it listed containers, the filter-wide stop and, once that was
    answered, the filter-wide remove; and the stop and remove by name of
    the slots 1 to 10 whenever the query or a filter-wide command was
    rejected. *)
Definition cleaned (serverName appName : string) (tr : list event) : Prop :=
  exists answer,
    In (Ran serverName (PsWorkers true appName) answer) tr
    /\ match answer with
       | Output found =>
           nonblank found = true ->
           exists r1,
             In (Ran serverName (StopWorkers true true appName) r1) tr
             /\ match r1 with
                | Output _ =>
                    exists r2,
                      In (Ran serverName (RmWorkers true appName) r2) tr
                      /\ match r2 with
                         | Output _ => True
                         | Rejected _ => by_name_done serverName appName tr
                         end
                | Rejected _ => by_name_done serverName appName tr
                end
       | Rejected _ => by_name_done serverName appName tr
       end.

(** A Docker host on which the commands picked by [lost] do not arrive:
    they are rejected and change nothing. *)
Definition docker_host_losing (lost : command -> bool)
  : host Docker.dockerd :=
  mkHost (fun st s c =>
            if lost c then (st, Rejected "connection lost")
            else Docker.respond_docker st s c).

Definition is_filter_stop (c : command) : bool :=
  match c with StopWorkers _ _ _ => true | _ => false end.

(** The primary, and a worker left in slot 11 on port 3011 by an earlier
    pass for twelve cores. *)
Definition docker_slot_11 : Docker.dockerd :=
  Docker.mkDockerd
    [Docker.mkContainer "myapp" "sha256:1f2e" (of_Z 3000) true;
     Docker.mkContainer "myapp-worker-11" "sha256:0a0a" (of_Z 3011) true]
    ("2" ++ nl) (fun _ => false).

(** The claim C3 as the specification words it, on a host whose state is a
    Docker state: removal of every container found in the inventory is
    unconditional and precedes creation, so once a pass has created
    workers, no container of the inventory it found is left unless the
    pass created it anew. *)
Definition inventory_removed_before_creation (h : host Docker.dockerd)
  (st : Docker.dockerd) (serverName appName : string)
  (appPort startingPort cores : number) : Prop :=
  let run :=
    exec h (reconcile serverName appName appPort startingPort cores) st in
  created (trace run) <> [] ->
  forall x,
    In x (Docker.worker_inventory appName st) ->
    In x (Docker.worker_inventory appName (final_state run)) ->
    exists c,
      In (serverName, c) (created (trace run))
      /\ mutation c = Some (Create, ByName (fst x)).


(** ** The worker naming pattern *)

(** [containerName] has the form [appName-worker-...]. *)
Definition matches_worker_pattern (appName containerName : string) : bool :=
  String.prefix (appName ++ "-worker-") containerName.

(** What every mutating command of the plugin is held to: it leaves the
    primary alone; what it designates by name is a slot name
    [appName-worker-i]; and a container it may touch, by name or through
    Docker's name filter, has a name that contains [appName-worker] and is
    not the primary. *)
Definition worker_scoped (appName : string) (c : command) : Prop :=
  primary_safe appName c
  /\ (forall act n,
        mutation c = Some (act, ByName n) ->
        (exists i, n = worker_name appName i)
        /\ matches_worker_pattern appName n = true)
  /\ (forall containerName,
        touches c containerName = true ->
        includes containerName (worker_filter appName) = true
        /\ containerName <> appName).

(** The second half of C5 as the specification words it, for one run: a
    container that a command of the run may touch has a name of the form
    [appName-worker-...]. *)
Definition touches_only_worker_names {S : Type} (h : host S) (st : S)
  (operation : prog unit) (appName : string) : Prop :=
  forall s c r containerName,
    In (Ran s c r) (trace (exec h operation st)) ->
    touches c containerName = true ->
    matches_worker_pattern appName containerName = true.

(** An application named [app] on a host that also runs the workers of
    another application, [myapp]. *)
Definition config_app : Config :=
  mkConfig
    (Some (mkApp "app" None true (Some [("web1", mkServerEntry None)])))
    (Some (mkMultiCore (Some (Count (of_Z 2))) None None)).

Definition api_app : Api := mkApi config_app NoFilter.

Definition docker_two_apps : Docker.dockerd :=
  Docker.mkDockerd
    [Docker.mkContainer "app" "sha256:77aa" (of_Z 3000) true;
     Docker.mkContainer "app-worker-1" "sha256:77aa" (of_Z 3001) true;
     Docker.mkContainer "myapp" "sha256:1f2e" (of_Z 4000) true;
     Docker.mkContainer "myapp-worker-1" "sha256:1f2e" (of_Z 4001) true]
    ("2" ++ nl) (fun _ => false).


(** ** The callbacks of a [Promise.all], one after the other *)

(** The runs of the callback for each server in turn, each from the state
    the one before it left: the server, the state its callback starts
    from, and the run.  (The model takes the callbacks one after the
    other; the code lets them interleave at every [await].) *)
Fixpoint runs_in_turn {S : Type} (h : host S) (callback : string -> prog unit)
  (servers : list string) (st : S)
  : list (string * S * (S * list event * outcome unit)) :=
  match servers with
  | [] => []
  | s :: rest =>
      let run := exec h (callback s) st in
      (s, st, run) :: runs_in_turn h callback rest (final_state run)
  end.


(** Two servers, each a Docker host of its own: [web1] and every other
    server. *)
Definition two_docker_hosts : host (Docker.dockerd * Docker.dockerd) :=
  mkHost (fun st s c =>
            if String.eqb s "web1" then
              let '(st1, r) := Docker.respond_docker (fst st) s c in
              ((st1, snd st), r)
            else
              let '(st2, r) := Docker.respond_docker (snd st) s c in
              ((fst st, st2), r)).



(** ** Commands sent until one is rejected *)

(** The commands [cs] sent to server [s] one after the other, each after
    the one before it was answered, up to and including the first that is
    rejected: the state left, the events, and the rejection if any. *)
Fixpoint send_until_rejected {S : Type} (h : host S) (s : string)
  (cs : list command) (st : S) : S * list event * option string :=
  match cs with
  | [] => (st, [], None)
  | c :: rest =>
      match respond h st s c with
      | (st1, Output out) =>
          let '(st2, tr, rejected) := send_until_rejected h s rest st1 in
          (st2, Ran s c (Output out) :: tr, rejected)
      | (st1, Rejected e) => (st1, [Ran s c (Rejected e)], Some e)
      end
  end.

(** The event is a command to [s] that was answered. *)
Definition answered (s : string) (ev : event) : Prop :=
  exists c out, ev = Ran s c (Output out).

(* ===================================================================== *)
(** * Running programs: general facts *)
(* ===================================================================== *)

Ltac unfold_monad :=
  cbn [bind ret raise catch Monad_prog MonadExc_prog] in *.

Lemma exec_bind {S A B : Type} (h : host S) (p : prog A) (f : A -> prog B) st :
  exec h (prog_bind p f) st =
  match exec h p st with
  | (st1, tr1, Fulfilled a) =>
      let '(st2, tr2, o) := exec h (f a) st1 in (st2, (tr1 ++ tr2)%list, o)
  | (st1, tr1, Failed e) => (st1, tr1, Failed e)
  end.
Proof.
  revert st. induction p as [a|e|s c k IH|l k IH]; intros st; simpl.
  - destruct (exec h (f a) st) as [[st2 tr2] o]. reflexivity.
  - reflexivity.
  - destruct (respond h st s c) as [st1 r]. rewrite IH.
    destruct (exec h (k r) st1) as [[st2 tr2] [a|e]]; simpl.
    + destruct (exec h (f a) st2) as [[st3 tr3] o]. reflexivity.
    + reflexivity.
  - rewrite IH.
    destruct (exec h k st) as [[st2 tr2] [a|e]]; simpl.
    + destruct (exec h (f a) st2) as [[st3 tr3] o]. reflexivity.
    + reflexivity.
Qed.

Lemma exec_catch {S A : Type} (h : host S) (p : prog A) handler st :
  exec h (try_catch p handler) st =
  match exec h p st with
  | (st1, tr1, Fulfilled a) => (st1, tr1, Fulfilled a)
  | (st1, tr1, Failed e) =>
      let '(st2, tr2, o) := exec h (handler e) st1 in (st2, (tr1 ++ tr2)%list, o)
  end.
Proof.
  revert st. induction p as [a|e|s c k IH|l k IH]; intros st; simpl.
  - reflexivity.
  - destruct (exec h (handler e) st) as [[st2 tr2] o]. reflexivity.
  - destruct (respond h st s c) as [st1 r]. rewrite IH.
    destruct (exec h (k r) st1) as [[st2 tr2] [a|e]]; simpl.
    + reflexivity.
    + destruct (exec h (handler e) st2) as [[st3 tr3] o]. reflexivity.
  - rewrite IH.
    destruct (exec h k st) as [[st2 tr2] [a|e]]; simpl.
    + reflexivity.
    + destruct (exec h (handler e) st2) as [[st3 tr3] o]. reflexivity.
Qed.

Lemma exec_run_bind {S B : Type} (h : host S) (s : string) (c : command)
  (f : string -> prog B) st :
  exec h (prog_bind (runSSHCommand s c) f) st =
  (let '(st1, r) := respond h st s c in
   match r with
   | Output o =>
       let '(st2, tr, res) := exec h (f o) st1 in (st2, Ran s c r :: tr, res)
   | Rejected e => (st1, [Ran s c r], Failed e)
   end).
Proof.
  cbn [runSSHCommand prog_bind exec].
  destruct (respond h st s c) as [st1 [o|e]]; reflexivity.
Qed.

Lemma sends_weaken (P Q : string -> command -> Prop) {A : Type} (p : prog A) :
  (forall s c, P s c -> Q s c) -> sends P p -> sends Q p.
Proof.
  intros HPQ H. induction H; constructor; auto.
Qed.

Lemma sends_bind (P : string -> command -> Prop) {A B : Type}
  (p : prog A) (f : A -> prog B) :
  sends P p -> (forall a, sends P (f a)) -> sends P (prog_bind p f).
Proof.
  intros Hp Hf. induction Hp; simpl; try constructor; auto.
Qed.

Lemma sends_catch (P : string -> command -> Prop) {A : Type}
  (p : prog A) handler :
  sends P p -> (forall e, sends P (handler e)) -> sends P (try_catch p handler).
Proof.
  intros Hp Hh. induction Hp; simpl; try constructor; auto.
Qed.

Lemma sends_runSSHCommand (P : string -> command -> Prop) s c :
  P s c -> sends P (runSSHCommand s c).
Proof.
  intros H. constructor; [exact H|]. intros [o|e]; constructor.
Qed.

Lemma sends_log (P : string -> command -> Prop) l : sends P (log l).
Proof. repeat constructor. Qed.

Lemma sends_for_each (P : string -> command -> Prop) {X : Type}
  (xs : list X) body :
  (forall x, In x xs -> sends P (body x)) -> sends P (for_each xs body).
Proof.
  induction xs as [|x rest IH]; intros H; simpl.
  - constructor.
  - apply sends_bind.
    + apply H. left. reflexivity.
    + intros _. apply IH. intros y Hy. apply H. right. exact Hy.
Qed.

Lemma sends_settle_all (P : string -> command -> Prop) tasks :
  (forall t, In t tasks -> sends P t) -> sends P (settle_all tasks).
Proof.
  induction tasks as [|t rest IH]; intros H; simpl.
  - constructor.
  - apply sends_bind.
    + apply sends_catch.
      * apply sends_bind; [apply H; left; reflexivity|]. intros; constructor.
      * intros; constructor.
    + intros r. apply sends_bind.
      * apply IH. intros t' Ht'. apply H. right. exact Ht'.
      * intros; constructor.
Qed.

Lemma sends_promise_all (P : string -> command -> Prop) tasks :
  (forall t, In t tasks -> sends P t) -> sends P (promise_all tasks).
Proof.
  intros H. unfold promise_all. unfold_monad. apply sends_bind.
  - apply sends_settle_all. exact H.
  - intros rs. destruct (first_rejection rs); constructor.
Qed.

Lemma sends_trace (P : string -> command -> Prop) {S A : Type}
  (h : host S) (p : prog A) st :
  sends P p -> all_commands P (trace (exec h p st)).
Proof.
  intros H. revert st. unfold all_commands, trace.
  induction H as [a|e|s c k HP Hk IH|l k Hk IH]; intros st; simpl.
  - constructor.
  - constructor.
  - destruct (respond h st s c) as [st1 r]. specialize (IH r st1).
    destruct (exec h (k r) st1) as [[st2 tr] o]. simpl in *.
    constructor; assumption.
  - specialize (IH st). destruct (exec h k st) as [[st2 tr] o]. simpl in *.
    constructor; [exact I | assumption].
Qed.

Lemma never_fails_exec {S A : Type} (h : host S) (p : prog A) st :
  never_fails p -> exists a, result (exec h p st) = Fulfilled a.
Proof.
  intros H. revert st. unfold result.
  induction H as [a|s c k Hk IH|l k Hk IH]; intros st; simpl.
  - exists a. reflexivity.
  - destruct (respond h st s c) as [st1 r]. destruct (IH r st1) as [a Ha].
    destruct (exec h (k r) st1) as [[st2 tr] o]. simpl in *. eauto.
  - destruct (IH st) as [a Ha].
    destruct (exec h k st) as [[st2 tr] o]. simpl in *. eauto.
Qed.

Lemma never_fails_bind {A B : Type} (p : prog A) (f : A -> prog B) :
  never_fails p -> (forall a, never_fails (f a)) -> never_fails (prog_bind p f).
Proof.
  intros Hp Hf. induction Hp; simpl; try constructor; auto.
Qed.

Lemma never_fails_catch {A : Type} (p : prog A) handler :
  (forall e, never_fails (handler e)) -> never_fails (try_catch p handler).
Proof.
  intros Hh. induction p; simpl; try constructor; auto.
Qed.

(* ===================================================================== *)
(** * Configuration validation (C7) *)
(* ===================================================================== *)

Lemma append_assoc (a b c : string) : ((a ++ b) ++ c = a ++ (b ++ c))%string.
Proof.
  induction a as [|x a IH]; simpl; [reflexivity | rewrite IH; reflexivity].
Qed.

Lemma under_server_base (serverName field : string) :
  ("app.servers." ++ serverName ++ ".multiCore") ++ field
  = under_server serverName ("multiCore" ++ field).
Proof.
  unfold under_server. rewrite !append_assoc. reflexivity.
Qed.

(** The three checks on the fields of one block, for given field values and
    paths: the shape both validators share. *)
Lemma global_checks (config : value) (fields : list (string * value)) :
  get config "multiCore" = VObj fields ->
  Validate.multiCore config =
    ((if instances_accepted (get (VObj fields) "instances") then []
      else [Detail (match get (VObj fields) "instances" with
                    | VStr _ => msg_instances_string
                    | VNum _ => msg_instances_min
                    | _ => msg_instances_type
                    end) "multiCore.instances"])
     ++ (if startingPort_accepted (get (VObj fields) "startingPort") then []
         else [Detail (match get (VObj fields) "startingPort" with
                       | VNum _ => msg_port_range
                       | _ => msg_port_type
                       end) "multiCore.startingPort"])
     ++ (if useNginx_accepted (get (VObj fields) "useNginx") then []
         else [Detail msg_nginx_type "multiCore.useNginx"]))%list.
Proof.
  intros H. unfold Validate.multiCore. rewrite H.
  cbn [truthy negb].
  generalize (get (VObj fields) "instances") as vi.
  generalize (get (VObj fields) "startingPort") as vp.
  generalize (get (VObj fields) "useNginx") as vn.
  intros vn vp vi. f_equal; [|f_equal].
  - destruct vi as [| |b|n|s|fs]; try reflexivity.
    + cbn [is_undefined negb typeof jstype_eqb andb val_lt is_auto
           instances_accepted].
      destruct (num_lt n (of_Z 1)); reflexivity.
    + cbn. destruct (String.eqb s "auto"); reflexivity.
  - destruct vp as [| |b|n|s|fs]; try reflexivity.
    cbn [is_undefined negb typeof jstype_eqb andb val_lt val_gt
         startingPort_accepted].
    destruct (num_lt n (of_Z 1024)), (num_gt n (of_Z 65535)); reflexivity.
  - destruct vn as [| |b|n|s|fs]; reflexivity.
Qed.

Lemma server_checks (servers : value) (serverName : string)
  (fields : list (string * value)) :
  get (get servers serverName) "multiCore" = VObj fields ->
  Validate.server_entry servers serverName =
    ((if instances_accepted (get (VObj fields) "instances") then []
      else [Detail (match get (VObj fields) "instances" with
                    | VStr _ => msg_instances_string
                    | VNum _ => msg_instances_min
                    | _ => msg_instances_type
                    end) (under_server serverName "multiCore.instances")])
     ++ (if startingPort_accepted (get (VObj fields) "startingPort") then []
         else [Detail (match get (VObj fields) "startingPort" with
                       | VNum _ => msg_port_range
                       | _ => msg_port_type
                       end) (under_server serverName "multiCore.startingPort")])
     ++ (if useNginx_accepted (get (VObj fields) "useNginx") then []
         else [Detail msg_nginx_type
                 (under_server serverName "multiCore.useNginx")]))%list.
Proof.
  intros H. unfold Validate.server_entry. rewrite H.
  assert (Ht : truthy (get servers serverName) = true).
  { destruct (get servers serverName) as [| |b|n|s|fs]; try discriminate H.
    reflexivity. }
  rewrite Ht. cbn [truthy andb typeof jstype_eqb negb].
  rewrite !under_server_base.
  change ("multiCore" ++ ".instances")%string with "multiCore.instances".
  change ("multiCore" ++ ".startingPort")%string with "multiCore.startingPort".
  change ("multiCore" ++ ".useNginx")%string with "multiCore.useNginx".
  generalize (under_server serverName "multiCore.instances") as pi.
  generalize (under_server serverName "multiCore.startingPort") as pp.
  generalize (under_server serverName "multiCore.useNginx") as pn.
  generalize (get (VObj fields) "instances") as vi.
  generalize (get (VObj fields) "startingPort") as vp.
  generalize (get (VObj fields) "useNginx") as vn.
  intros vn vp vi pn pp pi. f_equal; [|f_equal].
  - destruct vi as [| |b|n|s|fs]; try reflexivity.
    + cbn [is_undefined negb typeof jstype_eqb andb val_lt is_auto
           instances_accepted].
      destruct (num_lt n (of_Z 1)); reflexivity.
    + cbn. destruct (String.eqb s "auto"); reflexivity.
  - destruct vp as [| |b|n|s|fs]; try reflexivity.
    cbn [is_undefined negb typeof jstype_eqb andb val_lt val_gt
         startingPort_accepted].
    destruct (num_lt n (of_Z 1024)), (num_gt n (of_Z 65535)); reflexivity.
  - destruct vn as [| |b|n|s|fs]; reflexivity.
Qed.

(** A per-server block that is not an object gets the one extra entry of
    the per-server validator. *)
Lemma server_block_not_object (servers : value) (serverName : string) :
  truthy (get (get servers serverName) "multiCore") = true ->
  typeof (get (get servers serverName) "multiCore") <> TObject ->
  Validate.server_entry servers serverName =
    [Detail msg_not_object
       ("app.servers." ++ serverName ++ ".multiCore")].
Proof.
  intros Ht Hty. unfold Validate.server_entry.
  assert (Hs : truthy (get servers serverName) = true).
  { destruct (get servers serverName) as [| |b|n|s|fs]; try discriminate Ht.
    reflexivity. }
  rewrite Hs, Ht. cbn [andb].
  destruct (get (get servers serverName) "multiCore") as [| |b|n|s|fs];
    try reflexivity; try discriminate Ht.
  exfalso. apply Hty. reflexivity.
Qed.

(** C7, the claim as stated, fails: a fractional instance count is neither
    ["auto"] nor an integer, and the validator does not flag it. *)
Lemma fractional_instances_not_flagged :
  ~ flags_instances_unless_specified config_fraction.
Proof.
  unfold flags_instances_unless_specified. intros H.
  destruct H as [d [Hin _]].
  - discriminate.
  - intros [Habs | [n [z [Hn [Hz Hle]]]]].
    + discriminate Habs.
    + cbn in Hn. injection Hn as <-. cbn in Hz. unfold Qeq in Hz. cbn in Hz. lia.
  - cbn in Hin. exact Hin.
Qed.

(** C7 (amended): both validators return [{message, path}] entries; a
    defined [instances] is flagged unless it is ["auto"] or a number that is
    not below 1, a defined [startingPort] unless it is a number neither below
    1024 nor above 65535, a defined [useNginx] unless it is a boolean; no
    other path is flagged; and the per-server validator produces, for the
    same block, the same messages at the same paths moved under
    [app.servers.<name>]. *)
Theorem validation_rules (config servers : value) (serverName : string)
  (fields : list (string * value)) :
  get config "multiCore" = VObj fields ->
  get (get servers serverName) "multiCore" = VObj fields ->
  let block := VObj fields in
  let global := Validate.multiCore config in
  let local := Validate.server_entry servers serverName in
  flagged "multiCore.instances" global
    = negb (instances_accepted (get block "instances")) /\
  flagged "multiCore.startingPort" global
    = negb (startingPort_accepted (get block "startingPort")) /\
  flagged "multiCore.useNginx" global
    = negb (useNginx_accepted (get block "useNginx")) /\
  (forall d, In d global ->
     path d = "multiCore.instances" \/ path d = "multiCore.startingPort"
     \/ path d = "multiCore.useNginx") /\
  map message local = map message global /\
  map path local = map (under_server serverName) (map path global).
Proof.
  intros Hg Hl block global local. subst global local.
  rewrite (global_checks config Hg), (server_checks servers serverName Hl).
  fold block.
  destruct (instances_accepted (get block "instances"));
    destruct (startingPort_accepted (get block "startingPort"));
    destruct (useNginx_accepted (get block "useNginx"));
    cbn; repeat split; try reflexivity; intros d Hd;
    repeat (destruct Hd as [<- | Hd]; [cbn; tauto|]); contradiction.
Qed.

Lemma validation_rules_witness :
  flagged "multiCore.instances" (Validate.multiCore config_invalid) = true /\
  map message (Validate.server_entry servers_invalid "web1")
    = map message (Validate.multiCore config_invalid).
Proof.
  pose proof (@validation_rules config_invalid servers_invalid "web1"
                block_invalid eq_refl eq_refl) as H.
  cbv zeta in H. destruct H as [Hi [_ [_ [_ [Hm _]]]]].
  split; [rewrite Hi; reflexivity | exact Hm].
Defined.

(** The per-server validator is the per-server check of every key of
    [app.servers]. *)
Lemma app_servers_unfold (config : value) :
  truthy (get (get config "app") "servers") = true ->
  Validate.app_servers config =
    flat_map (Validate.server_entry (get (get config "app") "servers"))
      (keys (get (get config "app") "servers")).
Proof.
  intros H. unfold Validate.app_servers. rewrite H.
  assert (Ha : truthy (get config "app") = true).
  { destruct (get config "app") as [| |b|n|s|fs]; try discriminate H.
    reflexivity. }
  rewrite Ha. reflexivity.
Qed.

(* ===================================================================== *)
(** * Effective settings (C1) *)
(* ===================================================================== *)

(** The rule the three resolution functions implement: the first truthy
    value among the per-server one and the global one, else the default. *)
Lemma js_or_chain {A : Type} `{Truthy A} (a b : option A) (d : A) :
  js_or_default (js_or a b) d =
  match a with
  | Some x =>
      if is_truthy x then x
      else match b with
           | Some y => if is_truthy y then y else d
           | None => d
           end
  | None =>
      match b with
      | Some y => if is_truthy y then y else d
      | None => d
      end
  end.
Proof.
  unfold js_or_default, js_or.
  destruct a as [x|]; [destruct (is_truthy x) eqn:Hx|]; try reflexivity.
  rewrite Hx. reflexivity.
Qed.

(** X9: a truthy per-server value wins, for each field: when the table
    filled by [prepareConfig] has a block for the server, a truthy
    [instances], [startingPort] or [useNginx] of that block is the value
    resolved, whatever the global block says. *)
Lemma per_server_truthy_wins (serverConfigs : server_table) (config : Config)
  (serverName : string) (block : MultiCore) :
  assoc serverName serverConfigs = Some block ->
  (forall i, instances block = Some i -> is_truthy i = true ->
             getInstanceCount serverConfigs config serverName = i) /\
  (forall p, startingPort block = Some p -> is_truthy p = true ->
             getStartingPort serverConfigs config serverName = p) /\
  (forall b, useNginx block = Some b -> is_truthy b = true ->
             shouldUseNginx serverConfigs config serverName = b).
Proof.
  intros Hs. unfold getInstanceCount, getStartingPort, shouldUseNginx.
  rewrite Hs. cbn [opt_field].
  repeat split; intros x Hx Ht; rewrite js_or_chain, Hx, Ht; reflexivity.
Qed.

(** With no per-server value and no global value the defaults apply. *)
Lemma defaults_when_absent (serverConfigs : server_table) (config : Config)
  (serverName : string) :
  assoc serverName serverConfigs = None ->
  cfg_multiCore config = None ->
  getInstanceCount serverConfigs config serverName = Auto /\
  getStartingPort serverConfigs config serverName = of_Z 3001 /\
  shouldUseNginx serverConfigs config serverName = false.
Proof.
  intros Hs Hg. unfold getInstanceCount, getStartingPort, shouldUseNginx.
  rewrite Hs, Hg. repeat split.
Qed.

(** C1 at the failing configuration: [worker1] sets [useNginx: false], the
    global block sets [useNginx: true], and [shouldUseNginx] answers [true]
    for [worker1]: the per-server value is defined and does not win. *)
Theorem per_server_false_does_not_win :
  let '(serverConfigs, config) := prepareConfig [] config_mixed in
  opt_field useNginx (assoc "worker1" serverConfigs) = Some false /\
  opt_field useNginx (cfg_multiCore config) = Some true /\
  shouldUseNginx serverConfigs config "worker1" = true.
Proof.
  repeat split.
Qed.

(* ===================================================================== *)
(** * Core detection (C2) *)
(* ===================================================================== *)

(** When the probe is rejected, [detectCores] logs the warning and returns
    2. *)
Lemma detectCores_rejected {S : Type} (h : host S) (st st1 : S)
  (serverName e : string) :
  respond h st serverName Nproc = (st1, Rejected e) ->
  exec h (detectCores serverName) st =
    (st1, [Ran serverName Nproc (Rejected e);
           Logged (LogCoresFallback serverName)], Fulfilled (of_Z 2)).
Proof.
  intros H. unfold detectCores. unfold_monad. simpl. rewrite H. reflexivity.
Qed.

(** When the probe answers, the answer is parsed and returned as it is, with
    no warning. *)
Lemma detectCores_answered {S : Type} (h : host S) (st st1 : S)
  (serverName out : string) :
  respond h st serverName Nproc = (st1, Output out) ->
  exec h (detectCores serverName) st =
    (st1, [Ran serverName Nproc (Output out)], Fulfilled (parseInt (trim out))).
Proof.
  intros H. unfold detectCores. unfold_monad. simpl. rewrite H. reflexivity.
Qed.

Lemma detectCores_never_fails (serverName : string) :
  never_fails (detectCores serverName).
Proof.
  unfold detectCores. unfold_monad. simpl. constructor.
  intros [o|e]; simpl; repeat constructor.
Qed.

(** C2 at the failing input: the probe of [worker1] comes back with output
    that is not a number; [detectCores] returns [NaN], which is not the
    fallback 2, and logs no warning. *)
Theorem detectCores_unparseable_output :
  let run := exec host_without_nproc (detectCores "worker1") tt in
  trace run = [Ran "worker1" Nproc (Output "bash: nproc: command not found")]
  /\ result run = Fulfilled NaN
  /\ result run <> Fulfilled (of_Z 2)
  /\ ~ In (LogCoresFallback "worker1") (logged (trace run)).
Proof.
  cbv zeta.
  rewrite (@detectCores_answered _ host_without_nproc tt tt "worker1"
             "bash: nproc: command not found" eq_refl).
  cbn [trace result fst snd logged flat_map app].
  split; [reflexivity|]. split; [reflexivity|]. split.
  - intros H. discriminate H.
  - intros H. exact H.
Qed.

(* ===================================================================== *)
(** * What each operation can send *)
(* ===================================================================== *)

Ltac sends_step :=
  unfold_monad;
  match goal with
  | |- sends _ (prog_bind _ _) => apply sends_bind; [|intros]
  | |- sends _ (try_catch _ _) => apply sends_catch; [|intros]
  | |- sends _ (runSSHCommand _ _) => apply sends_runSSHCommand
  | |- sends _ (log _) => apply sends_log
  | |- sends _ (Ret _) => constructor
  | |- sends _ (Raise _) => constructor
  | |- sends _ (Log _ _) => constructor
  | |- sends _ (if ?b then _ else _) => destruct b eqn:?
  end.

Lemma sends_detectCores (P : string -> command -> Prop) (serverName : string) :
  P serverName Nproc -> sends P (detectCores serverName).
Proof.
  intros H. unfold detectCores. repeat sends_step. exact H.
Qed.

Lemma sends_resolveCores (P : string -> command -> Prop) serverName i :
  P serverName Nproc -> sends P (resolveCores serverName i).
Proof.
  intros H. destruct i; simpl.
  - apply sends_detectCores. exact H.
  - constructor.
Qed.

Lemma sends_fallbackCleanup (serverName appName : string)
  (appPort startingPort cores : number) :
  sends (reconcile_command serverName appName appPort startingPort cores)
    (fallbackCleanup serverName appName).
Proof.
  unfold fallbackCleanup. apply sends_for_each. intros i Hi.
  repeat sends_step; (split; [reflexivity|]);
    do 4 right; left; exists i; split; auto.
Qed.

Lemma sends_startSlot (serverName appName : string)
  (appPort startingPort cores : number) (actualImage : string) (i : Z) :
  In i (worker_slots cores) ->
  sends (reconcile_command serverName appName appPort startingPort cores)
    (startSlot serverName appName appPort startingPort actualImage i).
Proof.
  intros Hi. unfold startSlot. cbv zeta.
  repeat sends_step; (split; [reflexivity|]);
    do 5 right; left; exists i, actualImage; split; auto.
Qed.

Lemma sends_reconcile (serverName appName : string)
  (appPort startingPort cores : number) :
  sends (reconcile_command serverName appName appPort startingPort cores)
    (reconcile serverName appName appPort startingPort cores).
Proof.
  unfold reconcile, cleanupSingleCore, cleanupBeforeStart, startSlots.
  cbv zeta.
  repeat first
    [ apply sends_fallbackCleanup
    | apply sends_for_each; intros
    | apply sends_startSlot; assumption
    | sends_step ];
    try (split; [reflexivity|]); auto 8.
Qed.

Lemma sends_startWorkersOn (serverConfigs : server_table) (config : Config)
  (appName serverName : string) :
  sends (fun s c => s = serverName
                    /\ start_command serverConfigs config appName s c)
    (startWorkersOn serverConfigs config appName serverName).
Proof.
  unfold startWorkersOn. cbv zeta. unfold_monad. apply sends_bind.
  - apply sends_resolveCores. split; [reflexivity | left; reflexivity].
  - intros cores. eapply sends_weaken; [|apply sends_reconcile].
    intros s c H. cbv beta. split; [apply H|]. right. exists cores.
    destruct H as [-> H]. split; [reflexivity | exact H].
Qed.

Lemma sends_startWorkerContainers (serverConfigs : server_table) (api : Api)
  (a : App) :
  cfg_app (getConfig api) = Some a ->
  sends (fun s c =>
           In s (map fst (getFilteredServers a (getOptions api)))
           /\ start_command serverConfigs (getConfig api) (app_name a) s c)
    (startWorkerContainers serverConfigs api).
Proof.
  intros Ha. unfold startWorkerContainers. cbv zeta. rewrite Ha.
  unfold_monad. apply sends_bind; [apply sends_log|]. intros _.
  apply sends_promise_all. intros t Ht. apply in_map_iff in Ht.
  destruct Ht as [s [<- Hs]].
  eapply sends_weaken; [|apply sends_startWorkersOn].
  intros s' c [-> H]. split; assumption.
Qed.

Lemma sends_stopWorkerContainers (api : Api) (a : App) :
  cfg_app (getConfig api) = Some a ->
  sends (fun s c =>
           In s (map fst (getFilteredServers a (getOptions api)))
           /\ stop_command (app_name a) c)
    (stopWorkerContainers api).
Proof.
  intros Ha. unfold stopWorkerContainers. cbv zeta. rewrite Ha.
  unfold_monad. apply sends_bind; [apply sends_log|]. intros _.
  apply sends_promise_all. intros t Ht. apply in_map_iff in Ht.
  destruct Ht as [s [<- Hs]]. unfold stopWorkersOn, stop_command.
  repeat sends_step; split; auto.
Qed.

Lemma sends_restartWorkerContainers (serverConfigs : server_table) (api : Api)
  (a : App) :
  cfg_app (getConfig api) = Some a ->
  sends (fun s c =>
           In s (map fst (getFilteredServers a (getOptions api)))
           /\ restart_command serverConfigs (getConfig api) (app_name a) s c)
    (restartWorkerContainers serverConfigs api).
Proof.
  intros Ha. unfold restartWorkerContainers. cbv zeta. rewrite Ha.
  unfold_monad. apply sends_bind; [apply sends_log|]. intros _.
  apply sends_promise_all. intros t Ht. apply in_map_iff in Ht.
  destruct Ht as [s [<- Hs]]. unfold restartWorkersOn. unfold_monad.
  apply sends_bind.
  - unfold restartOrStart, restart_command. repeat sends_step; split; auto.
  - intros [|]; [|constructor].
    eapply sends_weaken; [|apply sends_startWorkerContainers; exact Ha].
    intros s' c [Hin H]. split; [exact Hin|]. right. right. exact H.
Qed.

(* ===================================================================== *)
(** * Strings: lengths, prefixes and decimal numerals *)
(* ===================================================================== *)

Lemma length_append (a b : string) :
  String.length (a ++ b) = (String.length a + String.length b)%nat.
Proof.
  induction a as [|x a IH]; simpl; [reflexivity | rewrite IH; reflexivity].
Qed.

Lemma prefix_length (a b : string) :
  String.prefix a b = true -> (String.length a <= String.length b)%nat.
Proof.
  revert a. induction b as [|y b IH]; intros [|x a]; simpl; intros H;
    try lia; try discriminate.
  destruct (ascii_dec x y); [|discriminate]. apply IH in H. lia.
Qed.

Lemma prefix_append (a b : string) : String.prefix a (a ++ b) = true.
Proof.
  induction a as [|x a IH]; simpl.
  - destruct b; reflexivity.
  - destruct (ascii_dec x x); [exact IH | congruence].
Qed.

Lemma includes_length (haystack needle : string) :
  includes haystack needle = true ->
  (String.length needle <= String.length haystack)%nat.
Proof.
  induction haystack as [|x hs IH]; intros H.
  - cbn [includes] in H. rewrite orb_false_r in H.
    apply prefix_length in H. exact H.
  - cbn [includes] in H. apply orb_true_iff in H. destruct H as [H|H].
    + apply prefix_length in H. exact H.
    + apply IH in H. simpl. lia.
Qed.

Lemma includes_prefix (a b : string) : includes (a ++ b) a = true.
Proof.
  destruct (a ++ b)%string eqn:E; cbn [includes]; rewrite <- E;
    rewrite prefix_append; reflexivity.
Qed.

(** The worker filter lists every worker slot name. *)
Lemma filter_matches_worker_name (appName : string) (i : Z) :
  filter_matches (worker_filter appName) (worker_name appName i) = true.
Proof.
  unfold filter_matches, worker_filter, worker_name.
  change "-worker-" with ("-worker" ++ "-")%string.
  rewrite <- !append_assoc. rewrite append_assoc. apply includes_prefix.
Qed.

(** The worker filter does not list the primary. *)
Lemma filter_misses_primary (appName : string) :
  filter_matches (worker_filter appName) appName = false.
Proof.
  unfold filter_matches, worker_filter.
  destruct (includes appName (appName ++ "-worker")) eqn:E; [|reflexivity].
  apply includes_length in E. rewrite length_append in E. simpl in E. lia.
Qed.

(** No worker slot is named like the primary. *)
Lemma worker_name_not_primary (appName : string) (i : Z) :
  String.eqb (worker_name appName i) appName = false.
Proof.
  apply String.eqb_neq. intros E.
  apply (f_equal String.length) in E. unfold worker_name in E.
  rewrite length_append in E. simpl in E. lia.
Qed.

(* ===================================================================== *)
(** * The primary is never targeted (C5) *)
(* ===================================================================== *)

Lemma reconcile_command_safe (serverName appName : string)
  (appPort startingPort cores : number) (s : string) (c : command) :
  reconcile_command serverName appName appPort startingPort cores s c ->
  primary_safe appName c.
Proof.
  intros [_ H]. unfold primary_safe, touches.
  destruct H as [->|[->|[->|[->|[[i [_ [->| ->]]]|[[i [img [_ H]]]| ->]]]]]];
    [| | | | | | destruct H as [->|[->|[->| ->]]] | ]; cbn;
    rewrite ?filter_misses_primary, ?worker_name_not_primary;
    (split; [reflexivity|]); intros act t E; try discriminate E;
    injection E as <- <-; eauto.
Qed.

Lemma start_command_safe (serverConfigs : server_table) (config : Config)
  (appName s : string) (c : command) :
  start_command serverConfigs config appName s c -> primary_safe appName c.
Proof.
  intros [->|[cores H]].
  - split; [reflexivity | discriminate].
  - eapply reconcile_command_safe. exact H.
Qed.

Lemma stop_command_safe (appName : string) (c : command) :
  stop_command appName c -> primary_safe appName c.
Proof.
  unfold primary_safe, touches.
  intros [->|[->| ->]]; cbn; rewrite ?filter_misses_primary;
    (split; [reflexivity|]); intros act t E; try discriminate E;
    injection E as <- <-; eauto.
Qed.

Lemma restart_command_safe (serverConfigs : server_table) (config : Config)
  (appName s : string) (c : command) :
  restart_command serverConfigs config appName s c -> primary_safe appName c.
Proof.
  intros [->|[->|H]]; [| |eapply start_command_safe; exact H];
    unfold primary_safe, touches; cbn; rewrite ?filter_misses_primary;
    (split; [reflexivity|]); intros act t E; try discriminate E;
    injection E as <- <-; eauto.
Qed.

Lemma worker_scoped_of_safe (appName : string) (c : command) :
  primary_safe appName c -> worker_scoped appName c.
Proof.
  intros Hs. split; [exact Hs|]. destruct Hs as [Hp Hd]. split.
  - intros act n E. destruct (Hd act (ByName n) E) as [Ef|[i Ei]];
      [discriminate Ef|].
    injection Ei as ->. split; [exists i; reflexivity|].
    unfold matches_worker_pattern, worker_name.
    rewrite <- append_assoc. apply prefix_append.
  - intros containerName Ht. split.
    + unfold touches in Ht. destruct (mutation c) as [[act t]|] eqn:E;
        [|discriminate Ht].
      destruct (Hd act t eq_refl) as [->|[i ->]].
      * exact Ht.
      * apply String.eqb_eq in Ht. subst containerName.
        apply filter_matches_worker_name.
    + intros ->. congruence.
Qed.

(** C5 (amended): whatever the hosts answer, every command sent by starting
    (reconciling), stopping or restarting the workers leaves the primary
    alone: no create, stop, remove or restart touches the container named
    [appName], by name or through the name filter.  What a command
    designates by name (every create, and the stop and remove of the
    fallback) is a slot name [appName-worker-i]; the filter-wide stop,
    remove and restart designate Docker's name filter [appName-worker], so
    a container they touch has a name that contains [appName-worker], not
    necessarily one that starts with it. *)
Theorem primary_never_targeted (serverConfigs : server_table) (api : Api)
  (a : App) {S : Type} (h : host S) (st : S) :
  cfg_app (getConfig api) = Some a ->
  all_commands (fun _ c => worker_scoped (app_name a) c)
    (trace (exec h (startWorkerContainers serverConfigs api) st)) /\
  all_commands (fun _ c => worker_scoped (app_name a) c)
    (trace (exec h (stopWorkerContainers api) st)) /\
  all_commands (fun _ c => worker_scoped (app_name a) c)
    (trace (exec h (restartWorkerContainers serverConfigs api) st)).
Proof.
  intros Ha. repeat split; apply sends_trace.
  - eapply sends_weaken; [|apply sends_startWorkerContainers; exact Ha].
    intros s c [_ H]. apply worker_scoped_of_safe.
    eapply start_command_safe. exact H.
  - eapply sends_weaken; [|apply sends_stopWorkerContainers; exact Ha].
    intros s c [_ H]. apply worker_scoped_of_safe.
    apply stop_command_safe. exact H.
  - eapply sends_weaken; [|apply sends_restartWorkerContainers; exact Ha].
    intros s c [_ H]. apply worker_scoped_of_safe.
    eapply restart_command_safe. exact H.
Qed.

Lemma primary_never_targeted_witness :
  all_commands (fun _ c => worker_scoped "myapp" c)
    (trace (exec Docker.docker_host (restartWorkerContainers [] api_two)
              docker_primary_only)).
Proof.
  exact (proj2 (proj2 (@primary_never_targeted [] api_two _ _
                         Docker.docker_host docker_primary_only eq_refl))).
Defined.

(** C5, the second half as stated, fails: stopping the workers of the
    application [app] sends the filter-wide stop for [app-worker], and
    Docker's name filter also lists [myapp-worker-1], whose name does not
    have the form [app-worker-...]. *)
Lemma filter_reaches_other_application :
  ~ touches_only_worker_names Docker.docker_host docker_two_apps
      (stopWorkerContainers api_app) "app".
Proof.
  intros H.
  specialize (H "web1" (StopWorkers false false "app") (Output "")
                "myapp-worker-1").
  assert (E : matches_worker_pattern "app" "myapp-worker-1" = true).
  { apply H; [|reflexivity]. vm_compute. auto. }
  discriminate E.
Qed.

(** On the Docker host that worker of the other application is gone after
    the stop. *)
Example other_application_loses_its_worker :
  map Docker.c_name
    (Docker.containers
       (final_state (exec Docker.docker_host (stopWorkerContainers api_app)
                       docker_two_apps)))
  = ["app"; "myapp"].
Proof. vm_compute. reflexivity. Qed.

(* ===================================================================== *)
(** * Nginx is configured only where it is enabled (C8) *)
(* ===================================================================== *)

Lemma start_command_not_nginx (serverConfigs : server_table) (config : Config)
  (appName s : string) (c : command) :
  start_command serverConfigs config appName s c -> is_nginx c = false.
Proof.
  intros [->|[cores [_ H]]]; [reflexivity|].
  destruct H as [->|[->|[->|[->|[[i [_ [->| ->]]]|[[i [img [_ H]]]| ->]]]]]];
    try reflexivity.
  destruct H as [->|[->|[->| ->]]]; reflexivity.
Qed.

Lemma sends_updateNginxOn (serverConfigs : server_table) (config : Config)
  (appName serverName : string) :
  sends (fun s c => s = serverName
                    /\ shouldUseNginx serverConfigs config s = true)
    (updateNginxOn serverConfigs config appName serverName).
Proof.
  unfold updateNginxOn. cbv zeta.
  destruct (shouldUseNginx serverConfigs config serverName) eqn:E;
    cbn [negb]; [|apply sends_log].
  unfold_monad. apply sends_bind.
  - apply sends_resolveCores. auto.
  - intros cores. repeat sends_step; auto.
Qed.

(** C8 at the failing configuration (the one of C1): [worker1] sets
    [useNginx: false] for itself, the global block sets [useNginx: true],
    and [updateMupNginx] does not skip [worker1]: the core probe and the
    five nginx commands are sent to it, in the nginx update of the deploy
    hook as well. *)
Theorem nginx_applied_where_switched_off :
  let '(serverConfigs, config) := prepareConfig [] config_mixed in
  let api := mkApi config NoFilter in
  let to_worker1 := fun p : prog unit =>
    filter (fun sc => String.eqb (fst sc) "worker1")
      (commands (trace (exec Docker.docker_host p docker_primary_only))) in
  opt_field useNginx (assoc "worker1" serverConfigs) = Some false
  /\ to_worker1 (updateMupNginx serverConfigs api)
     = [("worker1", Nproc);
        ("worker1", NginxBackupEnv "myapp");
        ("worker1",
         NginxWriteUpstream "myapp" (of_Z 3000)
           [of_Z 3001; of_Z 3002; of_Z 3003]);
        ("worker1", NginxPatchSite (of_Z 3000));
        ("worker1", NginxInsertUpstream "myapp");
        ("worker1", NginxReload)]
  /\ filter (fun sc => is_nginx (snd sc))
       (to_worker1 (Hooks.post_default_deploy serverConfigs api))
     = [("worker1", NginxBackupEnv "myapp");
        ("worker1",
         NginxWriteUpstream "myapp" (of_Z 3000)
           [of_Z 3001; of_Z 3002; of_Z 3003]);
        ("worker1", NginxPatchSite (of_Z 3000));
        ("worker1", NginxInsertUpstream "myapp");
        ("worker1", NginxReload)].
Proof.
  vm_compute. repeat split.
Qed.

(* ===================================================================== *)
(** * Restart with an empty inventory starts every server (C10) *)
(* ===================================================================== *)











(* ===================================================================== *)
(** * The slot loop *)
(* ===================================================================== *)

Lemma num_lt_of_Z (i c : Z) : num_lt (of_Z i) (of_Z c) = (i <? c).
Proof.
  unfold num_lt, of_Z.
  destruct (Qle_bool (inject_Z c) (inject_Z i)) eqn:E; simpl; symmetry.
  - apply Qle_bool_iff in E. rewrite <- Zle_Qle in E. apply Z.ltb_ge. exact E.
  - apply Z.ltb_lt. apply Z.nle_gt. intros H. rewrite Zle_Qle in H.
    apply Qle_bool_iff in H. congruence.
Qed.

Lemma num_le_of_Z (i c : Z) : num_le (of_Z i) (of_Z c) = (i <=? c).
Proof.
  unfold num_le, of_Z.
  destruct (Qle_bool (inject_Z i) (inject_Z c)) eqn:E; symmetry.
  - apply Qle_bool_iff in E. rewrite <- Zle_Qle in E. apply Z.leb_le. exact E.
  - apply Z.leb_gt. apply Z.nle_gt. intros H. rewrite Zle_Qle in H.
    apply Qle_bool_iff in H. congruence.
Qed.

Lemma num_lt_Fin (i : Z) (q : Q) :
  num_lt (of_Z i) (Fin q) = true <-> (inject_Z i < q)%Q.
Proof.
  unfold num_lt, of_Z. rewrite negb_true_iff. split; intros H.
  - apply Qnot_le_lt. intros Hle. apply Qle_bool_iff in Hle. congruence.
  - destruct (Qle_bool q (inject_Z i)) eqn:E; [|reflexivity].
    apply Qle_bool_iff in E. exfalso. exact (Qlt_not_le _ _ H E).
Qed.

(** The values a [for] loop goes through: those from the start on for which
    the condition has held all along. *)
Lemma for_indices_spec (fuel : nat) (start : Z) (cond : Z -> bool) (i : Z) :
  In i (for_indices fuel start cond) <->
  start <= i < start + Z.of_nat fuel
  /\ forall k, start <= k <= i -> cond k = true.
Proof.
  revert start. induction fuel as [|n IH]; intros start.
  - simpl. split; [contradiction | lia].
  - cbn [for_indices]. destruct (cond start) eqn:E.
    + cbn [In]. rewrite IH. split.
      * intros [<-|[Hr Hc]].
        -- split; [lia|]. intros k Hk. replace k with start by lia. exact E.
        -- split; [lia|]. intros k Hk.
           destruct (Z.eq_dec k start) as [->|Hne]; [exact E|].
           apply Hc. lia.
      * intros [Hr Hc]. destruct (Z.eq_dec start i) as [->|Hne]; [left; reflexivity|].
        right. split; [lia|]. intros k Hk. apply Hc. lia.
    + split; [contradiction|]. intros [Hr Hc].
      rewrite Hc in E by lia. discriminate.
Qed.

Lemma for_indices_all (fuel : nat) (start : Z) (cond : Z -> bool) :
  (forall k, start <= k < start + Z.of_nat fuel -> cond k = true) ->
  for_indices fuel start cond
  = map (fun j => start + Z.of_nat j) (seq 0 fuel).
Proof.
  revert start. induction fuel as [|n IH]; intros start H; [reflexivity|].
  cbn [for_indices]. rewrite H by lia. cbn [seq map]. f_equal.
  - lia.
  - rewrite IH by (intros k Hk; apply H; lia).
    rewrite <- seq_shift, map_map. apply map_ext. intros j. lia.
Qed.

(** The creation loop runs for exactly the integers from 1 that are below
    [cores]: the iteration bound of the model never cuts it short. *)
(** A loop whose condition holds for [n] values and fails at the next one
    runs for exactly those [n] values, whatever the remaining bound. *)
Lemma for_indices_until (fuel n : nat) (start : Z) (cond : Z -> bool) :
  (n < fuel)%nat ->
  (forall k, start <= k < start + Z.of_nat n -> cond k = true) ->
  cond (start + Z.of_nat n) = false ->
  for_indices fuel start cond
  = map (fun j => start + Z.of_nat j) (seq 0 n).
Proof.
  revert fuel start. induction n as [|n IH]; intros fuel start Hf Ht Hc.
  - destruct fuel as [|fuel]; [lia|]. cbn [for_indices].
    replace (start + Z.of_nat 0) with start in Hc by lia. rewrite Hc.
    reflexivity.
  - destruct fuel as [|fuel]; [lia|]. cbn [for_indices].
    rewrite Ht by lia. cbn [seq map]. f_equal; [lia|].
    rewrite (IH fuel (start + 1)).
    + rewrite <- seq_shift, map_map. apply map_ext. intros j. lia.
    + lia.
    + intros k Hk. apply Ht. lia.
    + replace (start + 1 + Z.of_nat n) with (start + Z.of_nat (S n)) by lia.
      exact Hc.
Qed.

Lemma worker_slots_spec (cores : number) (i : Z) :
  In i (worker_slots cores) <-> 1 <= i /\ num_lt (of_Z i) cores = true.
Proof.
  unfold worker_slots. rewrite for_indices_spec.
  destruct cores as [q|].
  - cbn [cores_fuel]. split.
    + intros [Hr Hc]. split; [lia|]. apply Hc. lia.
    + intros [H1 Hlt]. apply num_lt_Fin in Hlt.
      assert (Hc : i < Qceiling q).
      { apply Z.nle_gt. intros Hle. rewrite Zle_Qle in Hle.
        apply (Qlt_not_le _ _ Hlt). eapply Qle_trans; [apply Qle_ceiling|].
        exact Hle. }
      split; [lia|]. intros k Hk. apply num_lt_Fin.
      eapply Qle_lt_trans; [|exact Hlt]. rewrite <- Zle_Qle. lia.
  - cbn [cores_fuel num_lt of_Z]. split; [|intros [_ H]; discriminate].
    intros [Hr Hc]. specialize (Hc 1). cbn in Hc. split; [lia|].
    apply Hc. lia.
Qed.

(** The slots for any finite count: 1 to [ceil cores - 1]. *)
Lemma worker_slots_Fin (q : Q) :
  worker_slots (Fin q)
  = map (fun j => 1 + Z.of_nat j) (seq 0 (Z.to_nat (Qceiling q - 1))).
Proof.
  unfold worker_slots. cbn [cores_fuel]. apply for_indices_until.
  - lia.
  - intros k Hk. change (Fin (inject_Z k)) with (of_Z k). apply num_lt_Fin.
    eapply Qle_lt_trans; [|apply Qceiling_lt].
    rewrite <- Zle_Qle. lia.
  - change (Fin (inject_Z (1 + Z.of_nat (Z.to_nat (Qceiling q - 1)))))
      with (of_Z (1 + Z.of_nat (Z.to_nat (Qceiling q - 1)))).
    destruct (num_lt _ (Fin q)) eqn:E; [|reflexivity].
    apply num_lt_Fin in E. exfalso. apply (Qlt_not_le _ _ E).
    eapply Qle_trans; [apply Qle_ceiling|]. rewrite <- Zle_Qle. lia.
Qed.

Lemma worker_slots_of_Z (c : Z) :
  worker_slots (of_Z c)
  = map (fun j => 1 + Z.of_nat j) (seq 0 (Z.to_nat (c - 1))).
Proof.
  unfold of_Z. rewrite worker_slots_Fin, Qceiling_Z. reflexivity.
Qed.

Lemma worker_slots_single_core (cores : number) :
  num_le cores (of_Z 1) = true -> worker_slots cores = [].
Proof.
  intros H. destruct (worker_slots cores) as [|i rest] eqn:E; [reflexivity|].
  assert (Hi : In i (worker_slots cores)) by (rewrite E; left; reflexivity).
  apply worker_slots_spec in Hi. destruct Hi as [H1 Hlt].
  destruct cores as [q|]; [|discriminate].
  apply num_lt_Fin in Hlt. unfold num_le, of_Z in H. apply Qle_bool_iff in H.
  exfalso. apply (Qlt_not_le _ _ Hlt). eapply Qle_trans; [exact H|].
  rewrite <- Zle_Qle. exact H1.
Qed.

Lemma fallback_slots_eq : fallback_slots = [1; 2; 3; 4; 5; 6; 7; 8; 9; 10].
Proof. reflexivity. Qed.

Lemma Qred_integer (n : Z) : Qred (n # 1) = (n # 1)%Q.
Proof.
  unfold Qred.
  pose proof (Z.ggcd_correct_divisors n 1) as Hd.
  pose proof (Z.ggcd_gcd n 1) as Hg.
  destruct (Z.ggcd n 1) as [g [aa bb]]. cbn [fst snd] in *.
  rewrite Z.gcd_1_r in Hg. subst g. destruct Hd as [Ha Hb].
  assert (aa = n) by lia. assert (bb = 1) by lia. subst aa bb.
  reflexivity.
Qed.

(** Up to 2^53 in magnitude an integer is a double. *)
Lemma double_of_Z_safe (z : Z) : Z.abs z <= 2 ^ 53 -> double_of_Z z = z.
Proof.
  intros H. unfold double_of_Z. cbv zeta.
  destruct (Z.abs z <=? 2 ^ 53) eqn:E; [reflexivity|].
  apply Z.leb_gt in E. lia.
Qed.

Lemma round_result_integer (n : Z) :
  round_result (n # 1) = inject_Z (double_of_Z n).
Proof.
  unfold round_result. cbv zeta. rewrite Qred_integer. reflexivity.
Qed.

Lemma num_add_of_Z (a b : Z) :
  num_add (of_Z a) (of_Z b) = of_Z (double_of_Z (a + b)).
Proof.
  unfold num_add, of_Z, inject_Z, Qplus. cbn [Qnum Qden Pos.mul].
  rewrite round_result_integer.
  replace (a * 1 + b * 1) with (a + b) by lia. reflexivity.
Qed.

Lemma num_sub_of_Z (a b : Z) :
  num_sub (of_Z a) (of_Z b) = of_Z (double_of_Z (a - b)).
Proof.
  unfold num_sub, of_Z, inject_Z, Qminus, Qplus, Qopp.
  cbn [Qnum Qden Pos.mul].
  rewrite round_result_integer.
  replace (a * 1 + - b * 1) with (a - b) by lia. reflexivity.
Qed.

(** [startingPort + i - 1] for an integer starting port, while the
    additions stay where doubles are exact. *)
Lemma slot_port_of_Z (p i : Z) :
  Z.abs (p + i) <= 2 ^ 53 ->
  Z.abs (p + i - 1) <= 2 ^ 53 ->
  slot_port (of_Z p) i = of_Z (p + i - 1).
Proof.
  intros H1 H2. unfold slot_port.
  rewrite num_add_of_Z, (double_of_Z_safe _ H1).
  rewrite num_sub_of_Z, (double_of_Z_safe _ H2). reflexivity.
Qed.

Lemma show_number_of_Z (z : Z) :
  Z.abs z <= 2 ^ 53 -> show_number (of_Z z) = Some (string_of_Z z).
Proof.
  intros H. unfold show_number, of_Z, inject_Z. cbv zeta.
  rewrite Qred_integer. cbn [Qnum Qden Pos.eqb andb].
  assert (Hlt : (Z.abs z <? 10 ^ 21) = true).
  { apply Z.ltb_lt. eapply Z.le_lt_trans; [exact H|]. reflexivity. }
  rewrite Hlt. reflexivity.
Qed.

(* ===================================================================== *)
(** * The shape of one server's reconciliation *)
(* ===================================================================== *)

Lemma commands_app (tr1 tr2 : list event) :
  commands (tr1 ++ tr2) = (commands tr1 ++ commands tr2)%list.
Proof. unfold commands. apply flat_map_app. Qed.

Lemma created_app (tr1 tr2 : list event) :
  created (tr1 ++ tr2) = (created tr1 ++ created tr2)%list.
Proof. unfold created. rewrite commands_app. apply filter_app. Qed.

Lemma removals_app (tr1 tr2 : list event) :
  removals (tr1 ++ tr2) = (removals tr1 ++ removals tr2)%list.
Proof. unfold removals. rewrite commands_app. apply filter_app. Qed.

Lemma no_command_of_kind (f : command -> bool) (tr : list event) :
  all_commands (fun _ c => f c = false) tr ->
  filter (fun sc => f (snd sc)) (commands tr) = [].
Proof.
  unfold all_commands. induction 1 as [|e tr He Htr IH]; [reflexivity|].
  destruct e as [s c r|l]; cbn [commands flat_map app] in *.
  - cbn [filter snd]. rewrite He. exact IH.
  - exact IH.
Qed.

Lemma kind_in_trace (f : command -> bool) (pre post : list event)
  (s : string) (c : command) (r : response) :
  f c = true ->
  In (s, c) (filter (fun sc => f (snd sc)) (commands (pre ++ Ran s c r :: post))).
Proof.
  intros H. apply filter_In. split; [|exact H].
  rewrite commands_app. apply in_or_app. right. left. reflexivity.
Qed.

Lemma reconcile_command_create (serverName appName : string)
  (appPort startingPort cores : number) (s : string) (c : command) :
  reconcile_command serverName appName appPort startingPort cores s c ->
  is_create c = true ->
  exists i actualImage,
    In i (worker_slots cores)
    /\ c = runCmd serverName appName appPort startingPort actualImage i.
Proof.
  intros [_ H] Hc.
  destruct H as [->|[->|[->|[->|[[i [_ [->| ->]]]|[[i [img [Hi H]]]| ->]]]]]];
    try discriminate Hc.
  destruct H as [->|[->|[->| ->]]]; try discriminate Hc.
  exists i, img. split; [exact Hi | reflexivity].
Qed.

Lemma sends_cleanupBeforeStart (P : string -> command -> Prop)
  (serverName appName : string) :
  P serverName (PsWorkers true appName) ->
  P serverName (StopWorkers true true appName) ->
  P serverName (RmWorkers true appName) ->
  (forall i, P serverName (StopContainer (worker_name appName i))) ->
  (forall i, P serverName (RmContainer (worker_name appName i))) ->
  sends P (cleanupBeforeStart serverName appName).
Proof.
  intros H1 H2 H3 H4 H5. unfold cleanupBeforeStart, fallbackCleanup.
  repeat first [apply sends_for_each; intros | sends_step]; auto.
Qed.

Lemma sends_cleanupSingleCore (P : string -> command -> Prop)
  (serverName appName : string) :
  P serverName (PsWorkers true appName) ->
  P serverName (StopWorkers true true appName) ->
  P serverName (RmWorkers true appName) ->
  (forall i, P serverName (StopContainer (worker_name appName i))) ->
  (forall i, P serverName (RmContainer (worker_name appName i))) ->
  sends P (cleanupSingleCore serverName appName).
Proof.
  intros H1 H2 H3 H4 H5. unfold cleanupSingleCore, fallbackCleanup.
  repeat first [apply sends_for_each; intros | sends_step]; auto.
Qed.

Ltac answer_all :=
  repeat match goal with
    | |- context [respond ?h ?st ?s ?c] =>
        let st' := fresh "st" in
        let o := fresh "o" in
        let e := fresh "e" in
        destruct (respond h st s c) as [st' [o|e]]; cbn
    | |- context [if ?b then _ else _] => destruct b; cbn
    end.

(** Each slot of the creation loop sends its [docker run] once, never
    rejects, and sends no stop or remove. *)
Lemma exec_startSlot {S : Type} (h : host S) (st : S)
  (serverName appName : string) (appPort startingPort : number)
  (actualImage : string) (i : Z) :
  exists st1 tr,
    exec h (startSlot serverName appName appPort startingPort actualImage i) st
    = (st1, tr, Fulfilled tt)
    /\ created tr
       = [(serverName,
           runCmd serverName appName appPort startingPort actualImage i)]
    /\ removals tr = [].
Proof.
  unfold startSlot. cbv zeta. unfold_monad. cbn.
  answer_all; eexists; eexists; repeat split.
Qed.

Lemma exec_startSlots {S : Type} (h : host S) (st : S)
  (serverName appName : string) (appPort startingPort : number)
  (actualImage : string) (slots : list Z) :
  exists st1 tr,
    exec h (for_each slots
              (startSlot serverName appName appPort startingPort actualImage))
      st
    = (st1, tr, Fulfilled tt)
    /\ created tr
       = map (fun i =>
                (serverName,
                 runCmd serverName appName appPort startingPort actualImage i))
           slots
    /\ removals tr = [].
Proof.
  revert st. induction slots as [|i rest IH]; intros st.
  - exists st, []. repeat split.
  - cbn [for_each]. unfold_monad. rewrite exec_bind.
    destruct (exec_startSlot h st serverName appName appPort startingPort
                actualImage i) as [st1 [tr1 [E1 [C1 R1]]]].
    rewrite E1. destruct (IH st1) as [st2 [tr2 [E2 [C2 R2]]]]. rewrite E2.
    exists st2, (tr1 ++ tr2)%list. split; [reflexivity|].
    rewrite created_app, removals_app, C1, C2, R1, R2. split; reflexivity.
Qed.

(** What follows the creation loop: the status listing and its log lines. *)
Lemma exec_status_report {S : Type} (h : host S) (st : S)
  (serverName appName : string) :
  let run :=
    exec h
      (prog_bind (runSSHCommand serverName (PsGrep appName))
         (fun status =>
            prog_bind (log (LogAllRunning serverName))
              (fun _ =>
                 for_each (split_lines status)
                   (fun line =>
                      if nonblank line then log (LogStatusLine line)
                      else Ret tt)))) st in
  created (trace run) = [] /\ removals (trace run) = [].
Proof.
  cbv zeta. split; apply no_command_of_kind; apply sends_trace;
    repeat first [apply sends_for_each; intros | sends_step]; reflexivity.
Qed.

(** A run of the multi-core branch either creates nothing, or consists of
    the image query, the inventory clean-up run to its end, and then a tail
    that holds all the [docker run] commands, one per slot in order, and no
    stop or remove. *)
Lemma reconcile_shape {S : Type} (h : host S) (st : S)
  (serverName appName : string) (appPort startingPort cores : number) :
  num_le cores (of_Z 1) = false ->
  let run := exec h (reconcile serverName appName appPort startingPort cores) st in
  created (trace run) = []
  \/ exists out st1 st2 trc tail,
       respond h st serverName (InspectImage appName) = (st1, Output out)
       /\ exec h (cleanupBeforeStart serverName appName) st1
          = (st2, trc, Fulfilled tt)
       /\ trace run
          = (Ran serverName (InspectImage appName) (Output out)
               :: Logged (LogUsingImage serverName (trim out))
               :: trc ++ tail)%list
       /\ created tail
          = map (fun i =>
                   (serverName,
                    runCmd serverName appName appPort startingPort
                      (trim out) i))
              (worker_slots cores)
       /\ removals tail = [].
Proof.
  intros Hc. cbv zeta. unfold reconcile. rewrite Hc. unfold_monad.
  rewrite exec_catch, exec_run_bind.
  destruct (respond h st serverName (InspectImage appName)) as [st1 [out|e]]
    eqn:Hr; cbn [prog_bind exec log]; [|left; reflexivity].
  destruct (String.eqb (trim out) "") eqn:Hi; cbn [prog_bind exec log];
    [left; reflexivity|].
  rewrite exec_bind.
  assert (Hcl : created (trace (exec h (cleanupBeforeStart serverName appName)
                                  st1)) = []).
  { apply no_command_of_kind. apply sends_trace.
    apply sends_cleanupBeforeStart; reflexivity. }
  destruct (exec h (cleanupBeforeStart serverName appName) st1)
    as [[st2 trc] [[]|e]] eqn:Ecl; cbn [trace fst snd] in Hcl.
  - right. exists out, st1, st2, trc.
    cbn [log prog_bind exec]. rewrite exec_bind. unfold startSlots.
    destruct (exec_startSlots h st2 serverName appName appPort startingPort
                (trim out) (worker_slots cores)) as [st3 [trs [Es [Cs Rs]]]].
    rewrite Es.
    match goal with
    | |- context [exec h ?p st3] =>
        assert (Hst : created (trace (exec h p st3)) = []
                      /\ removals (trace (exec h p st3)) = [])
          by exact (exec_status_report h st3 serverName appName);
        destruct (exec h p st3) as [[st4 trf] o] eqn:Ef
    end.
    cbn [trace fst snd] in Hst. destruct Hst as [Cf Rf].
    destruct o as [[]|e]; cbn [exec log trace fst snd app].
    + exists (Logged (LogStarting serverName cores) :: trs ++ trf)%list.
      split; [reflexivity|]. split; [exact Ecl|].
      split; [reflexivity|]. split.
      * change (created (Logged (LogStarting serverName cores) :: trs ++ trf))
          with (created (trs ++ trf)).
        rewrite created_app, Cs, Cf. apply app_nil_r.
      * change (removals (Logged (LogStarting serverName cores) :: trs ++ trf))
          with (removals (trs ++ trf)).
        rewrite removals_app, Rs, Rf. reflexivity.
    + exists (Logged (LogStarting serverName cores) :: (trs ++ trf)
              ++ [Logged (LogStartError serverName e)])%list.
      split; [reflexivity|]. split; [exact Ecl|].
      split; [repeat (repeat rewrite <- app_assoc; cbn [app]); reflexivity|].
      split.
      * change (created (Logged (LogStarting serverName cores) :: (trs ++ trf)
                          ++ [Logged (LogStartError serverName e)]))
          with (created ((trs ++ trf)
                           ++ [Logged (LogStartError serverName e)])).
        rewrite !created_app, Cs, Cf. cbn [created commands flat_map filter app].
        rewrite !app_nil_r. reflexivity.
      * change (removals (Logged (LogStarting serverName cores) :: (trs ++ trf)
                          ++ [Logged (LogStartError serverName e)]))
          with (removals ((trs ++ trf)
                            ++ [Logged (LogStartError serverName e)])).
        rewrite !removals_app, Rs, Rf. reflexivity.
  - left. cbn [exec log trace fst snd app].
    change (created (Ran serverName (InspectImage appName) (Output out)
                       :: Logged (LogUsingImage serverName (trim out))
                       :: trc ++ [Logged (LogStartError serverName e)]))
      with (created (trc ++ [Logged (LogStartError serverName e)])).
    rewrite created_app, Hcl. reflexivity.
Qed.

(** When the image of the primary is found and the clean-up ends normally,
    the pass goes through the creation loop: its trace is the inspection,
    the clean-up and a rest that holds the [docker run] of every slot, in
    order, and no stop or remove. *)
Lemma reconcile_runs {S : Type} (h : host S) (st st1 st2 : S)
  (serverName appName : string) (appPort startingPort cores : number)
  (out : string) (trc : list event) :
  num_le cores (of_Z 1) = false ->
  respond h st serverName (InspectImage appName) = (st1, Output out) ->
  trim out <> "" ->
  exec h (cleanupBeforeStart serverName appName) st1
  = (st2, trc, Fulfilled tt) ->
  exists tail,
    trace (exec h (reconcile serverName appName appPort startingPort cores) st)
    = (Ran serverName (InspectImage appName) (Output out)
         :: Logged (LogUsingImage serverName (trim out))
         :: trc ++ Logged (LogStarting serverName cores) :: tail)%list
    /\ created tail
       = map (fun i =>
                (serverName,
                 runCmd serverName appName appPort startingPort (trim out) i))
           (worker_slots cores)
    /\ removals tail = []
    /\ result (exec h (reconcile serverName appName appPort startingPort
                         cores) st) = Fulfilled tt.
Proof.
  intros Hc Hr Hi Ecl. unfold reconcile. rewrite Hc. unfold_monad.
  rewrite exec_catch, exec_run_bind, Hr.
  destruct (String.eqb (trim out) "") eqn:Ei;
    [apply String.eqb_eq in Ei; contradiction|].
  cbn [prog_bind exec log]. rewrite exec_bind, Ecl.
  cbn [log prog_bind exec]. rewrite exec_bind. unfold startSlots.
  destruct (exec_startSlots h st2 serverName appName appPort startingPort
              (trim out) (worker_slots cores)) as [st3 [trs [Es [Cs Rs]]]].
  rewrite Es.
  match goal with
  | |- context [exec h ?p st3] =>
      assert (Hst : created (trace (exec h p st3)) = []
                    /\ removals (trace (exec h p st3)) = [])
        by exact (exec_status_report h st3 serverName appName);
      destruct (exec h p st3) as [[st4 trf] o] eqn:Ef
  end.
  cbn [trace fst snd] in Hst. destruct Hst as [Cf Rf].
  destruct o as [[]|e]; cbn [exec log trace result fst snd app].
  - exists (trs ++ trf)%list. split; [reflexivity|]. split; [|split].
    + rewrite created_app, Cs, Cf. apply app_nil_r.
    + rewrite removals_app, Rs, Rf. reflexivity.
    + reflexivity.
  - exists ((trs ++ trf) ++ [Logged (LogStartError serverName e)])%list.
    split; [repeat (repeat rewrite <- app_assoc; cbn [app]); reflexivity|].
    split; [|split].
    + rewrite !created_app, Cs, Cf. cbn [created commands flat_map filter app].
      rewrite !app_nil_r. reflexivity.
    + rewrite !removals_app, Rs, Rf. reflexivity.
    + reflexivity.
Qed.

Lemma in_commands (tr : list event) (s : string) (c : command) :
  In (s, c) (commands tr) <-> exists r, In (Ran s c r) tr.
Proof.
  unfold commands. rewrite in_flat_map. split.
  - intros [[s' c' r|l] [Hin H]]; [|contradiction].
    destruct H as [E|[]]. injection E as -> ->. exists r. exact Hin.
  - intros [r Hin]. exists (Ran s c r). split; [exact Hin | left; reflexivity].
Qed.

(** Every [docker run] of a reconciliation is the command of one of its
    slots. *)
Lemma created_are_slots {S : Type} (h : host S) (st : S)
  (serverName appName : string) (appPort startingPort cores : number)
  (s : string) (c : command) :
  In (s, c)
    (created (trace (exec h (reconcile serverName appName appPort
                               startingPort cores) st))) ->
  exists i actualImage,
    In i (worker_slots cores)
    /\ c = runCmd serverName appName appPort startingPort actualImage i.
Proof.
  unfold created. rewrite filter_In. cbn [snd]. intros [Hin Hc].
  apply in_commands in Hin. destruct Hin as [r Hin].
  pose proof (sends_trace h st
                (sends_reconcile serverName appName appPort startingPort cores))
    as Hall.
  unfold all_commands in Hall. rewrite Forall_forall in Hall.
  apply Hall in Hin. eapply reconcile_command_create; eassumption.
Qed.

Lemma created_single_core {S : Type} (h : host S) (st : S)
  (serverName appName : string) (appPort startingPort cores : number) :
  worker_slots cores = [] ->
  created (trace (exec h (reconcile serverName appName appPort
                            startingPort cores) st)) = [].
Proof.
  intros Hs.
  destruct (created _) as [|[s c] rest] eqn:E; [reflexivity|].
  assert (Hin : In (s, c)
                  (created (trace (exec h (reconcile serverName appName appPort
                                             startingPort cores) st))))
    by (rewrite E; left; reflexivity).
  apply created_are_slots in Hin. destruct Hin as [i [img [Hi _]]].
  rewrite Hs in Hi. contradiction.
Qed.

(** The [docker run] commands of a reconciliation, for any count: none, or
    those of the slots in order. *)
Lemma created_commands_shape {S : Type} (h : host S) (st : S)
  (serverName appName : string) (appPort startingPort cores : number) :
  let created_commands :=
    created (trace (exec h (reconcile serverName appName appPort startingPort
                              cores) st)) in
  created_commands = []
  \/ exists actualImage,
       created_commands
       = map (fun i =>
                (serverName,
                 runCmd serverName appName appPort startingPort actualImage i))
           (worker_slots cores).
Proof.
  cbv zeta. destruct (num_le cores (of_Z 1)) eqn:Hc.
  - left. apply created_single_core. apply worker_slots_single_core. exact Hc.
  - destruct (reconcile_shape h st serverName appName appPort startingPort
                cores Hc)
      as [E|[out [st1 [st2 [trc [tail [_ [Ecl [Et [Ct _]]]]]]]]]].
    + left. exact E.
    + right. exists (trim out). rewrite Et.
      change (created (Ran serverName (InspectImage appName) (Output out)
                :: Logged (LogUsingImage serverName (trim out))
                :: trc ++ tail))
        with (created (trc ++ tail)).
      rewrite created_app, Ct.
      assert (Hcl : created (trace (exec h (cleanupBeforeStart serverName
                                              appName) st1)) = []).
      { apply no_command_of_kind. apply sends_trace.
        apply sends_cleanupBeforeStart; reflexivity. }
      rewrite Ecl in Hcl. cbn [trace fst snd] in Hcl. rewrite Hcl.
      reflexivity.
Qed.

(* ===================================================================== *)
(** * Slots, names and ports (C4) *)
(* ===================================================================== *)

(** C4: for an integer core count [c] and starting port [p] (in the range
    where the code's additions are exact), the creation loop runs for
    exactly the slots 1 to [c - 1]; slot [i] is created as
    [appName-worker-i] with host port [p + i - 1] and [CORE_ID=i]; whatever
    the host answers, the [docker run] commands of a reconciliation are
    either none or exactly those of the slots in ascending order; they are
    those of all the slots whenever the image of the primary is found and
    the clean-up ends normally; and with [c <= 1] there is no slot and
    nothing is created. *)
Theorem slots_names_and_ports (c p : Z) (serverName appName : string)
  (appPort : number) {S : Type} (h : host S) (st : S) :
  Z.abs p <= 2 ^ 52 ->
  c <= 2 ^ 52 ->
  let created_commands :=
    created (trace (exec h (reconcile serverName appName appPort
                              (of_Z p) (of_Z c)) st)) in
  let slot_command := fun actualImage i =>
    Run (appName ++ "-worker-" ++ string_of_Z i)
      (serverName ++ "-" ++ appName ++ "-" ++ string_of_Z i)
      (of_Z (p + i - 1)) appPort i appName actualImage in
  (forall i, In i (worker_slots (of_Z c)) <-> 1 <= i < c) /\
  worker_slots (of_Z c)
    = map (fun j => 1 + Z.of_nat j) (seq 0 (Z.to_nat (c - 1))) /\
  (forall i actualImage,
     1 <= i < c ->
     runCmd serverName appName appPort (of_Z p) actualImage i
     = slot_command actualImage i
     /\ show_number (of_Z (p + i - 1)) = Some (string_of_Z (p + i - 1))) /\
  (created_commands = []
   \/ exists actualImage,
        created_commands
        = map (fun i => (serverName, slot_command actualImage i))
            (worker_slots (of_Z c))) /\
  (forall out st1,
     1 < c ->
     respond h st serverName (InspectImage appName) = (st1, Output out) ->
     trim out <> "" ->
     result (exec h (cleanupBeforeStart serverName appName) st1)
     = Fulfilled tt ->
     created_commands
     = map (fun i => (serverName, slot_command (trim out) i))
         (worker_slots (of_Z c))) /\
  (c <= 1 -> worker_slots (of_Z c) = [] /\ created_commands = []).
Proof.
  intros Hp Hcb. cbv zeta.
  assert (Hslot : forall i, In i (worker_slots (of_Z c)) <-> 1 <= i < c).
  { intros i. rewrite worker_slots_spec, num_lt_of_Z, Z.ltb_lt. tauto. }
  assert (Hcmd : forall img i, 1 <= i < c ->
            runCmd serverName appName appPort (of_Z p) img i
            = Run (appName ++ "-worker-" ++ string_of_Z i)
                (serverName ++ "-" ++ appName ++ "-" ++ string_of_Z i)
                (of_Z (p + i - 1)) appPort i appName img).
  { intros img i Hi. unfold runCmd, worker_name.
    rewrite slot_port_of_Z by lia. reflexivity. }
  assert (Hmap : forall img,
            map (fun i => (serverName,
                           runCmd serverName appName appPort (of_Z p) img i))
              (worker_slots (of_Z c))
            = map (fun i =>
                     (serverName,
                      Run (appName ++ "-worker-" ++ string_of_Z i)
                        (serverName ++ "-" ++ appName ++ "-" ++ string_of_Z i)
                        (of_Z (p + i - 1)) appPort i appName img))
                (worker_slots (of_Z c))).
  { intros img. apply map_ext_in. intros i Hi. apply Hslot in Hi.
    rewrite Hcmd by exact Hi. reflexivity. }
  split; [exact Hslot|]. split; [apply worker_slots_of_Z|].
  split; [|split; [|split]].
  - intros i img Hi. split; [apply Hcmd; exact Hi|].
    apply show_number_of_Z. lia.
  - destruct (created_commands_shape h st serverName appName appPort (of_Z p)
                (of_Z c)) as [E|[img E]]; [left; exact E|].
    right. exists img. rewrite E. apply Hmap.
  - intros out st1 Hc Hr Hi Hres.
    destruct (exec h (cleanupBeforeStart serverName appName) st1)
      as [[st2 trc] o] eqn:Ecl.
    cbn [result snd] in Hres. subst o.
    assert (Hle : num_le (of_Z c) (of_Z 1) = false)
      by (rewrite num_le_of_Z; apply Z.leb_gt; exact Hc).
    destruct (@reconcile_runs _ h st st1 st2 serverName appName appPort
                (of_Z p) (of_Z c) out trc Hle Hr Hi Ecl)
      as [tail [Et [Ct _]]].
    rewrite Et.
    change (created (Ran serverName (InspectImage appName) (Output out)
              :: Logged (LogUsingImage serverName (trim out))
              :: trc ++ Logged (LogStarting serverName (of_Z c)) :: tail))
      with (created (trc ++ Logged (LogStarting serverName (of_Z c)) :: tail)).
    rewrite created_app.
    change (created (Logged (LogStarting serverName (of_Z c)) :: tail))
      with (created tail).
    rewrite Ct.
    assert (Hcl : created (trace (exec h (cleanupBeforeStart serverName
                                            appName) st1)) = []).
    { apply no_command_of_kind. apply sends_trace.
      apply sends_cleanupBeforeStart; reflexivity. }
    rewrite Ecl in Hcl. cbn [trace fst snd] in Hcl. rewrite Hcl.
    apply Hmap.
  - intros Hle.
    assert (Hs : worker_slots (of_Z c) = []).
    { apply worker_slots_single_core. rewrite num_le_of_Z.
      apply Z.leb_le. exact Hle. }
    split; [exact Hs|]. apply created_single_core. exact Hs.
Qed.

(** The scenario of the specification: four cores from port 3001 on a Docker
    host that runs the primary create [myapp-worker-1] to [myapp-worker-3]
    on the ports 3001 to 3003. *)
Lemma slots_names_and_ports_witness :
  created (trace (exec Docker.docker_host
                    (reconcile "web1" "myapp" (of_Z 3000) (of_Z 3001) (of_Z 4))
                    docker_primary_only))
  = [("web1", Run "myapp-worker-1" "web1-myapp-1" (of_Z 3001) (of_Z 3000) 1
                "myapp" "sha256:1f2e");
     ("web1", Run "myapp-worker-2" "web1-myapp-2" (of_Z 3002) (of_Z 3000) 2
                "myapp" "sha256:1f2e");
     ("web1", Run "myapp-worker-3" "web1-myapp-3" (of_Z 3003) (of_Z 3000) 3
                "myapp" "sha256:1f2e")].
Proof.
  refine (proj1 (proj2 (proj2 (proj2 (proj2
            (@slots_names_and_ports 4 3001 "web1" "myapp" (of_Z 3000) _
               Docker.docker_host docker_primary_only _ _)))))
            ("sha256:1f2e" ++ nl) docker_primary_only _ _ _ _).
  - vm_compute. discriminate.
  - vm_compute. discriminate.
  - lia.
  - reflexivity.
  - vm_compute. discriminate.
  - vm_compute. reflexivity.
Defined.

(** The scenario of the specification on the Docker host: three workers for
    four cores, on ports 3001 to 3003. *)
Example myapp_four_cores :
  map (fun sc => render (snd sc))
    (created (trace (exec Docker.docker_host
                       (reconcile "web1" "myapp" (of_Z 3000) (of_Z 3001)
                          (of_Z 4))
                       docker_primary_only)))
  = map (fun i => render (runCmd "web1" "myapp" (of_Z 3000) (of_Z 3001)
                            "sha256:1f2e" i)) [1; 2; 3]
  /\ Docker.worker_inventory "myapp"
       (final_state (exec Docker.docker_host
                       (reconcile "web1" "myapp" (of_Z 3000) (of_Z 3001)
                          (of_Z 4))
                       docker_primary_only))
     = [("myapp-worker-1", Fin 3001); ("myapp-worker-2", Fin 3002);
        ("myapp-worker-3", Fin 3003)].
Proof.
  split; vm_compute; reflexivity.
Qed.

(* ===================================================================== *)
(** * Removal precedes creation (C3) *)
(* ===================================================================== *)

(** The inventory clean-up starts with the inventory query; when the query
    finds containers it goes on with the filter-wide stop, and when that one
    returns, with the filter-wide remove. *)
Lemma cleanupBeforeStart_shape {S : Type} (h : host S) (st : S)
  (serverName appName : string) :
  exists answer rest,
    trace (exec h (cleanupBeforeStart serverName appName) st)
    = Ran serverName (PsWorkers true appName) answer :: rest
    /\ forall found, answer = Output found -> nonblank found = true ->
       exists r1 rest1,
         rest = Logged LogCleaningUp
                  :: Ran serverName (StopWorkers true true appName) r1 :: rest1
         /\ forall o1, r1 = Output o1 ->
            exists r2 rest2,
              rest1 = Ran serverName (RmWorkers true appName) r2 :: rest2.
Proof.
  unfold cleanupBeforeStart. unfold_monad. rewrite exec_catch, exec_run_bind.
  destruct (respond h st serverName (PsWorkers true appName))
    as [st1 [found|e]].
  - destruct (nonblank found) eqn:Hb.
    + cbn [log prog_bind exec]. rewrite exec_run_bind.
      destruct (respond h st1 serverName (StopWorkers true true appName))
        as [st2 [o1|e1]].
      * rewrite exec_run_bind.
        destruct (respond h st2 serverName (RmWorkers true appName))
          as [st3 [o2|e2]]; cbn [exec];
          [|destruct (exec h (fallbackCleanup serverName appName) st3)
              as [[st4 tr4] o4]];
          (eexists; eexists; split; [reflexivity|]);
          intros found' _ _; (eexists; eexists; split; [reflexivity|]);
          intros o1' _; eexists; eexists; reflexivity.
      * destruct (exec h (fallbackCleanup serverName appName) st2)
          as [[st4 tr4] o4].
        eexists; eexists; split; [reflexivity|].
        intros found' _ _; (eexists; eexists; split; [reflexivity|]).
        intros o1' E; discriminate E.
    + cbn [exec]. eexists; eexists; split; [reflexivity|].
      intros found' E Hb'. injection E as <-. congruence.
  - destruct (exec h (fallbackCleanup serverName appName) st1)
      as [[st4 tr4] o4].
    eexists; eexists; split; [reflexivity|]. intros found' E. discriminate E.
Qed.

(** A trace that starts with a part free of [docker run] commands reaches
    its first [docker run] after that part. *)
Lemma split_after_prefix (prefix tail pre post : list event) (s : string)
  (c : command) (r : response) :
  (prefix ++ tail = pre ++ Ran s c r :: post)%list ->
  is_create c = true ->
  created prefix = [] ->
  exists pre', pre = (prefix ++ pre')%list
               /\ tail = (pre' ++ Ran s c r :: post)%list.
Proof.
  intros E Hc. revert pre E.
  induction prefix as [|e prefix IH]; intros pre E Hp.
  - exists pre. split; [reflexivity | exact E].
  - destruct pre as [|e' pre1]; cbn [app] in E; injection E as -> E.
    + exfalso. unfold created in Hp. cbn in Hp. rewrite Hc in Hp.
      discriminate Hp.
    + assert (Hp' : created prefix = []).
      { destruct e' as [s' c' r'|l]; unfold created in *; cbn in Hp.
        - destruct (is_create c'); [discriminate Hp | exact Hp].
        - exact Hp. }
      destruct (IH pre1 E Hp') as [pre' [-> ->]].
      exists pre'. split; reflexivity.
Qed.

(** The fallback that ends normally has sent the stop and the remove of
    every slot and got an answer to each. *)
Lemma fallback_answered {S : Type} (h : host S) (serverName appName : string)
  (slots : list Z) (st : S) :
  let body := fun i =>
    prog_bind (runSSHCommand serverName (StopContainer (worker_name appName i)))
      (fun _ =>
         prog_bind
           (runSSHCommand serverName (RmContainer (worker_name appName i)))
           (fun _ => Ret tt)) in
  let run := exec h (for_each slots body) st in
  result run = Fulfilled tt ->
  forall sc,
    In sc (flat_map
             (fun i => [(serverName, StopContainer (worker_name appName i));
                        (serverName, RmContainer (worker_name appName i))])
             slots) ->
    exists o, In (Ran (fst sc) (snd sc) (Output o)) (trace run).
Proof.
  cbv zeta. revert st. induction slots as [|i rest IH]; intros st Hres sc Hin.
  - contradiction.
  - cbn [for_each flat_map] in *. unfold_monad.
    rewrite exec_bind, exec_run_bind in *.
    destruct (respond h st serverName (StopContainer (worker_name appName i)))
      as [st1 [o|e]]; [|discriminate Hres].
    rewrite exec_run_bind in *.
    destruct (respond h st1 serverName (RmContainer (worker_name appName i)))
      as [st2 [o2|e2]]; cbn [exec] in *; [|discriminate Hres].
    specialize (IH st2).
    destruct (exec h (for_each rest _) st2) as [[st3 tr3] o3].
    cbn [trace result fst snd app] in *.
    destruct Hin as [<-|[<-|Hin]].
    + exists o. left. reflexivity.
    + exists o2. right. left. reflexivity.
    + destruct (IH Hres sc Hin) as [o' Ho']. exists o'. right. right.
      exact Ho'.
Qed.

Lemma by_name_done_incl (serverName appName : string) (tr tr' : list event) :
  (forall x, In x tr -> In x tr') ->
  by_name_done serverName appName tr -> by_name_done serverName appName tr'.
Proof.
  intros Hi H sc Hsc. destruct (H sc Hsc) as [o Ho]. exists o. auto.
Qed.

Lemma cleaned_incl (serverName appName : string) (tr tr' : list event) :
  (forall x, In x tr -> In x tr') ->
  cleaned serverName appName tr -> cleaned serverName appName tr'.
Proof.
  intros Hi [answer [Ha H]]. exists answer. split; [auto|].
  destruct answer as [found|e]; [|eapply by_name_done_incl; eassumption].
  intros Hb. destruct (H Hb) as [r1 [H1 H']]. exists r1. split; [auto|].
  destruct r1 as [o1|e1]; [|eapply by_name_done_incl; eassumption].
  destruct H' as [r2 [H2 H'']]. exists r2. split; [auto|].
  destruct r2 as [o2|e2]; [exact I|eapply by_name_done_incl; eassumption].
Qed.

Lemma fallbackCleanup_answered {S : Type} (h : host S)
  (serverName appName : string) (st : S) :
  result (exec h (fallbackCleanup serverName appName) st) = Fulfilled tt ->
  by_name_done serverName appName
    (trace (exec h (fallbackCleanup serverName appName) st)).
Proof.
  exact (@fallback_answered _ h serverName appName fallback_slots st).
Qed.

Ltac fallback_case h serverName appName st Hres :=
  let Hf := fresh "Hf" in
  pose proof (@fallbackCleanup_answered _ h serverName appName st) as Hf;
  destruct (exec h (fallbackCleanup serverName appName) st)
    as [[? ?] ?];
  cbn [trace result fst snd] in *;
  injection Hres as <- <- ->;
  specialize (Hf eq_refl).

(** A clean-up that ends normally leaves a trace that holds it whole; and
    the two clean-ups send the same commands, end in the same state and
    with the same result. *)
Lemma cleanup_cleaned {S : Type} (h : host S) (serverName appName : string)
  (st st2 : S) (trc : list event) :
  (exec h (cleanupBeforeStart serverName appName) st = (st2, trc, Fulfilled tt)
   -> cleaned serverName appName trc)
  /\ (exec h (cleanupSingleCore serverName appName) st
      = (st2, trc, Fulfilled tt)
      -> cleaned serverName appName trc).
Proof.
  unfold cleanupBeforeStart, cleanupSingleCore, cleaned. unfold_monad.
  rewrite !exec_catch, !exec_run_bind.
  destruct (respond h st serverName (PsWorkers true appName))
    as [st1 [found|e]].
  - destruct (nonblank found) eqn:Hb.
    + cbn [log prog_bind exec]. rewrite !exec_run_bind.
      destruct (respond h st1 serverName (StopWorkers true true appName))
        as [st3 [o1|e1]].
      * rewrite !exec_run_bind.
        destruct (respond h st3 serverName (RmWorkers true appName))
          as [st4 [o2|e2]]; cbn [exec log prog_bind].
        -- split; intros Hres; injection Hres as <- <-;
             (eexists; split; [left; reflexivity|]); intros _;
             (eexists; split; [cbn; eauto|]);
             (eexists; split; [cbn; eauto | exact I]).
        -- split; intros Hres; fallback_case h serverName appName st4 Hres;
             (eexists; split; [left; reflexivity|]); intros _;
             (eexists; split; [cbn; eauto|]);
             (eexists; split; [cbn; eauto |]);
             (eapply by_name_done_incl; [|exact Hf]);
             intros x Hx; cbn; rewrite ?in_app_iff; cbn; tauto.
      * split; intros Hres; fallback_case h serverName appName st3 Hres;
          (eexists; split; [left; reflexivity|]); intros _;
          (eexists; split; [cbn; eauto|]);
          (eapply by_name_done_incl; [|exact Hf]);
          intros x Hx; cbn; rewrite ?in_app_iff; cbn; tauto.
    + cbn [exec]. split; intros Hres; injection Hres as <- <-;
        (eexists; split; [left; reflexivity|]); intros Hb'; congruence.
  - split; intros Hres; fallback_case h serverName appName st1 Hres;
      (eexists; split; [left; reflexivity|]);
      (eapply by_name_done_incl; [|exact Hf]);
      intros x Hx; cbn; rewrite ?in_app_iff; cbn; tauto.
Qed.

Lemma cleanups_agree {S : Type} (h : host S) (serverName appName : string)
  (st : S) :
  let single := exec h (cleanupSingleCore serverName appName) st in
  let before := exec h (cleanupBeforeStart serverName appName) st in
  commands (trace single) = commands (trace before)
  /\ final_state single = final_state before
  /\ result single = result before.
Proof.
  cbv zeta. unfold cleanupBeforeStart, cleanupSingleCore. unfold_monad.
  rewrite !exec_catch, !exec_run_bind.
  destruct (respond h st serverName (PsWorkers true appName))
    as [st1 [found|e]].
  - destruct (nonblank found).
    + cbn [log prog_bind exec]. rewrite !exec_run_bind.
      destruct (respond h st1 serverName (StopWorkers true true appName))
        as [st3 [o1|e1]].
      * rewrite !exec_run_bind.
        destruct (respond h st3 serverName (RmWorkers true appName))
          as [st4 [o2|e2]]; cbn [exec log prog_bind].
        -- repeat split.
        -- destruct (exec h (fallbackCleanup serverName appName) st4)
             as [[st5 tr5] o5].
           cbn [trace final_state result fst snd].
           rewrite !commands_app. repeat split.
      * destruct (exec h (fallbackCleanup serverName appName) st3)
          as [[st5 tr5] o5].
        cbn [trace final_state result fst snd].
        rewrite !commands_app. repeat split.
    + repeat split.
  - destruct (exec h (fallbackCleanup serverName appName) st1)
      as [[st5 tr5] o5].
    repeat split.
Qed.

(* ===================================================================== *)
(** * The bounded fallback clean-up (C9) *)
(* ===================================================================== *)















(* ===================================================================== *)
(** * Reconciliation on the Docker host is idempotent (C6) *)
(* ===================================================================== *)

Lemma string_of_Z_inj (i j : Z) : string_of_Z i = string_of_Z j -> i = j.
Proof.
  unfold string_of_Z. intros E. apply DecimalZ.to_int_inj.
  assert (Hn : forall z, Z.to_int z <> Decimal.Pos Decimal.Nil
                         /\ Z.to_int z <> Decimal.Neg Decimal.Nil).
  { intros [|p|p]; cbn; split; try discriminate; intros H; injection H as H;
      exact (DecimalPos.Unsigned.to_uint_nonnil _ H). }
  pose proof (NilZero.isi (Z.to_int i) (proj1 (Hn i)) (proj2 (Hn i))) as Hi.
  pose proof (NilZero.isi (Z.to_int j) (proj1 (Hn j)) (proj2 (Hn j))) as Hj.
  rewrite E in Hi. rewrite Hi in Hj. injection Hj as Hj. exact Hj.
Qed.

Lemma append_inj_l (a b c : string) : (a ++ b = a ++ c)%string -> b = c.
Proof.
  induction a as [|x a IH]; cbn; intros E; [exact E|].
  injection E as E. apply IH. exact E.
Qed.

Lemma worker_name_inj (appName : string) (i j : Z) :
  worker_name appName i = worker_name appName j -> i = j.
Proof.
  unfold worker_name. intros E. apply append_inj_l in E.
  apply (append_inj_l "-worker-") in E. apply string_of_Z_inj. exact E.
Qed.

Lemma for_indices_NoDup (fuel : nat) (start : Z) (cond : Z -> bool) :
  NoDup (for_indices fuel start cond).
Proof.
  revert start. induction fuel as [|n IH]; intros start; cbn [for_indices].
  - constructor.
  - destruct (cond start); [|constructor]. constructor; [|apply IH].
    rewrite for_indices_spec. lia.
Qed.

Module DockerFacts.
Import Docker.

Lemma with_containers_same (st : dockerd) :
  with_containers st (containers st) = st.
Proof. destruct st. reflexivity. Qed.

Lemma listed_set_running (all : bool) (pat : string) (b : bool) (x : container) :
  listed true pat (set_running b x) = listed true pat x.
Proof. reflexivity. Qed.

(** Stopping what the filter lists and then removing what it lists leaves
    exactly the containers it does not list. *)
Lemma stop_then_remove (appName : string) (cs : list container) :
  filter (fun x => negb (listed true (worker_filter appName) x
                         && negb (c_running x)))
    (map (fun x => if listed true (worker_filter appName) x
                   then set_running false x else x) cs)
  = without_workers appName cs.
Proof.
  unfold without_workers. induction cs as [|x cs IH]; [reflexivity|].
  cbn [map filter].
  destruct (listed true (worker_filter appName) x) eqn:E.
  - rewrite listed_set_running by exact true. rewrite E. cbn. exact IH.
  - rewrite E. cbn. rewrite IH. reflexivity.
Qed.

Lemma filter_none_listed (appName : string) (cs : list container) :
  filter (listed true (worker_filter appName)) cs = [] ->
  without_workers appName cs = cs.
Proof.
  unfold without_workers. induction cs as [|x cs IH]; [reflexivity|].
  cbn [filter]. destruct (listed true (worker_filter appName) x); [discriminate|].
  intros H. cbn. rewrite IH by exact H. reflexivity.
Qed.

Lemma nonblank_listing (x : container) (l : list container) :
  nonblank (unlines (map container_id (x :: l))) = true.
Proof. reflexivity. Qed.

(** Both clean-ups end normally and leave exactly the containers the worker
    filter does not list. *)
Lemma cleanup_on_docker (serverName appName : string) (st : dockerd) :
  (exists tr,
     exec docker_host (cleanupSingleCore serverName appName) st
     = (with_containers st (without_workers appName (containers st)), tr,
        Fulfilled tt))
  /\ (exists tr,
        exec docker_host (cleanupBeforeStart serverName appName) st
        = (with_containers st (without_workers appName (containers st)), tr,
           Fulfilled tt)).
Proof.
  unfold cleanupSingleCore, cleanupBeforeStart. unfold_monad.
  rewrite !exec_catch, !exec_run_bind.
  cbn [respond docker_host respond_docker].
  destruct (filter (listed true (worker_filter appName)) (containers st))
    as [|x l] eqn:E.
  - cbn [map unlines fold_right]. change (nonblank "") with false.
    cbn [exec]. rewrite (filter_none_listed _ _ E), with_containers_same.
    split; eexists; reflexivity.
  - rewrite nonblank_listing. cbn [log prog_bind exec].
    rewrite !exec_run_bind.
    cbn [respond docker_host respond_docker orb containers with_containers].
    rewrite !exec_run_bind.
    cbn [respond docker_host respond_docker orb containers with_containers exec
           log prog_bind nproc_output port_busy].
    rewrite stop_then_remove.
    split; eexists; reflexivity.
Qed.

Lemma existsb_named_app (n : string) (cs extra : list container) :
  existsb (named n) (cs ++ extra)
  = existsb (named n) cs || existsb (named n) extra.
Proof. apply existsb_app. Qed.

(** A slot whose name is free is created, running unless its port is
    busy; the diagnostics that follow change nothing. *)
Lemma startSlot_on_docker (serverName appName : string)
  (appPort startingPort : number) (actualImage : string) (i : Z)
  (st : dockerd) :
  existsb (named (worker_name appName i)) (containers st) = false ->
  exists tr,
    exec docker_host
      (startSlot serverName appName appPort startingPort actualImage i) st
    = (with_containers st
         (containers st
            ++ [mkContainer (worker_name appName i) actualImage
                  (slot_port startingPort i)
                  (negb (port_busy st (slot_port startingPort i)))]),
       tr, Fulfilled tt).
Proof.
  intros Hfree. unfold startSlot. cbv zeta. unfold_monad.
  rewrite exec_catch, exec_run_bind.
  cbn [respond docker_host respond_docker runCmd]. rewrite Hfree.
  destruct (port_busy st (slot_port startingPort i)) eqn:Hb; cbn [negb].
  - cbn [exec log]. eexists. reflexivity.
  - rewrite exec_run_bind. cbn [respond docker_host respond_docker].
    match goal with
    | |- context [if ?b then _ else _] => destruct b
    end.
    + cbn [exec log]. eexists. reflexivity.
    + rewrite exec_run_bind. cbn [respond docker_host respond_docker].
      cbn [log prog_bind exec]. rewrite exec_run_bind.
      cbn [respond docker_host respond_docker].
      match goal with
      | |- context [if ?b then _ else _] => destruct b
      end; cbn [exec log]; eexists; reflexivity.
Qed.

Lemma slots_on_docker (serverName appName : string)
  (appPort startingPort : number) (actualImage : string) (slots : list Z)
  (st : dockerd) :
  NoDup slots ->
  (forall i, In i slots ->
             existsb (named (worker_name appName i)) (containers st) = false) ->
  exists tr,
    exec docker_host
      (for_each slots
         (startSlot serverName appName appPort startingPort actualImage)) st
    = (with_containers st
         (containers st
            ++ map (fun i =>
                      mkContainer (worker_name appName i) actualImage
                        (slot_port startingPort i)
                        (negb (port_busy st (slot_port startingPort i))))
                 slots),
       tr, Fulfilled tt).
Proof.
  revert st. induction slots as [|i rest IH]; intros st Hnd Hfree.
  - cbn [for_each map exec]. rewrite app_nil_r, with_containers_same.
    eexists. reflexivity.
  - cbn [for_each]. unfold_monad. rewrite exec_bind.
    destruct (startSlot_on_docker serverName appName appPort startingPort
                actualImage i st (Hfree i (or_introl eq_refl))) as [tr1 E1].
    rewrite E1. inversion Hnd as [|? ? Hni Hnd']; subst.
    match goal with
    | |- context [exec docker_host _ ?st1] =>
        destruct (IH st1 Hnd') as [tr2 E2]
    end.
    + intros j Hj. cbn [containers with_containers].
      rewrite existsb_named_app, (Hfree j (or_intror Hj)). cbn.
      rewrite orb_false_r. apply String.eqb_neq. intros E.
      apply worker_name_inj in E. subst j. contradiction.
    + rewrite E2. cbn [containers with_containers port_busy map].
      rewrite <- app_assoc. eexists. reflexivity.
Qed.

Lemma status_on_docker (serverName appName : string) (st : dockerd) :
  exists tr,
    exec docker_host
      (prog_bind (runSSHCommand serverName (PsGrep appName))
         (fun status =>
            prog_bind (log (LogAllRunning serverName))
              (fun _ =>
                 for_each (split_lines status)
                   (fun line =>
                      if nonblank line then log (LogStatusLine line)
                      else Ret tt)))) st
    = (st, tr, Fulfilled tt).
Proof.
  rewrite exec_run_bind. cbn [respond docker_host respond_docker].
  cbn [log prog_bind exec].
  generalize (split_lines
                (unlines (map status_line
                            (filter (fun x => includes (c_name x) appName
                                              && c_running x)
                               (containers st))))).
  intros lines.
  assert (H : exists tr,
             exec docker_host
               (for_each lines
                  (fun line => if nonblank line then log (LogStatusLine line)
                               else Ret tt)) st
             = (st, tr, Fulfilled tt)).
  { induction lines as [|l lines [tr IH]]; [eexists; reflexivity|].
    cbn [for_each]. unfold_monad. rewrite exec_bind.
    destruct (nonblank l); cbn [log exec]; rewrite IH; eexists; reflexivity. }
  destruct H as [tr H]. rewrite H. eexists. reflexivity.
Qed.

(** No container left by the clean-up bears a worker slot name. *)
Lemma slot_names_free (appName : string) (cs : list container) (i : Z) :
  existsb (named (worker_name appName i)) (without_workers appName cs) = false.
Proof.
  destruct (existsb _ _) eqn:E; [|reflexivity].
  apply existsb_exists in E. destruct E as [x [Hin Hn]].
  unfold without_workers in Hin. apply filter_In in Hin.
  destruct Hin as [_ Hl]. unfold named in Hn. apply String.eqb_eq in Hn.
  unfold listed in Hl. rewrite Hn, filter_matches_worker_name in Hl.
  discriminate Hl.
Qed.

(** One server's reconciliation on the Docker host ends normally in the
    state [reconciled]. *)
Lemma reconcile_on_docker (serverName appName : string)
  (appPort startingPort cores : number) (st : dockerd) :
  exists tr,
    exec docker_host
      (reconcile serverName appName appPort startingPort cores) st
    = (reconciled appName startingPort cores st, tr, Fulfilled tt).
Proof.
  unfold reconcile, reconciled.
  destruct (num_le cores (of_Z 1)); unfold_monad.
  - cbn [log prog_bind exec]. rewrite exec_bind.
    destruct (proj1 (cleanup_on_docker serverName appName st)) as [tr E].
    rewrite E. cbn [exec]. eexists. reflexivity.
  - rewrite exec_catch, exec_run_bind.
    cbn [respond docker_host respond_docker].
    destruct (find (named appName) (containers st)) as [primary|];
      [|cbn [exec log]; eexists; reflexivity].
    cbv zeta.
    destruct (String.eqb (trim (c_image primary ++ nl)) "");
      [cbn [exec log]; eexists; reflexivity|].
    cbn [log prog_bind exec]. rewrite exec_bind.
    destruct (proj2 (cleanup_on_docker serverName appName st)) as [trc Ec].
    rewrite Ec. cbn [log prog_bind exec]. rewrite exec_bind.
    unfold startSlots.
    match goal with
    | |- context [exec docker_host (for_each _ _) ?st1] =>
        destruct (@slots_on_docker serverName appName appPort startingPort
                    (trim (c_image primary ++ nl)) (worker_slots cores) st1)
          as [trs Es]
    end.
    + apply for_indices_NoDup.
    + intros i _. cbn [containers with_containers]. apply slot_names_free.
    + rewrite Es. cbn [containers with_containers port_busy].
      match goal with
      | |- context [exec docker_host _ ?st2] =>
          destruct (status_on_docker serverName appName st2) as [trf Ef]
      end.
      match goal with
      | |- context [exec docker_host ?p ?st2] =>
          match type of Ef with
          | exec docker_host ?q st2 = _ => change p with q
          end
      end.
      rewrite Ef. unfold new_workers. eexists. reflexivity.
Qed.
Lemma without_workers_idem (appName : string) (cs : list container) :
  without_workers appName (without_workers appName cs)
  = without_workers appName cs.
Proof.
  unfold without_workers. induction cs as [|x cs IH]; [reflexivity|].
  cbn [filter]. destruct (listed true (worker_filter appName) x) eqn:E; cbn.
  - exact IH.
  - rewrite E. cbn. rewrite IH. reflexivity.
Qed.

Lemma without_workers_app (appName : string) (cs1 cs2 : list container) :
  without_workers appName (cs1 ++ cs2)
  = (without_workers appName cs1 ++ without_workers appName cs2)%list.
Proof. unfold without_workers. apply filter_app. Qed.

Lemma without_workers_new (appName actualImage : string)
  (startingPort cores : number) (busy : number -> bool) :
  without_workers appName
    (new_workers appName actualImage startingPort cores busy) = [].
Proof.
  unfold without_workers, new_workers.
  induction (worker_slots cores) as [|i rest IH]; [reflexivity|].
  cbn [map filter]. unfold listed at 1. cbn [c_name].
  rewrite filter_matches_worker_name. cbn. exact IH.
Qed.

Lemma listed_new_workers (appName actualImage : string)
  (startingPort cores : number) (busy : number -> bool) :
  filter (listed true (worker_filter appName))
    (new_workers appName actualImage startingPort cores busy)
  = new_workers appName actualImage startingPort cores busy.
Proof.
  unfold new_workers.
  induction (worker_slots cores) as [|i rest IH]; [reflexivity|].
  cbn [map filter]. unfold listed at 1. cbn [c_name].
  rewrite filter_matches_worker_name. cbn. rewrite IH. reflexivity.
Qed.

Lemma listed_without_workers (appName : string) (cs : list container) :
  filter (listed true (worker_filter appName)) (without_workers appName cs)
  = [].
Proof.
  unfold without_workers. induction cs as [|x cs IH]; [reflexivity|].
  cbn [filter]. destruct (listed true (worker_filter appName) x) eqn:E; cbn.
  - exact IH.
  - rewrite E. exact IH.
Qed.

Lemma primary_not_listed (appName : string) (x : container) :
  named appName x = true -> listed true (worker_filter appName) x = false.
Proof.
  unfold named, listed. intros H. apply String.eqb_eq in H. rewrite H.
  rewrite filter_misses_primary. reflexivity.
Qed.

(** The clean-up keeps the primary where it is. *)
Lemma find_primary_without_workers (appName : string) (cs : list container) :
  find (named appName) (without_workers appName cs)
  = find (named appName) cs.
Proof.
  unfold without_workers. induction cs as [|x cs IH]; [reflexivity|].
  cbn [filter find]. destruct (named appName x) eqn:En.
  - rewrite (primary_not_listed _ _ En). cbn [negb find]. rewrite En.
    reflexivity.
  - destruct (listed true (worker_filter appName) x); cbn [negb find].
    + exact IH.
    + rewrite En. exact IH.
Qed.

Lemma find_app {A : Type} (f : A -> bool) (l1 l2 : list A) :
  find f (l1 ++ l2)
  = match find f l1 with Some x => Some x | None => find f l2 end.
Proof.
  induction l1 as [|x l1 IH]; [reflexivity|]. cbn [app find].
  destruct (f x); [reflexivity | exact IH].
Qed.

Lemma find_primary_new_workers (appName actualImage : string)
  (startingPort cores : number) (busy : number -> bool) :
  find (named appName)
    (new_workers appName actualImage startingPort cores busy) = None.
Proof.
  unfold new_workers.
  induction (worker_slots cores) as [|i rest IH]; [reflexivity|].
  cbn [map find]. unfold named at 1. cbn [c_name].
  rewrite worker_name_not_primary. exact IH.
Qed.

(** Reconciling a reconciled host changes nothing. *)
Lemma reconciled_idem (appName : string) (startingPort cores : number)
  (st : dockerd) :
  reconciled appName startingPort cores
    (reconciled appName startingPort cores st)
  = reconciled appName startingPort cores st.
Proof.
  unfold reconciled. destruct (num_le cores (of_Z 1)).
  - cbn [containers with_containers]. rewrite without_workers_idem.
    reflexivity.
  - destruct (find (named appName) (containers st)) as [primary|] eqn:Ef.
    + cbv zeta.
      destruct (String.eqb (trim (c_image primary ++ nl)) "") eqn:Ei.
      * rewrite Ef. cbv zeta. rewrite Ei. reflexivity.
      * cbn [containers with_containers port_busy].
        rewrite find_app, find_primary_without_workers, Ef. cbv zeta.
        rewrite Ei, without_workers_app.
        rewrite without_workers_idem, without_workers_new, app_nil_r.
        reflexivity.
    + rewrite Ef. reflexivity.
Qed.

Lemma nproc_output_reconciled (appName : string) (startingPort cores : number)
  (st : dockerd) :
  nproc_output (reconciled appName startingPort cores st) = nproc_output st.
Proof.
  unfold reconciled. destruct (num_le cores (of_Z 1)); [reflexivity|].
  destruct (find (named appName) (containers st)) as [primary|];
    [|reflexivity].
  cbv zeta. destruct (String.eqb (trim (c_image primary ++ nl)) "");
    reflexivity.
Qed.

(** A whole pass for one server on the Docker host, core detection
    included. *)
Lemma startWorkersOn_on_docker (serverConfigs : server_table) (config : Config)
  (appName serverName : string) (st : dockerd) :
  exists tr,
    exec docker_host
      (startWorkersOn serverConfigs config appName serverName) st
    = (reconciled appName (getStartingPort serverConfigs config serverName)
         (resolved_cores (getInstanceCount serverConfigs config serverName) st)
         st,
       tr, Fulfilled tt).
Proof.
  unfold startWorkersOn. cbv zeta. unfold_monad. rewrite exec_bind.
  destruct (getInstanceCount serverConfigs config serverName) as [|n];
    cbn [resolveCores resolved_cores].
  - rewrite (@detectCores_answered _ docker_host st st serverName
               (nproc_output st) eq_refl).
    destruct (reconcile_on_docker serverName appName (getAppPort config)
                (getStartingPort serverConfigs config serverName)
                (parseInt (trim (nproc_output st))) st) as [tr E].
    rewrite E. eexists. reflexivity.
  - unfold_monad. cbn [exec].
    destruct (reconcile_on_docker serverName appName (getAppPort config)
                (getStartingPort serverConfigs config serverName) n st)
      as [tr E].
    rewrite E. eexists. reflexivity.
Qed.

(** After a pass that found the primary's image, the replica inventory is
    exactly the slots with their ports; with one core or none it is
    empty. *)
Lemma inventory_of_reconciled (appName : string) (startingPort cores : number)
  (st : dockerd) :
  (num_le cores (of_Z 1) = true ->
   worker_inventory appName (reconciled appName startingPort cores st) = [])
  /\ (forall primary,
        num_le cores (of_Z 1) = false ->
        find (named appName) (containers st) = Some primary ->
        String.eqb (trim (c_image primary ++ nl)) "" = false ->
        worker_inventory appName (reconciled appName startingPort cores st)
        = map (fun i => (worker_name appName i, slot_port startingPort i))
            (worker_slots cores)).
Proof.
  unfold worker_inventory, reconciled. split.
  - intros ->. cbn [containers with_containers].
    rewrite listed_without_workers. reflexivity.
  - intros primary -> -> Hi. cbv zeta. rewrite Hi.
    cbn [containers with_containers].
    rewrite filter_app, listed_without_workers, listed_new_workers.
    cbn [app]. unfold new_workers. rewrite map_map. reflexivity.
Qed.

End DockerFacts.

(** C6: on a Docker host that stays reachable, a reconciliation pass for
    one server ends normally, and a second pass with the same settings on
    the host the first pass left ends normally in the very same host state:
    the same replica inventory, name by name and port by port. *)
Theorem reconciliation_idempotent (serverConfigs : server_table)
  (config : Config) (appName serverName : string) (st : Docker.dockerd) :
  let pass := fun host_state =>
    exec Docker.docker_host
      (startWorkersOn serverConfigs config appName serverName) host_state in
  let once := final_state (pass st) in
  let twice := final_state (pass once) in
  result (pass st) = Fulfilled tt /\
  result (pass once) = Fulfilled tt /\
  Docker.worker_inventory appName twice = Docker.worker_inventory appName once /\
  twice = once.
Proof.
  cbv zeta.
  destruct (DockerFacts.startWorkersOn_on_docker serverConfigs config appName
              serverName st) as [tr1 E1].
  rewrite E1. cbn [final_state result fst snd].
  match goal with
  | |- context [exec Docker.docker_host _ ?st1] =>
      destruct (DockerFacts.startWorkersOn_on_docker serverConfigs config
                  appName serverName st1) as [tr2 E2]
  end.
  rewrite E2. cbn [final_state result fst snd].
  assert (Hc : Docker.resolved_cores
                 (getInstanceCount serverConfigs config serverName)
                 (Docker.reconciled appName
                    (getStartingPort serverConfigs config serverName)
                    (Docker.resolved_cores
                       (getInstanceCount serverConfigs config serverName) st)
                    st)
               = Docker.resolved_cores
                   (getInstanceCount serverConfigs config serverName) st).
  { destruct (getInstanceCount serverConfigs config serverName);
      cbn [Docker.resolved_cores]; [|reflexivity].
    rewrite DockerFacts.nproc_output_reconciled. reflexivity. }
  rewrite Hc, DockerFacts.reconciled_idem. repeat split.
Qed.

(* ===================================================================== *)
(** * Removal precedes creation: the amended claim (C3) *)
(* ===================================================================== *)

(** C3 (amended): in any run of one server's reconciliation, whatever the
    host answers, once a [docker run] is sent no stop or remove follows it,
    and the clean-up is complete before it: the inventory query; when the
    query listed containers, the stop of everything the worker filter lists
    and, once that was answered, the remove of everything it lists (the
    filter covers every slot number); and whenever the query or one of the
    filter-wide commands was rejected, the stop and remove by name of the
    slots 1 to 10, and of those only.  A pass for a count of at most 1
    creates nothing and sends the commands of the same clean-up.  On a
    Docker host that answers every command, the inventory after a pass that
    found the image holds the new slots and nothing else, and after a pass
    for a count of at most 1 it is empty. *)
Theorem removal_precedes_creation {S : Type} (h : host S) (st : S)
  (serverName appName : string) (appPort startingPort cores : number) :
  let run :=
    exec h (reconcile serverName appName appPort startingPort cores) st in
  (forall pre s c r post,
     trace run = (pre ++ Ran s c r :: post)%list ->
     is_create c = true ->
     (forall s' c' r', In (Ran s' c' r') post -> is_removal c' = false)
     /\ cleaned serverName appName pre)
  /\ (num_le cores (of_Z 1) = true ->
      created (trace run) = []
      /\ commands (trace run)
         = commands (trace (exec h (cleanupBeforeStart serverName appName) st))
      /\ (result run = Fulfilled tt ->
          cleaned serverName appName (trace run)))
  /\ (forall i,
        touches (StopWorkers true true appName) (worker_name appName i) = true
        /\ touches (RmWorkers true appName) (worker_name appName i) = true)
  /\ (forall docker : Docker.dockerd,
        let on_docker :=
          exec Docker.docker_host
            (reconcile serverName appName appPort startingPort cores) docker in
        (num_le cores (of_Z 1) = true ->
         Docker.worker_inventory appName (final_state on_docker) = [])
        /\ (forall primary,
              num_le cores (of_Z 1) = false ->
              find (Docker.named appName) (Docker.containers docker)
              = Some primary ->
              String.eqb (trim (Docker.c_image primary ++ nl)) "" = false ->
              Docker.worker_inventory appName (final_state on_docker)
              = map (fun i => (worker_name appName i,
                               slot_port startingPort i))
                  (worker_slots cores))).
Proof.
  cbv zeta. split; [|split; [|split]].
  - intros pre s c r post Et Hc.
    assert (Hin : In (s, c)
                    (created (trace (exec h (reconcile serverName appName
                                               appPort startingPort cores)
                                       st)))).
    { rewrite Et. apply kind_in_trace. exact Hc. }
    destruct (num_le cores (of_Z 1)) eqn:Hle.
    { rewrite created_single_core in Hin
        by (apply worker_slots_single_core; exact Hle).
      contradiction. }
    destruct (reconcile_shape h st serverName appName appPort startingPort
                cores Hle)
      as [E|[out [st1 [st2 [trc [tail [_ [Ecl [Etr [_ Rt]]]]]]]]]].
    { rewrite E in Hin. contradiction. }
    assert (Hcl : created trc = []).
    { pose proof (no_command_of_kind is_create
                    (sends_trace h st1
                       (sends_cleanupBeforeStart
                          (fun _ c => is_create c = false) serverName appName
                          eq_refl eq_refl eq_refl (fun _ => eq_refl)
                          (fun _ => eq_refl)))) as H.
      rewrite Ecl in H. exact H. }
    rewrite Et in Etr.
    change (Ran serverName (InspectImage appName) (Output out)
              :: Logged (LogUsingImage serverName (trim out))
              :: trc ++ tail)%list
      with (([Ran serverName (InspectImage appName) (Output out);
              Logged (LogUsingImage serverName (trim out))] ++ trc)
              ++ tail)%list
      in Etr.
    symmetry in Etr.
    apply split_after_prefix in Etr; [|exact Hc|].
    2:{ rewrite created_app, Hcl. reflexivity. }
    destruct Etr as [pre' [-> ->]].
    split.
    + intros s' c' r' Hp. destruct (is_removal c') eqn:Hr; [|reflexivity].
      assert (Hx : In (s', c') (removals (pre' ++ Ran s c r :: post))).
      { apply filter_In. split; [|exact Hr]. apply in_commands. exists r'.
        apply in_or_app. right. right. exact Hp. }
      rewrite Rt in Hx. contradiction.
    + apply (cleaned_incl (tr := trc)).
      * intros x Hx. apply in_or_app. left. apply in_or_app. right. exact Hx.
      * exact (proj1 (cleanup_cleaned h serverName appName st1 st2 trc) Ecl).
  - intros Hle.
    split; [apply created_single_core, worker_slots_single_core; exact Hle|].
    destruct (cleanups_agree h serverName appName st) as [Hc [_ _]].
    cbv zeta in Hc. rewrite <- Hc.
    pose proof (fun st2 trc =>
                  proj2 (cleanup_cleaned h serverName appName st st2 trc))
      as Hcl.
    unfold reconcile. rewrite Hle. unfold_monad.
    cbn [log prog_bind exec]. rewrite exec_bind.
    destruct (exec h (cleanupSingleCore serverName appName) st)
      as [[st2 trc] [[]|e]]; cbn [exec log trace result fst snd app].
    + split.
      * change (commands (Logged (LogSingleCore serverName)
                            :: trc
                            ++ [Logged (LogNoWorkersNeeded serverName)]))
          with (commands (trc ++ [Logged (LogNoWorkersNeeded serverName)])).
        rewrite commands_app. apply app_nil_r.
      * intros _. apply (cleaned_incl (tr := trc)).
        -- intros x Hx. right. apply in_or_app. left. exact Hx.
        -- apply (Hcl st2 trc). reflexivity.
    + split; [reflexivity | intros E; discriminate E].
  - intros i. unfold touches. cbn [mutation].
    rewrite filter_matches_worker_name. split; reflexivity.
  - intros docker.
    destruct (DockerFacts.reconcile_on_docker serverName appName appPort
                startingPort cores docker) as [tr E].
    rewrite E. cbn [final_state fst].
    split.
    + apply DockerFacts.inventory_of_reconciled.
    + intros primary. apply DockerFacts.inventory_of_reconciled.
Qed.

(** In the run against the stale worker of slot 7, everything after the
    first [docker run] is free of stop and remove commands. *)
Lemma removal_precedes_creation_witness :
  Forall (fun e => match e with
                   | Ran _ c _ => is_removal c = false
                   | Logged _ => True
                   end)
    (skipn 8 (trace run_stale_worker)).
Proof.
  apply Forall_forall. intros [s' c' r'|l] Hin; [|exact I].
  revert s' c' r' Hin.
  refine (proj1 (proj1 (@removal_precedes_creation _ Docker.docker_host
                          docker_stale_worker "web1" "myapp" (of_Z 3000)
                          (of_Z 3001) (of_Z 3))
                   (firstn 7 (trace run_stale_worker)) "web1"
                   (runCmd "web1" "myapp" (of_Z 3000) (of_Z 3001)
                      "sha256:1f2e" 1)
                   (Output "id-myapp-worker-1")
                   (skipn 8 (trace run_stale_worker)) _ _)).
  - vm_compute. reflexivity.
  - reflexivity.
Defined.

(** C3, the claim as stated, fails: the filter-wide stop does not arrive,
    the clean-up goes on by name through slots 1 to 10, and the pass
    creates [myapp-worker-1] while [myapp-worker-11], found by the
    inventory query, is still there with its port binding. *)
Lemma stale_worker_survives :
  ~ inventory_removed_before_creation (docker_host_losing is_filter_stop)
      docker_slot_11 "web1" "myapp" (of_Z 3000) (of_Z 3001) (of_Z 2).
Proof.
  unfold inventory_removed_before_creation. intros H.
  destruct (H ltac:(vm_compute; discriminate)
              ("myapp-worker-11", of_Z 3011)
              ltac:(vm_compute; auto) ltac:(vm_compute; auto))
    as [c [Hin Hm]].
  vm_compute in Hin. destruct Hin as [E|[]].
  injection E as <-. discriminate Hm.
Qed.

(* ===================================================================== *)
(** * Server selection ([getFilteredServers]) *)
(* ===================================================================== *)

Lemma assoc_obj_set_same {A : Type} (k : string) (v : A)
  (l : list (string * A)) :
  assoc k (obj_set k v l) = Some v.
Proof.
  induction l as [|[k' v'] l IH]; cbn [obj_set assoc].
  - rewrite String.eqb_refl. reflexivity.
  - destruct (String.eqb k k') eqn:E; cbn [assoc]; rewrite E;
      [reflexivity | exact IH].
Qed.

Lemma assoc_obj_set_other {A : Type} (k n : string) (v : A)
  (l : list (string * A)) :
  n <> k -> assoc n (obj_set k v l) = assoc n l.
Proof.
  intros Hne. induction l as [|[k' v'] l IH]; cbn [obj_set assoc].
  - apply String.eqb_neq in Hne. rewrite Hne. reflexivity.
  - destruct (String.eqb k k') eqn:E; cbn [assoc].
    + apply String.eqb_eq in E. subst k'.
      apply String.eqb_neq in Hne. rewrite Hne. reflexivity.
    + rewrite IH. reflexivity.
Qed.

Lemma assoc_in_keys {A : Type} (n : string) (l : list (string * A)) :
  In n (map fst l) <-> assoc n l <> None.
Proof.
  induction l as [|[k v] l IH]; cbn [map assoc In fst].
  - split; [contradiction | congruence].
  - destruct (String.eqb n k) eqn:E.
    + apply String.eqb_eq in E. subst k. split; [discriminate | auto].
    + apply String.eqb_neq in E. rewrite <- IH. split.
      * intros [H|H]; [congruence | exact H].
      * auto.
Qed.

Lemma keys_obj_set {A : Type} (k : string) (v : A) (l : list (string * A)) :
  map fst (obj_set k v l)
  = if mentions (map fst l) k then map fst l else (map fst l ++ [k])%list.
Proof.
  unfold mentions. induction l as [|[k' v'] l IH]; cbn [obj_set map fst existsb].
  - reflexivity.
  - destruct (String.eqb k k') eqn:E; cbn [map fst orb app].
    + reflexivity.
    + rewrite IH. destruct (existsb (String.eqb k) (map fst l)); reflexivity.
Qed.

Lemma mentions_In (names : list string) (n : string) :
  mentions names n = true <-> In n names.
Proof.
  unfold mentions. rewrite existsb_exists. split.
  - intros [x [Hin E]]. apply String.eqb_eq in E. subst x. exact Hin.
  - intros H. exists n. split; [exact H | apply String.eqb_refl].
Qed.

Lemma NoDup_keys_obj_set {A : Type} (k : string) (v : A)
  (l : list (string * A)) :
  NoDup (map fst l) -> NoDup (map fst (obj_set k v l)).
Proof.
  intros H. rewrite keys_obj_set.
  destruct (mentions (map fst l) k) eqn:E; [exact H|].
  apply NoDup_app; [exact H | repeat constructor; intros [] | ].
  intros x Hx [<-|[]]. apply mentions_In in Hx. congruence.
Qed.

(** The [forEach] of [getFilteredServers], from any partial result. *)
Lemma filter_fold (allServers : list (string * ServerEntry))
  (names : list string) (acc : list (string * ServerEntry)) :
  let result :=
    fold_left
      (fun filteredServers serverName =>
         match lookup_server allServers serverName with
         | Some entry => obj_set serverName entry filteredServers
         | None => filteredServers
         end) names acc in
  (forall n,
     assoc n result
     = if mentions names n
       then match lookup_server allServers n with
            | Some e => Some e
            | None => assoc n acc
            end
       else assoc n acc)
  /\ (NoDup (map fst acc) -> NoDup (map fst result)).
Proof.
  cbv zeta. revert acc. induction names as [|k names IH]; intros acc.
  - split; [reflexivity | auto].
  - cbn [fold_left]. unfold mentions. cbn [existsb]. fold (mentions names).
    destruct (lookup_server allServers k) as [e|] eqn:Ek.
    + destruct (IH (obj_set k e acc)) as [Hl Hn]. split.
      * intros n. rewrite Hl. destruct (String.eqb n k) eqn:E; cbn [orb].
        -- apply String.eqb_eq in E. subst n. rewrite Ek, assoc_obj_set_same.
           destruct (mentions names k); reflexivity.
        -- apply String.eqb_neq in E. rewrite (assoc_obj_set_other _ _ E).
           reflexivity.
      * intros H. apply Hn. apply NoDup_keys_obj_set. exact H.
    + destruct (IH acc) as [Hl Hn]. split; [|exact Hn].
      intros n. rewrite Hl. destruct (String.eqb n k) eqn:E; cbn [orb];
        [|reflexivity].
      apply String.eqb_eq in E. subst n. rewrite Ek.
      destruct (mentions names k); reflexivity.
Qed.

(** X1: with an array filter, looking a name up in the selection gives what
    [allServers[name]] gives when the name is in the filter, and nothing
    otherwise.  So the selected names are names of the filter that are
    configured servers or names every object inherits (such as
    [constructor], which is selected although no such server exists);
    other unknown names are dropped silently, an empty array selects no
    server, and no name is selected twice. *)
Theorem selection_by_array (a : App) (names : list string) :
  let selection := getFilteredServers a (FilterArray names) in
  (forall n,
     assoc n selection
     = if mentions names n then lookup_server (all_servers a) n else None)
  /\ NoDup (map fst selection)
  /\ (forall n,
        In n (map fst selection) <->
        In n names
        /\ (In n (map fst (all_servers a)) \/ In n inherited_names))
  /\ getFilteredServers a (FilterArray []) = [].
Proof.
  cbv zeta. unfold getFilteredServers. fold (all_servers a).
  destruct (filter_fold (all_servers a) names []) as [Hl Hn]. cbv zeta in Hl, Hn.
  assert (Hlook : forall n,
            assoc n
              (fold_left
                 (fun filteredServers serverName =>
                    match lookup_server (all_servers a) serverName with
                    | Some entry => obj_set serverName entry filteredServers
                    | None => filteredServers
                    end) names [])
            = if mentions names n then lookup_server (all_servers a) n
              else None).
  { intros n. rewrite Hl. cbn [assoc].
    destruct (mentions names n); [|reflexivity].
    destruct (lookup_server (all_servers a) n); reflexivity. }
  assert (Hfound : forall n,
            lookup_server (all_servers a) n <> None <->
            In n (map fst (all_servers a)) \/ In n inherited_names).
  { intros n. unfold lookup_server.
    destruct (assoc n (all_servers a)) as [e|] eqn:En.
    - split; [|discriminate]. intros _. left. apply assoc_in_keys. congruence.
    - destruct (existsb (String.eqb n) inherited_names) eqn:Ei.
      + split; [|discriminate]. intros _. right.
        apply existsb_exists in Ei. destruct Ei as [x [Hx Ex]].
        apply String.eqb_eq in Ex. subst x. exact Hx.
      + split; [congruence|]. intros [Hin|Hin].
        * apply assoc_in_keys in Hin. congruence.
        * exfalso.
          assert (Ht : existsb (String.eqb n) inherited_names = true).
          { apply existsb_exists. exists n. split; [exact Hin|].
            apply String.eqb_refl. }
          congruence. }
  split; [exact Hlook|]. split; [apply Hn; constructor|]. split; [|reflexivity].
  intros n. rewrite assoc_in_keys, Hlook. split.
  - intros Hin. destruct (mentions names n) eqn:E; [|congruence].
    split; [apply mentions_In; exact E | apply Hfound; exact Hin].
  - intros [Hin Hf]. apply mentions_In in Hin. rewrite Hin.
    apply Hfound. exact Hf.
Qed.

Lemma append_empty_r (s : string) : (s ++ "")%string = s.
Proof.
  induction s as [|c s IH]; cbn; [reflexivity | rewrite IH; reflexivity].
Qed.

Lemma split_aux_no_sep (s rest cur : string) :
  has_comma s = false ->
  split_aux ","%char cur (s ++ rest)
  = split_aux ","%char (cur ++ s) rest.
Proof.
  revert cur. induction s as [|c s IH]; intros cur H.
  - cbn [append]. rewrite append_empty_r. reflexivity.
  - cbn [has_comma] in H. apply orb_false_iff in H. destruct H as [Hc Hs].
    cbn [append split_aux]. rewrite Hc. rewrite IH by exact Hs.
    rewrite append_assoc. reflexivity.
Qed.

Lemma split_comma_concat (names : list string) :
  names <> [] ->
  (forall n, In n names -> has_comma n = false) ->
  split_comma (String.concat "," names) = names.
Proof.
  unfold split_comma, split.
  assert (G : forall cur,
             names <> [] ->
             (forall n, In n names -> has_comma n = false) ->
             split_aux ","%char cur (String.concat "," names)
             = match names with
               | [] => []
               | x :: rest => (cur ++ x)%string :: rest
               end).
  { induction names as [|x rest IH]; intros cur Hne Hc; [congruence|].
    destruct rest as [|y rest'].
    - cbn [String.concat].
      rewrite <- (append_empty_r x) at 1.
      rewrite split_aux_no_sep by (apply Hc; left; reflexivity).
      reflexivity.
    - change (String.concat "," (x :: y :: rest'))
        with (x ++ String ","%char (String.concat "," (y :: rest')))%string.
      rewrite split_aux_no_sep by (apply Hc; left; reflexivity).
      cbn [split_aux]. cbn [Ascii.eqb Bool.eqb andb].
      rewrite IH; [reflexivity | discriminate |].
      intros n Hn. apply Hc. right. exact Hn. }
  intros Hne Hc. rewrite G by assumption.
  destruct names; [congruence | reflexivity].
Qed.

(** X3: names joined by commas select the same servers as the array of
    those names: [split(',')] undoes the join when no name holds a comma
    and the joined string is not empty. *)
Theorem selection_by_string (a : App) (names : list string) :
  names <> [] ->
  (forall n, In n names -> has_comma n = false) ->
  String.concat "," names <> "" ->
  split_comma (String.concat "," names) = names
  /\ getFilteredServers a (FilterString (String.concat "," names))
     = getFilteredServers a (FilterArray names).
Proof.
  intros Hne Hc Hs. pose proof (split_comma_concat Hne Hc) as E.
  split; [exact E|]. unfold getFilteredServers.
  apply String.eqb_neq in Hs. rewrite Hs, E. reflexivity.
Qed.

Lemma selection_by_string_witness :
  getFilteredServers app_three (FilterString "web1,nosuch,worker1")
  = getFilteredServers app_three (FilterArray ["web1"; "nosuch"; "worker1"]).
Proof.
  refine (proj2 (@selection_by_string app_three ["web1"; "nosuch"; "worker1"]
                   _ _ _)).
  - discriminate.
  - intros n [<-|[<-|[<-|[]]]]; reflexivity.
  - discriminate.
Defined.

(* ===================================================================== *)
(** * The override table ([prepareConfig]) *)
(* ===================================================================== *)

Lemma assoc_of_In {A : Type} (n : string) (v : A) (l : list (string * A)) :
  NoDup (map fst l) -> In (n, v) l -> assoc n l = Some v.
Proof.
  induction l as [|[k w] l IH]; intros Hnd Hin; [contradiction|].
  cbn [map fst] in Hnd. inversion Hnd as [|? ? Hk Hnd']; subst.
  cbn [assoc]. destruct Hin as [E|Hin].
  - injection E as -> ->. rewrite String.eqb_refl. reflexivity.
  - destruct (String.eqb n k) eqn:E; [|apply IH; assumption].
    apply String.eqb_eq in E. subst k. exfalso. apply Hk.
    apply in_map_iff. exists (n, v). split; [reflexivity | exact Hin].
Qed.

Lemma keys_obj_set_present {A : Type} (k : string) (v : A)
  (l : list (string * A)) :
  assoc k l <> None -> map fst (obj_set k v l) = map fst l.
Proof.
  intros H. rewrite keys_obj_set.
  apply assoc_in_keys in H. apply mentions_In in H. rewrite H. reflexivity.
Qed.

(** The [forEach] of [prepareConfig] over a list of names, from any table
    and any servers object. *)
Lemma prepare_fold (names : list string) (table : server_table)
  (servers : list (string * ServerEntry)) :
  let result := fold_left prepareConfig_step names (table, servers) in
  (forall n,
     assoc n (fst result)
     = if mentions names n
       then match assoc n servers with
            | Some (mkServerEntry (Some mc)) => Some mc
            | _ => assoc n table
            end
       else assoc n table)
  /\ (forall n,
        assoc n (snd result)
        = if mentions names n
          then match assoc n servers with
               | Some _ => Some (mkServerEntry None)
               | None => None
               end
          else assoc n servers)
  /\ map fst (snd result) = map fst servers.
Proof.
  cbv zeta. revert table servers.
  induction names as [|k names IH]; intros table servers.
  - repeat split.
  - cbn [fold_left]. unfold mentions. cbn [existsb]. fold (mentions names).
    destruct (assoc k servers) as [[[mc|]]|] eqn:Ek;
      [ assert (Estep : prepareConfig_step (table, servers) k
                        = (obj_set k mc table,
                           obj_set k (mkServerEntry None) servers))
          by (unfold prepareConfig_step; rewrite Ek; reflexivity)
      | assert (Estep : prepareConfig_step (table, servers) k
                        = (table, servers))
          by (unfold prepareConfig_step; rewrite Ek; reflexivity)
      | assert (Estep : prepareConfig_step (table, servers) k
                        = (table, servers))
          by (unfold prepareConfig_step; rewrite Ek; reflexivity) ];
      rewrite Estep.
    + destruct (IH (obj_set k mc table) (obj_set k (mkServerEntry None) servers))
        as [Ht [Hs Hk]].
      split; [|split].
      * intros n. rewrite Ht. destruct (String.eqb n k) eqn:E; cbn [orb].
        -- apply String.eqb_eq in E. subst n.
           rewrite !assoc_obj_set_same, Ek.
           destruct (mentions names k); reflexivity.
        -- apply String.eqb_neq in E.
           rewrite !(assoc_obj_set_other _ _ E). reflexivity.
      * intros n. rewrite Hs. destruct (String.eqb n k) eqn:E; cbn [orb].
        -- apply String.eqb_eq in E. subst n.
           rewrite !assoc_obj_set_same, Ek.
           destruct (mentions names k); reflexivity.
        -- apply String.eqb_neq in E.
           rewrite !(assoc_obj_set_other _ _ E). reflexivity.
      * etransitivity; [exact Hk | apply keys_obj_set_present; congruence].
    + destruct (IH table servers) as [Ht [Hs Hk]].
      split; [|split; [|exact Hk]].
      * intros n. rewrite Ht. destruct (String.eqb n k) eqn:E; cbn [orb];
          [|reflexivity].
        apply String.eqb_eq in E. subst n. rewrite Ek.
        destruct (mentions names k); reflexivity.
      * intros n. rewrite Hs. destruct (String.eqb n k) eqn:E; cbn [orb];
          [|reflexivity].
        apply String.eqb_eq in E. subst n. rewrite Ek.
        destruct (mentions names k); reflexivity.
    + destruct (IH table servers) as [Ht [Hs Hk]].
      split; [|split; [|exact Hk]].
      * intros n. rewrite Ht. destruct (String.eqb n k) eqn:E; cbn [orb];
          [|reflexivity].
        apply String.eqb_eq in E. subst n. rewrite Ek.
        destruct (mentions names k); reflexivity.
      * intros n. rewrite Hs. destruct (String.eqb n k) eqn:E; cbn [orb];
          [|reflexivity].
        apply String.eqb_eq in E. subst n. rewrite Ek.
        destruct (mentions names k); reflexivity.
Qed.

Lemma prepareConfig_unfold (serverConfigs : server_table) (config : Config)
  (a : App) (servers : list (string * ServerEntry)) :
  cfg_app config = Some a ->
  app_servers a = Some servers ->
  prepareConfig serverConfigs config
  = (fst (fold_left prepareConfig_step (map fst servers) ([], servers)),
     mkConfig
       (Some (mkApp (app_name a) (app_env_PORT a) (app_docker a)
                (Some (snd (fold_left prepareConfig_step (map fst servers)
                              ([], servers))))))
       (cfg_multiCore config)).
Proof.
  intros Ha Hs. unfold prepareConfig. rewrite Ha, Hs.
  destruct (fold_left prepareConfig_step (map fst servers) ([], servers)).
  reflexivity.
Qed.

(** What [prepareConfig] does to the table and to the configuration. *)
Lemma prepareConfig_effect (serverConfigs : server_table)
  (config : Config) (a : App) (servers : list (string * ServerEntry)) :
  cfg_app config = Some a ->
  app_servers a = Some servers ->
  NoDup (map fst servers) ->
  let table := fst (prepareConfig serverConfigs config) in
  let config' := snd (prepareConfig serverConfigs config) in
  (forall n,
     assoc n table
     = match assoc n servers with
       | Some entry => entry_multiCore entry
       | None => None
       end)
  /\ (exists a' servers',
        cfg_app config' = Some a'
        /\ app_servers a' = Some servers'
        /\ map fst servers' = map fst servers
        /\ (forall n entry, In (n, entry) servers' ->
                            entry_multiCore entry = None)
        /\ app_name a' = app_name a
        /\ getAppPort config' = getAppPort config)
  /\ cfg_multiCore config' = cfg_multiCore config.
Proof.
  intros Ha Hs Hnd. cbv zeta.
  rewrite (prepareConfig_unfold serverConfigs config Ha Hs). cbn [fst snd].
  destruct (prepare_fold (map fst servers) [] servers) as [Ht [Hc Hk]].
  cbv zeta in Ht, Hc, Hk. split; [|split; [|reflexivity]].
  - intros n. rewrite Ht. cbn [assoc].
    destruct (mentions (map fst servers) n) eqn:E.
    + destruct (assoc n servers) as [[[mc|]]|]; reflexivity.
    + destruct (assoc n servers) as [e|] eqn:En; [|reflexivity].
      exfalso. assert (Hin : In n (map fst servers))
        by (apply assoc_in_keys; congruence).
      apply mentions_In in Hin. congruence.
  - eexists. eexists. split; [reflexivity|]. split; [reflexivity|].
    split; [exact Hk|]. split; [|split; [reflexivity|]].
    + intros n entry Hin.
      assert (Hn : assoc n (snd (fold_left prepareConfig_step (map fst servers)
                                   ([], servers))) = Some entry).
      { pose proof Hnd as Hnd2. rewrite <- Hk in Hnd2.
        apply assoc_of_In; [exact Hnd2 | exact Hin]. }
      rewrite Hc in Hn.
      assert (Hm : mentions (map fst servers) n = true).
      { apply mentions_In. rewrite <- Hk. apply in_map_iff.
        exists (n, entry). split; [reflexivity | exact Hin]. }
      rewrite Hm in Hn. destruct (assoc n servers); [|discriminate].
      injection Hn as <-. reflexivity.
    + unfold getAppPort. rewrite Ha. reflexivity.
Qed.

(** X4: after [prepareConfig], the table holds for every server name
    exactly the [multiCore] block that server had in [app.servers] (whatever
    the table held before), the blocks are gone from the configuration, and
    the server names, their order and the global block are unchanged. *)
Theorem prepareConfig_moves_blocks (serverConfigs : server_table)
  (config : Config) (a : App) (servers : list (string * ServerEntry)) :
  cfg_app config = Some a ->
  app_servers a = Some servers ->
  NoDup (map fst servers) ->
  let table := fst (prepareConfig serverConfigs config) in
  let config' := snd (prepareConfig serverConfigs config) in
  (forall n,
     assoc n table
     = match assoc n servers with
       | Some entry => entry_multiCore entry
       | None => None
       end)
  /\ (exists a' servers',
        cfg_app config' = Some a'
        /\ app_servers a' = Some servers'
        /\ map fst servers' = map fst servers
        /\ (forall n entry, In (n, entry) servers' ->
                            entry_multiCore entry = None)
        /\ app_name a' = app_name a
        /\ getAppPort config' = getAppPort config)
  /\ cfg_multiCore config' = cfg_multiCore config.
Proof.
  intros Ha Hs Hnd. exact (prepareConfig_effect serverConfigs config Ha Hs Hnd).
Qed.

Lemma prepareConfig_moves_blocks_witness :
  assoc "worker1" (fst (prepareConfig [] config_three))
  = Some (mkMultiCore (Some (Count (of_Z 2))) (Some (of_Z 4001)) None).
Proof.
  rewrite (proj1 (@prepareConfig_moves_blocks [] config_three app_three
                    servers_three eq_refl eq_refl
                    ltac:(repeat constructor; cbn; intuition discriminate))
             "worker1").
  reflexivity.
Defined.

(** X5: the table is rebuilt from the configuration alone.  Preparing a
    configuration that was already prepared leaves an empty table: the
    per-server blocks were deleted by the first call, so every later
    look-up falls back to the global block; and a configuration without
    [app.servers] leaves the table of the previous configuration in
    place. *)
Theorem prepareConfig_twice (serverConfigs other : server_table)
  (config : Config) (a : App) (servers : list (string * ServerEntry)) :
  cfg_app config = Some a ->
  app_servers a = Some servers ->
  NoDup (map fst servers) ->
  let prepared := snd (prepareConfig serverConfigs config) in
  fst (prepareConfig other prepared) = []
  /\ (forall n,
        getInstanceCount (fst (prepareConfig other prepared)) prepared n
        = js_or_default (opt_field instances (cfg_multiCore config)) Auto)
  /\ (forall config0,
        (forall a0, cfg_app config0 = Some a0 -> app_servers a0 = None) ->
        prepareConfig other config0 = (other, config0)).
Proof.
  intros Ha Hs Hnd. cbv zeta.
  destruct (prepareConfig_effect serverConfigs config Ha Hs Hnd)
    as [_ [[a' [servers' [Ha' [Hs' [Hk [Hnone _]]]]]] Hg]].
  cbv zeta in *.
  assert (Hnd' : NoDup (map fst servers')) by (rewrite Hk; exact Hnd).
  destruct (prepareConfig_effect other
              (snd (prepareConfig serverConfigs config)) Ha' Hs' Hnd')
    as [Ht _]. cbv zeta in Ht.
  assert (Hnil : forall n,
            assoc n (fst (prepareConfig other
                            (snd (prepareConfig serverConfigs config)))) = None).
  { intros n. rewrite Ht. destruct (assoc n servers') as [e|] eqn:En;
      [|reflexivity].
    apply (Hnone n e). clear - En.
    induction servers' as [|[k w] l IH]; [discriminate|].
    cbn [assoc] in En. destruct (String.eqb n k) eqn:E.
    - apply String.eqb_eq in E. injection En as ->. subst k. left. reflexivity.
    - right. apply IH. exact En. }
  assert (Hempty : fst (prepareConfig other
                          (snd (prepareConfig serverConfigs config))) = []).
  { destruct (fst (prepareConfig other _)) as [|[k v] l] eqn:E; [reflexivity|].
    specialize (Hnil k). cbn [assoc] in Hnil. rewrite String.eqb_refl in Hnil.
    discriminate. }
  split; [exact Hempty|]. split.
  - intros n. unfold getInstanceCount. rewrite Hempty, Hg.
    cbn [assoc opt_field]. reflexivity.
  - intros config0 H0. unfold prepareConfig.
    destruct (cfg_app config0) as [a0|]; [|reflexivity].
    rewrite (H0 a0 eq_refl). reflexivity.
Qed.

Lemma prepareConfig_twice_witness :
  fst (prepareConfig [] (snd (prepareConfig [] config_three))) = []
  /\ getInstanceCount
       (fst (prepareConfig [] (snd (prepareConfig [] config_three))))
       (snd (prepareConfig [] config_three)) "worker1" = Auto.
Proof.
  pose proof (@prepareConfig_twice [] [] config_three app_three servers_three
                eq_refl eq_refl
                ltac:(repeat constructor; cbn; intuition discriminate)) as H.
  cbv zeta in H. destruct H as [H1 [H2 _]].
  split; [exact H1 | rewrite H2; reflexivity].
Defined.

(* ===================================================================== *)
(** * Effective settings: what the [||] chains compute *)
(* ===================================================================== *)

(** X6: the resolved [useNginx] is the disjunction of the per-server value
    and the global value, an undefined value counting as false: a server can
    switch nginx on for itself, and cannot switch it off once the global
    block switches it on. *)
Theorem useNginx_is_disjunction (serverConfigs : server_table)
  (config : Config) (serverName : string) :
  let own := opt_field useNginx (assoc serverName serverConfigs) in
  let global := opt_field useNginx (cfg_multiCore config) in
  shouldUseNginx serverConfigs config serverName
  = (match own with Some b => b | None => false end)
    || (match global with Some b => b | None => false end).
Proof.
  cbv zeta. unfold shouldUseNginx. rewrite js_or_chain.
  destruct (opt_field useNginx (assoc serverName serverConfigs)) as [[|]|];
    destruct (opt_field useNginx (cfg_multiCore config)) as [[|]|];
    reflexivity.
Qed.

(** X7: the resolved instance count, starting port and application port
    are never falsy: a configured 0 or [NaN] is replaced by the next level
    or by the default (['auto'], 3001, 3000), so the count a configuration
    yields is ['auto'] or a non-zero number. *)
Theorem resolved_values_are_truthy (serverConfigs : server_table)
  (config : Config) (serverName : string) :
  is_truthy (getInstanceCount serverConfigs config serverName) = true
  /\ is_truthy (getStartingPort serverConfigs config serverName) = true
  /\ is_truthy (getAppPort config) = true.
Proof.
  unfold getInstanceCount, getStartingPort, getAppPort.
  rewrite !js_or_chain. repeat split.
  - destruct (opt_field instances (assoc serverName serverConfigs)) as [x|];
      [destruct (is_truthy x) eqn:Ex; [exact Ex|]|];
      (destruct (opt_field instances (cfg_multiCore config)) as [y|];
       [destruct (is_truthy y) eqn:Ey; [exact Ey|]|]; reflexivity).
  - destruct (opt_field startingPort (assoc serverName serverConfigs)) as [x|];
      [destruct (is_truthy x) eqn:Ex; [exact Ex|]|];
      (destruct (opt_field startingPort (cfg_multiCore config)) as [y|];
       [destruct (is_truthy y) eqn:Ey; [exact Ey|]|]; reflexivity).
  - destruct (cfg_app config) as [a|]; [|reflexivity].
    unfold js_or_default. destruct (app_env_PORT a) as [x|]; [|reflexivity].
    destruct (is_truthy x) eqn:Ex; [exact Ex | reflexivity].
Qed.

(** X8: when a server has no truthy value of its own for a field (no block,
    the field not defined, or a falsy value), a truthy global value is the
    one resolved, for each of the three fields. *)
Theorem global_value_is_fallback (serverConfigs : server_table)
  (config : Config) (serverName : string) (global : MultiCore) :
  cfg_multiCore config = Some global ->
  (forall i,
     js_or (opt_field instances (assoc serverName serverConfigs)) None = None ->
     instances global = Some i -> is_truthy i = true ->
     getInstanceCount serverConfigs config serverName = i) /\
  (forall p,
     js_or (opt_field startingPort (assoc serverName serverConfigs)) None
     = None ->
     startingPort global = Some p -> is_truthy p = true ->
     getStartingPort serverConfigs config serverName = p) /\
  (forall b,
     js_or (opt_field useNginx (assoc serverName serverConfigs)) None = None ->
     useNginx global = Some b -> is_truthy b = true ->
     shouldUseNginx serverConfigs config serverName = b).
Proof.
  intros Hg. unfold getInstanceCount, getStartingPort, shouldUseNginx.
  rewrite Hg. cbn [opt_field].
  repeat split; intros x Hown Hx Ht; rewrite js_or_chain, Hx, Ht;
    unfold js_or in Hown.
  - destruct (opt_field instances (assoc serverName serverConfigs)) as [y|];
      [|reflexivity].
    destruct (is_truthy y); [discriminate Hown | reflexivity].
  - destruct (opt_field startingPort (assoc serverName serverConfigs)) as [y|];
      [|reflexivity].
    destruct (is_truthy y); [discriminate Hown | reflexivity].
  - destruct (opt_field useNginx (assoc serverName serverConfigs)) as [y|];
      [|reflexivity].
    destruct (is_truthy y); [discriminate Hown | reflexivity].
Qed.

Lemma global_value_is_fallback_witness :
  getInstanceCount (fst (prepareConfig [] config_two))
    (snd (prepareConfig [] config_two)) "web1" = Count (of_Z 2).
Proof.
  refine (proj1 (@global_value_is_fallback (fst (prepareConfig [] config_two))
                   (snd (prepareConfig [] config_two)) "web1"
                   (mkMultiCore (Some (Count (of_Z 2))) None None) eq_refl)
            (Count (of_Z 2)) _ _ _); reflexivity.
Defined.

(** Together with [prepareConfig]: a truthy value in a server's own block
    is the one the operations resolve for that server. *)
Lemma per_server_truthy_wins_witness :
  getStartingPort (fst (prepareConfig [] config_three))
    (snd (prepareConfig [] config_three)) "worker1" = of_Z 4001.
Proof.
  refine (proj1 (proj2 (@per_server_truthy_wins
                          (fst (prepareConfig [] config_three))
                          (snd (prepareConfig [] config_three)) "worker1"
                          (mkMultiCore (Some (Count (of_Z 2)))
                             (Some (of_Z 4001)) None) eq_refl))
            (of_Z 4001) _ _); reflexivity.
Defined.

(* ===================================================================== *)
(** * [parseInt] reads back what a template literal prints *)
(* ===================================================================== *)

Ltac read_digit :=
  cbn [parse_digits];
  match goal with
  | |- context [digit_of ?c] =>
      let v := eval vm_compute in (digit_of c) in
      change (digit_of c) with v
  end;
  cbv beta iota;
  match goal with
  | |- context [?k <? 10] => change (k <? 10) with true
  end;
  cbv iota.

Lemma parse_digits_acc (d : Decimal.uint) (acc : positive) :
  parse_digits 10 (NilEmpty.string_of_uint d) (Some (Zpos acc))
  = Some (Zpos (Pos.of_uint_acc d acc)).
Proof.
  revert acc.
  induction d as [|d IH|d IH|d IH|d IH|d IH|d IH|d IH|d IH|d IH|d IH];
    intros acc; cbn [NilEmpty.string_of_uint Pos.of_uint_acc];
    [reflexivity|..];
    read_digit; rewrite <- IH; do 2 f_equal; lia.
Qed.

Lemma parse_digits_zero (d : Decimal.uint) :
  parse_digits 10 (NilEmpty.string_of_uint d) (Some 0)
  = Some (Z.of_N (Pos.of_uint d)).
Proof.
  induction d as [|d IH|d IH|d IH|d IH|d IH|d IH|d IH|d IH|d IH|d IH];
    cbn [NilEmpty.string_of_uint Pos.of_uint]; [reflexivity|..];
    read_digit; [exact IH|..];
    cbn [Z.of_N]; rewrite <- parse_digits_acc; reflexivity.
Qed.

Lemma parse_digits_start (d : Decimal.uint) :
  d <> Decimal.Nil ->
  parse_digits 10 (NilEmpty.string_of_uint d) None
  = Some (Z.of_N (Pos.of_uint d)).
Proof.
  intros Hd. rewrite <- parse_digits_zero.
  destruct d; [contradiction|..]; reflexivity.
Qed.

Lemma parseInt_unsigned (d : Decimal.uint) :
  d <> Decimal.Nil ->
  parseInt (NilEmpty.string_of_uint d)
  = match parse_digits 10 (NilEmpty.string_of_uint d) None with
    | Some n => of_Z (double_of_Z (1 * n))
    | None => NaN
    end.
Proof.
  intros Hd. destruct d as [|d|d|d|d|d|d|d|d|d|d]; [contradiction|..];
    try reflexivity.
  destruct d; reflexivity.
Qed.

Lemma parseInt_negative (d : Decimal.uint) :
  d <> Decimal.Nil ->
  parseInt (String "-"%char (NilEmpty.string_of_uint d))
  = match parse_digits 10 (NilEmpty.string_of_uint d) None with
    | Some n => of_Z (double_of_Z (-1 * n))
    | None => NaN
    end.
Proof.
  intros Hd. destruct d as [|d|d|d|d|d|d|d|d|d|d]; [contradiction|..];
    try reflexivity.
  destruct d; reflexivity.
Qed.

Lemma string_of_uint_nonnil (d : Decimal.uint) :
  d <> Decimal.Nil ->
  NilZero.string_of_uint d = NilEmpty.string_of_uint d.
Proof. destruct d; [contradiction|..]; reflexivity. Qed.

Lemma no_space_uint (d : Decimal.uint) :
  no_space (NilEmpty.string_of_uint d) = true.
Proof.
  induction d; cbn [NilEmpty.string_of_uint no_space]; try reflexivity;
    rewrite IHd; reflexivity.
Qed.

Lemma no_space_string_of_Z (z : Z) : no_space (string_of_Z z) = true.
Proof.
  unfold string_of_Z. destruct z as [|p|p]; [reflexivity| |];
    cbn [Z.to_int NilZero.string_of_int];
    rewrite string_of_uint_nonnil
      by apply DecimalPos.Unsigned.to_uint_nonnil;
    cbn [no_space]; rewrite no_space_uint; reflexivity.
Qed.

Lemma trim_start_no_space (s rest : string) :
  no_space s = true -> s <> "" -> trim_start (s ++ rest) = (s ++ rest)%string.
Proof.
  destruct s as [|c r]; [congruence|]. cbn [no_space append trim_start].
  intros H _. apply andb_true_iff in H. destruct H as [H _].
  apply andb_true_iff in H. destruct H as [Hc Hw].
  apply negb_true_iff in Hc. rewrite Hc, Hw. reflexivity.
Qed.

Lemma trim_end_no_space (s : string) :
  no_space s = true -> trim_end (s ++ nl) = s /\ trim_end s = s.
Proof.
  induction s as [|c r IH]; [intros _; split; reflexivity|].
  cbn [no_space append trim_end all_space]. intros H.
  apply andb_true_iff in H. destruct H as [H Hr].
  apply andb_true_iff in H. destruct H as [Hc Hw].
  apply negb_true_iff in Hc. rewrite Hc, Hw.
  destruct (IH Hr) as [-> ->]. split; reflexivity.
Qed.

(** The text of an integer, bare or followed by a line feed, trims to
    itself. *)
Lemma trim_decimal (z : Z) :
  trim (string_of_Z z ++ nl) = string_of_Z z
  /\ trim (string_of_Z z) = string_of_Z z.
Proof.
  pose proof (no_space_string_of_Z z) as Hn.
  assert (Hne : string_of_Z z <> "").
  { unfold string_of_Z. destruct z as [|p|p]; [discriminate| |discriminate].
    cbn [Z.to_int NilZero.string_of_int].
    pose proof (DecimalPos.Unsigned.to_uint_nonnil p) as Hp.
    destruct (Pos.to_uint p); [contradiction|..]; discriminate. }
  unfold trim. split.
  - rewrite trim_start_no_space by assumption.
    apply (proj1 (trim_end_no_space _ Hn)).
  - rewrite <- (append_empty_r (string_of_Z z)) at 1.
    rewrite trim_start_no_space by assumption. rewrite append_empty_r.
    apply (proj2 (trim_end_no_space _ Hn)).
Qed.

(** Parsing the decimal text of an integer gives the double nearest to
    it. *)
Lemma parseInt_decimal (z : Z) :
  parseInt (string_of_Z z) = of_Z (double_of_Z z)
  /\ parseInt (trim (string_of_Z z ++ nl)) = of_Z (double_of_Z z).
Proof.
  assert (H : parseInt (string_of_Z z) = of_Z (double_of_Z z)).
  { unfold string_of_Z. destruct z as [|p|p]; [reflexivity| |];
      cbn [Z.to_int NilZero.string_of_int];
      pose proof (DecimalPos.Unsigned.to_uint_nonnil p) as Hp;
      rewrite (string_of_uint_nonnil Hp).
    - rewrite (parseInt_unsigned Hp), (parse_digits_start Hp).
      rewrite DecimalPos.Unsigned.of_to. cbn [Z.of_N].
      rewrite Z.mul_1_l. reflexivity.
    - rewrite (parseInt_negative Hp), (parse_digits_start Hp).
      rewrite DecimalPos.Unsigned.of_to. cbn [Z.of_N]. reflexivity. }
  split; [exact H|]. rewrite (proj1 (trim_decimal z)). exact H.
Qed.

(** X11: when the probe answers with an integer in decimal followed by a
    line feed, as [nproc] prints it, [detectCores] returns that integer and
    logs nothing (for an integer up to 2^53 in magnitude, which a double
    holds exactly). *)
Theorem detectCores_reads_decimal {S : Type} (h : host S) (st st1 : S)
  (serverName : string) (n : Z) :
  Z.abs n <= 2 ^ 53 ->
  respond h st serverName Nproc = (st1, Output (string_of_Z n ++ nl)) ->
  exec h (detectCores serverName) st
  = (st1, [Ran serverName Nproc (Output (string_of_Z n ++ nl))],
     Fulfilled (of_Z n)).
Proof.
  intros Hn H. rewrite (detectCores_answered h st serverName H).
  rewrite (proj2 (parseInt_decimal n)), (double_of_Z_safe _ Hn). reflexivity.
Qed.

Lemma detectCores_reads_decimal_witness :
  result (exec Docker.docker_host (detectCores "web1") docker_primary_only)
  = Fulfilled (of_Z 4).
Proof.
  rewrite (@detectCores_reads_decimal _ Docker.docker_host docker_primary_only
             docker_primary_only "web1" 4 ltac:(vm_compute; discriminate)
             eq_refl).
  reflexivity.
Defined.

(** X12: when the probe is rejected, for whatever reason, [detectCores]
    logs its warning and returns 2; and on no host does [detectCores]
    itself reject. *)
Theorem detectCores_falls_back {S : Type} (h : host S) (st st1 : S)
  (serverName e : string) :
  respond h st serverName Nproc = (st1, Rejected e) ->
  exec h (detectCores serverName) st
  = (st1, [Ran serverName Nproc (Rejected e);
           Logged (LogCoresFallback serverName)], Fulfilled (of_Z 2))
  /\ forall (h' : host S) st', exists cores,
       result (exec h' (detectCores serverName) st') = Fulfilled cores.
Proof.
  intros H. split.
  - unfold detectCores. unfold_monad. rewrite exec_catch, exec_run_bind, H.
    reflexivity.
  - intros h' st'. apply never_fails_exec. apply detectCores_never_fails.
Qed.

Lemma detectCores_falls_back_witness :
  result (exec host_unreachable (detectCores "worker1") tt)
  = Fulfilled (of_Z 2).
Proof.
  rewrite (proj1 (@detectCores_falls_back _ host_unreachable tt tt "worker1"
                    "connect ETIMEDOUT" eq_refl)).
  reflexivity.
Defined.

(* ===================================================================== *)
(** * Where failures stop *)
(* ===================================================================== *)

Lemma exec_settle {S : Type} (h : host S) (task : prog unit) (st : S) :
  exec h (settle task) st
  = match exec h task st with
    | (st1, tr, Fulfilled _) => (st1, tr, Fulfilled None)
    | (st1, tr, Failed e) => (st1, (tr ++ [])%list, Fulfilled (Some e))
    end.
Proof.
  unfold settle. unfold_monad. rewrite exec_catch, exec_bind.
  destruct (exec h task st) as [[st1 tr] [a|e]]; cbn [exec];
    [rewrite app_nil_r|]; reflexivity.
Qed.

(** When every task of a [Promise.all] fulfils, so does the whole. *)
Lemma promise_all_fulfils {S : Type} (h : host S) (tasks : list (prog unit)) :
  (forall t st, In t tasks -> result (exec h t st) = Fulfilled tt) ->
  forall st, result (exec h (promise_all tasks) st) = Fulfilled tt.
Proof.
  intros Hall st. unfold promise_all. unfold_monad. rewrite exec_bind.
  assert (G : exists st1 tr rs,
             exec h (settle_all tasks) st = (st1, tr, Fulfilled rs)
             /\ first_rejection rs = None).
  { revert st. induction tasks as [|t rest IH]; intros st.
    - exists st, [], []. split; reflexivity.
    - cbn [settle_all]. unfold_monad. rewrite exec_bind, exec_settle.
      pose proof (Hall t st (or_introl eq_refl)) as Ht.
      destruct (exec h t st) as [[st1 tr1] [[]|e]]; [|discriminate Ht].
      rewrite exec_bind.
      destruct (IH (fun t' st' Hin => Hall t' st' (or_intror Hin)) st1)
        as [st2 [tr2 [rs [E Hrs]]]].
      rewrite E. cbn [exec]. do 3 eexists. split; [reflexivity | exact Hrs]. }
  destruct G as [st1 [tr [rs [E Hrs]]]]. rewrite E, Hrs. reflexivity.
Qed.

(** When one task of a [Promise.all] rejects wherever it is run, the whole
    rejects. *)
Lemma promise_all_rejects {S : Type} (h : host S) (tasks : list (prog unit))
  (t : prog unit) :
  In t tasks ->
  (forall st, exists e, result (exec h t st) = Failed e) ->
  forall st, exists e, result (exec h (promise_all tasks) st) = Failed e.
Proof.
  intros Hin Ht st. unfold promise_all. unfold_monad. rewrite exec_bind.
  assert (G : exists st1 tr rs e,
             exec h (settle_all tasks) st = (st1, tr, Fulfilled rs)
             /\ first_rejection rs = Some e).
  { revert st. induction tasks as [|t0 rest IH]; intros st; [contradiction|].
    cbn [settle_all]. unfold_monad. rewrite exec_bind, exec_settle.
    destruct Hin as [->|Hin].
    - destruct (Ht st) as [e He].
      destruct (exec h t st) as [[st1 tr1] [a|e']]; [discriminate He|].
      rewrite exec_bind.
      assert (Hs : exists st2 tr2 rs,
                 exec h (settle_all rest) st1 = (st2, tr2, Fulfilled rs)).
      { clear. revert st1. induction rest as [|t1 rest IH]; intros st1.
        - do 3 eexists. reflexivity.
        - cbn [settle_all]. unfold_monad. rewrite exec_bind, exec_settle.
          destruct (exec h t1 st1) as [[st2 tr2] [a|e]]; rewrite exec_bind;
            destruct (IH st2) as [st3 [tr3 [rs E]]]; rewrite E; cbn [exec];
            do 3 eexists; reflexivity. }
      destruct Hs as [st2 [tr2 [rs E]]]. rewrite E. cbn [exec].
      do 4 eexists. split; reflexivity.
    - destruct (exec h t0 st) as [[st1 tr1] [a|e']]; rewrite exec_bind;
        destruct (IH Hin st1) as [st2 [tr2 [rs [e [E Hrs]]]]]; rewrite E;
        cbn [exec]; do 4 eexists; (split; [reflexivity|]);
        cbn [first_rejection]; [exact Hrs | reflexivity]. }
  destruct G as [st1 [tr [rs [e [E Hrs]]]]]. rewrite E, Hrs. cbn [exec].
  exists e. reflexivity.
Qed.

Lemma never_fails_log (l : log_line) : never_fails (log l).
Proof. repeat constructor. Qed.

Lemma never_fails_stopWorkersOn (appName serverName : string) :
  never_fails (stopWorkersOn appName serverName).
Proof.
  unfold stopWorkersOn. unfold_monad. apply never_fails_catch.
  intros e. apply never_fails_log.
Qed.

Lemma never_fails_updateNginxOn (serverConfigs : server_table)
  (config : Config) (appName serverName : string) :
  never_fails (updateNginxOn serverConfigs config appName serverName).
Proof.
  unfold updateNginxOn. cbv zeta.
  destruct (shouldUseNginx serverConfigs config serverName); cbn [negb];
    [|apply never_fails_log].
  unfold_monad. apply never_fails_bind.
  - destruct (getInstanceCount serverConfigs config serverName);
      [apply detectCores_never_fails | constructor].
  - intros cores. apply never_fails_catch. intros e. apply never_fails_log.
Qed.

Lemma never_fails_reconcile (serverName appName : string)
  (appPort startingPort cores : number) :
  num_le cores (of_Z 1) = false ->
  never_fails (reconcile serverName appName appPort startingPort cores).
Proof.
  intros Hc. unfold reconcile. rewrite Hc. unfold_monad.
  apply never_fails_catch. intros e. apply never_fails_log.
Qed.

Lemma never_fails_result {S A : Type} (h : host S) (p : prog A) (st : S)
  (a : A) :
  never_fails p -> (forall x : A, x = a) -> result (exec h p st) = Fulfilled a.
Proof.
  intros Hn Hu. destruct (never_fails_exec h st Hn) as [x Hx].
  rewrite Hx, (Hu x). reflexivity.
Qed.

Lemma unit_unique (x : unit) : x = tt.
Proof. destruct x. reflexivity. Qed.

(** X13: whatever the hosts answer or reject, stopping the workers and
    updating nginx never reject, and neither does the reconciliation of a
    server with more than one core: every rejection of a remote command is
    caught and logged inside that server's callback. *)
Theorem failures_stay_local (serverConfigs : server_table) (api : Api)
  (a : App) {S : Type} (h : host S) (st : S) :
  cfg_app (getConfig api) = Some a ->
  result (exec h (stopWorkerContainers api) st) = Fulfilled tt
  /\ result (exec h (updateMupNginx serverConfigs api) st) = Fulfilled tt
  /\ forall serverName appPort startingPort cores,
       num_le cores (of_Z 1) = false ->
       result (exec h (reconcile serverName (app_name a) appPort startingPort
                         cores) st)
       = Fulfilled tt.
Proof.
  intros Ha. split; [|split].
  - unfold stopWorkerContainers. cbv zeta. rewrite Ha. unfold_monad.
    cbn [log prog_bind exec].
    match goal with
    | |- context [exec h (promise_all ?ts) st] =>
        pose proof (@promise_all_fulfils _ h ts) as Hp
    end.
    match type of Hp with
    | ?P -> _ => assert (Hall : P)
    end.
    { intros t st' Hin. apply in_map_iff in Hin. destruct Hin as [s [<- _]].
      apply never_fails_result;
        [apply never_fails_stopWorkersOn | apply unit_unique]. }
    specialize (Hp Hall st).
    destruct (exec h (promise_all _) st) as [[st1 tr] o]. exact Hp.
  - unfold updateMupNginx. cbv zeta. rewrite Ha. unfold_monad.
    cbn [log prog_bind exec].
    match goal with
    | |- context [exec h (promise_all ?ts) st] =>
        pose proof (@promise_all_fulfils _ h ts) as Hp
    end.
    match type of Hp with
    | ?P -> _ => assert (Hall : P)
    end.
    { intros t st' Hin. apply in_map_iff in Hin. destruct Hin as [s [<- _]].
      apply never_fails_result;
        [apply never_fails_updateNginxOn | apply unit_unique]. }
    specialize (Hp Hall st).
    destruct (exec h (promise_all _) st) as [[st1 tr] o]. exact Hp.
  - intros serverName appPort startingPort cores Hc.
    apply never_fails_result;
      [apply never_fails_reconcile; exact Hc | apply unit_unique].
Qed.

Lemma failures_stay_local_witness :
  result (exec host_unreachable (stopWorkerContainers api_two) tt)
  = Fulfilled tt.
Proof.
  exact (proj1 (@failures_stay_local [] api_two _ _ host_unreachable tt
                  eq_refl)).
Defined.

(** On a host that rejects everything, a single-core reconciliation
    rejects: the rejection inside the fallback loop is not caught. *)
Lemma single_core_rejects {S : Type} (h : host S) (st : S)
  (serverName appName : string) (appPort startingPort cores : number) :
  rejects_everything h ->
  num_le cores (of_Z 1) = true ->
  exists e,
    result (exec h (reconcile serverName appName appPort startingPort cores) st)
    = Failed e.
Proof.
  intros Hr Hc. unfold reconcile. rewrite Hc. unfold_monad.
  cbn [log prog_bind exec]. rewrite exec_bind.
  unfold cleanupSingleCore. unfold_monad. rewrite exec_catch, exec_run_bind.
  destruct (Hr st serverName (PsWorkers true appName)) as [st1 [e1 E1]].
  rewrite E1. unfold fallbackCleanup.
  change fallback_slots with (1 :: for_indices 9 2 (fun i => i <=? 10)).
  cbn [for_each]. unfold_monad. rewrite exec_bind, exec_run_bind.
  destruct (Hr st1 serverName (StopContainer (worker_name appName 1)))
    as [st2 [e2 E2]].
  rewrite E2. exists e2. reflexivity.
Qed.

(** X14: on a host that rejects every command, [startWorkerContainers]
    rejects as soon as one selected server is configured for a single
    instance (the rejection in its fallback loop escapes the callback and
    [Promise.all]), and fulfils when every selected server resolves to
    ['auto'] (the probe falls back to 2 cores and the multi-core branch
    catches everything). *)
Theorem unreachable_host_outcome (serverConfigs : server_table) (api : Api)
  (a : App) {S : Type} (h : host S) (st : S) :
  cfg_app (getConfig api) = Some a ->
  rejects_everything h ->
  let selected := map fst (getFilteredServers a (getOptions api)) in
  ((exists serverName n,
      In serverName selected
      /\ getInstanceCount serverConfigs (getConfig api) serverName = Count n
      /\ num_le n (of_Z 1) = true) ->
   exists e,
     result (exec h (startWorkerContainers serverConfigs api) st) = Failed e)
  /\ ((forall serverName, In serverName selected ->
         getInstanceCount serverConfigs (getConfig api) serverName = Auto) ->
      result (exec h (startWorkerContainers serverConfigs api) st)
      = Fulfilled tt).
Proof.
  intros Ha Hr. cbv zeta. split.
  - intros [serverName [n [Hin [Hi Hn]]]].
    unfold startWorkerContainers. cbv zeta. rewrite Ha. unfold_monad.
    cbn [log prog_bind exec].
    destruct (@promise_all_rejects _ h
                (map (startWorkersOn serverConfigs (getConfig api) (app_name a))
                   (map fst (getFilteredServers a (getOptions api))))
                (startWorkersOn serverConfigs (getConfig api) (app_name a)
                   serverName)
                (in_map _ _ _ Hin)) with (st := st) as [e He].
    + intros st'. unfold startWorkersOn. cbv zeta. rewrite Hi.
      cbn [resolveCores]. unfold_monad. cbn [prog_bind].
      apply single_core_rejects; assumption.
    + exists e. destruct (exec h (promise_all _) st) as [[st1 tr] o]. exact He.
  - intros Hauto.
    unfold startWorkerContainers. cbv zeta. rewrite Ha. unfold_monad.
    cbn [log prog_bind exec].
    match goal with
    | |- context [exec h (promise_all ?ts) st] =>
        pose proof (@promise_all_fulfils _ h ts) as Hp
    end.
    match type of Hp with
    | ?P -> _ => assert (Hall : P)
    end.
    { intros t st' Hin. apply in_map_iff in Hin. destruct Hin as [s [<- Hs]].
      unfold startWorkersOn. cbv zeta. rewrite (Hauto s Hs).
      cbn [resolveCores]. unfold_monad. rewrite exec_bind.
      destruct (Hr st' s Nproc) as [st1 [e E]].
      rewrite (detectCores_rejected h st' s E).
      pose proof (@never_fails_result _ _ h
                    (reconcile s (app_name a) (getAppPort (getConfig api))
                       (getStartingPort serverConfigs (getConfig api) s)
                       (of_Z 2)) st1 tt
                    (never_fails_reconcile s (app_name a)
                       (getAppPort (getConfig api))
                       (getStartingPort serverConfigs (getConfig api) s)
                       (of_Z 2) eq_refl) unit_unique) as Hres.
      destruct (exec h (reconcile _ _ _ _ _) st1) as [[st2 tr2] o].
      exact Hres. }
    specialize (Hp Hall st).
    destruct (exec h (promise_all _) st) as [[st1 tr] o]. exact Hp.
Qed.

Lemma unreachable_host_outcome_witness :
  exists e,
    result (exec host_unreachable (startWorkerContainers table_single api_single)
              tt) = Failed e.
Proof.
  refine (proj1 (@unreachable_host_outcome table_single api_single _ _
                   host_unreachable tt eq_refl _) _).
  - intros st s c. exists st, "connect ETIMEDOUT". reflexivity.
  - exists "worker1", (of_Z 1). repeat split. right. left. reflexivity.
Defined.

(* ===================================================================== *)
(** * Slots for any count, and what nginx is told *)
(* ===================================================================== *)

(** X15: the creation loop [for (let i = 1; i < cores; i++)] runs for the
    slots 1 to [ceil(cores) - 1] for any finite [cores] up to [2 ^ 53] (as
    far as the loop counter, a double, counts exactly), so a fractional
    count such as 2.5 gives the slots 1 and 2; for [NaN] it does not run at
    all.  The upstream block lists one port for each slot. *)
Theorem slots_of_any_count (cores startingPort : number) :
  num_lt (of_Z (2 ^ 53)) cores = false ->
  worker_slots cores
  = match cores with
    | Fin q => map (fun j => 1 + Z.of_nat j) (seq 0 (Z.to_nat (Qceiling q - 1)))
    | NaN => []
    end
  /\ List.length (upstream_ports startingPort cores)
     = List.length (worker_slots cores).
Proof.
  intros _. split.
  - destruct cores as [q|]; [apply worker_slots_Fin | reflexivity].
  - unfold upstream_ports. apply length_map.
Qed.

Lemma slots_of_any_count_witness :
  worker_slots (Fin (5 # 2)) = map (fun j => 1 + Z.of_nat j) (seq 0 2).
Proof.
  exact (proj1 (slots_of_any_count (Fin (5 # 2)) (of_Z 3001) eq_refl)).
Defined.

(** X16: the workers a reconciliation creates publish, in order, exactly the
    ports that [updateMupNginx] writes after the primary into the upstream
    block for the same starting port and count (when the reconciliation
    creates any worker at all). *)
Theorem upstream_matches_created {S : Type} (h : host S) (st : S)
  (serverName appName : string) (appPort startingPort cores : number) :
  let created_commands :=
    created (trace (exec h (reconcile serverName appName appPort startingPort
                              cores) st)) in
  created_commands = []
  \/ map (fun sc => published_port (snd sc)) created_commands
     = map Some (upstream_ports startingPort cores).
Proof.
  cbv zeta.
  destruct (created_commands_shape h st serverName appName appPort
              startingPort cores) as [E|[img E]]; [left; exact E|].
  right. rewrite E. unfold upstream_ports. rewrite !map_map.
  apply map_ext. intros i. reflexivity.
Qed.

(** What [send_until_rejected] sends: a prefix of the commands, in order,
    all of them when none is rejected; every command but a rejected last
    one was answered. *)
Lemma send_until_rejected_prefix {S : Type} (h : host S) (s : string)
  (cs : list command) (st : S) :
  let '(_, tr, rejected) := send_until_rejected h s cs st in
  commands tr = map (pair s) (firstn (List.length tr) cs)
  /\ (List.length tr <= List.length cs)%nat
  /\ (cs <> [] -> 1 <= List.length tr)%nat
  /\ match rejected with
     | None => List.length tr = List.length cs /\ Forall (answered s) tr
     | Some e =>
         exists pre c,
           tr = (pre ++ [Ran s c (Rejected e)])%list
           /\ nth_error cs (List.length pre) = Some c
           /\ Forall (answered s) pre
     end.
Proof.
  revert st. induction cs as [|c rest IH]; intros st.
  - cbn. repeat split; auto. intros H. contradiction H. reflexivity.
  - cbn [send_until_rejected].
    destruct (respond h st s c) as [st1 [out|e]].
    + specialize (IH st1).
      destruct (send_until_rejected h s rest st1) as [[st2 tr] rejected].
      destruct IH as [Hc [Hlen [_ Hr]]].
      cbn [List.length firstn map commands flat_map app].
      fold (commands tr). rewrite Hc.
      split; [reflexivity|]. split; [lia|]. split; [intros _; lia|].
      destruct rejected as [e|].
      * destruct Hr as [pre [c' [-> [Hn Hp]]]].
        exists (Ran s c (Output out) :: pre), c'.
        split; [reflexivity|]. split; [exact Hn|].
        constructor; [exists c, out; reflexivity | exact Hp].
      * destruct Hr as [Hl Ha]. split; [lia|].
        constructor; [exists c, out; reflexivity | exact Ha].
    + cbn. split; [reflexivity|]. split; [lia|]. split; [intros _; lia|].
      exists [], c. repeat split. constructor.
Qed.

(** The [try] block of the nginx callback: the five commands in order, up
    to the first rejection, then one log line: the success line when all
    five were answered, the error line otherwise. *)
Lemma nginx_block_run {S : Type} (h : host S) (st : S)
  (appName serverName : string) (appPort startingPort cores : number) :
  exec h
    (try_catch
       (prog_bind (runSSHCommand serverName (NginxBackupEnv appName))
          (fun _ =>
       prog_bind (runSSHCommand serverName
                    (NginxWriteUpstream appName appPort
                       (upstream_ports startingPort cores)))
          (fun _ =>
       prog_bind (runSSHCommand serverName (NginxPatchSite appPort))
          (fun _ =>
       prog_bind (runSSHCommand serverName (NginxInsertUpstream appName))
          (fun _ =>
       prog_bind (runSSHCommand serverName NginxReload)
          (fun _ => log (LogNginxUpdated serverName cores)))))))
       (fun error => log (LogNginxError serverName error))) st
  = (let '(st2, tr, rejected) :=
       send_until_rejected h serverName
         (nginx_sequence appName appPort startingPort cores) st in
     (st2,
      (tr ++ [Logged match rejected with
                     | None => LogNginxUpdated serverName cores
                     | Some e => LogNginxError serverName e
                     end])%list,
      Fulfilled tt)).
Proof.
  rewrite exec_catch. unfold nginx_sequence.
  cbn [send_until_rejected].
  do 5 (rewrite exec_run_bind;
        match goal with
        | |- context [respond ?h ?st ?s ?c] =>
            destruct (respond h st s c) as [? [?|?]]
        end; [|reflexivity]).
  reflexivity.
Qed.

(** X17: for one server, [updateMupNginx] logs the skip line and sends
    nothing when nginx is not enabled for it; otherwise it sends the core
    probe when the count is ['auto'], then the five nginx commands in
    their order (backup of the environment file, upstream file, site
    patch, insertion into [nginx.conf], reload), each after the one before
    it was answered, up to and including the first one that is rejected;
    it then logs the success line when all five were answered and the
    error line of the rejection otherwise, and never rejects. *)
Theorem nginx_steps_in_order {S : Type} (h : host S) (st : S)
  (serverConfigs : server_table) (config : Config)
  (appName serverName : string) :
  let run := exec h (updateNginxOn serverConfigs config appName serverName) st in
  let sequence :=
    nginx_sequence appName (getAppPort config)
      (getStartingPort serverConfigs config serverName) in
  let steps := fun (cores : number) (st' : S) =>
    let '(st2, tr, rejected) :=
      send_until_rejected h serverName (sequence cores) st' in
    (st2,
     (tr ++ [Logged match rejected with
                    | None => LogNginxUpdated serverName cores
                    | Some e => LogNginxError serverName e
                    end])%list,
     Fulfilled tt) in
  (if shouldUseNginx serverConfigs config serverName then
     match getInstanceCount serverConfigs config serverName with
     | Count c => run = steps c st
     | Auto =>
         match respond h st serverName Nproc with
         | (st1, Output out) =>
             run = (let '(st2, tr, o) := steps (parseInt (trim out)) st1 in
                    (st2, Ran serverName Nproc (Output out) :: tr, o))
         | (st1, Rejected e) =>
             run = (let '(st2, tr, o) := steps (of_Z 2) st1 in
                    (st2,
                     Ran serverName Nproc (Rejected e)
                       :: Logged (LogCoresFallback serverName) :: tr,
                     o))
         end
     end
   else run = (st, [Logged (LogNginxSkip serverName)], Fulfilled tt))
  /\ (forall cores st',
        let '(_, tr, rejected) :=
          send_until_rejected h serverName (sequence cores) st' in
        commands tr
        = map (pair serverName) (firstn (List.length tr) (sequence cores))
        /\ (1 <= List.length tr <= 5)%nat
        /\ match rejected with
           | None => List.length tr = 5%nat /\ Forall (answered serverName) tr
           | Some e =>
               exists pre c,
                 tr = (pre ++ [Ran serverName c (Rejected e)])%list
                 /\ nth_error (sequence cores) (List.length pre) = Some c
                 /\ Forall (answered serverName) pre
           end).
Proof.
  cbv zeta. split.
  - unfold updateNginxOn. cbv zeta.
    destruct (shouldUseNginx serverConfigs config serverName) eqn:Hn;
      cbn [negb]; [|reflexivity].
    unfold_monad. rewrite exec_bind.
    destruct (getInstanceCount serverConfigs config serverName) as [|c] eqn:Hi;
      cbn [resolveCores].
    + destruct (respond h st serverName Nproc) as [st1 [out|e]] eqn:Hr.
      * rewrite (detectCores_answered h st serverName Hr).
        rewrite nginx_block_run.
        destruct (send_until_rejected h serverName _ st1) as [[st2 tr] rej].
        reflexivity.
      * rewrite (detectCores_rejected h st serverName Hr).
        rewrite nginx_block_run.
        destruct (send_until_rejected h serverName _ st1) as [[st2 tr] rej].
        reflexivity.
    + unfold_monad. cbn [exec]. rewrite nginx_block_run.
      destruct (send_until_rejected h serverName _ st) as [[st2 tr] rej].
      reflexivity.
  - intros cores st'.
    pose proof (send_until_rejected_prefix h serverName
                  (nginx_sequence appName (getAppPort config)
                     (getStartingPort serverConfigs config serverName) cores)
                  st') as H.
    destruct (send_until_rejected h serverName _ st') as [[st2 tr] rej].
    destruct H as [Hc [Hlen [Hpos Hr]]].
    split; [exact Hc|]. split.
    + split; [apply Hpos; discriminate | exact Hlen].
    + exact Hr.
Qed.

(* ===================================================================== *)
(** * Stop and restart on the Docker host *)
(* ===================================================================== *)

Module DockerRuns.
Import Docker.

Lemma existsb_false_filter {A : Type} (f : A -> bool) (l : list A) :
  existsb f l = false -> filter f l = [].
Proof.
  induction l as [|x l IH]; [reflexivity|]. cbn [existsb filter].
  destruct (f x); [discriminate|]. exact IH.
Qed.

Lemma existsb_true_filter {A : Type} (f : A -> bool) (l : list A) :
  existsb f l = true -> exists x r, filter f l = x :: r.
Proof.
  induction l as [|x l IH]; [discriminate|]. cbn [existsb filter].
  destruct (f x); [intros _; eauto|]. exact IH.
Qed.

Ltac by_cases_on_container appName x :=
  unfold listed, set_running;
  destruct (filter_matches (worker_filter appName) (c_name x)) eqn:Em;
  destruct (c_running x) eqn:Er;
  cbn [andb orb negb c_name c_running]; rewrite ?Em, ?Er; reflexivity.

Lemma stop_running_elem (appName : string) (x : container) :
  let y := if listed false (worker_filter appName) x
           then set_running false x else x in
  negb (listed true (worker_filter appName) y && negb (c_running y))
  = negb (listed true (worker_filter appName) x)
  /\ negb (listed true (worker_filter appName) y && c_running y) = true
  /\ (listed false (worker_filter appName) x = true ->
      listed true (worker_filter appName) y = true)
  /\ (listed true (worker_filter appName) x = false -> y = x).
Proof.
  cbv zeta. repeat split; try by_cases_on_container appName x.
  - unfold listed, set_running.
    destruct (filter_matches (worker_filter appName) (c_name x)) eqn:Em;
      destruct (c_running x) eqn:Er;
      cbn [andb orb negb c_name c_running]; rewrite ?Em; cbn [andb orb];
      intros H; try discriminate H; reflexivity.
  - intros H. revert H. unfold listed, set_running.
    destruct (filter_matches (worker_filter appName) (c_name x));
      cbn [andb orb]; [discriminate | reflexivity].
Qed.

(** Stopping the running workers and then removing what the filter lists
    leaves exactly the containers it does not list. *)
Lemma stop_running_then_remove (appName : string) (cs : list container) :
  filter (fun x => negb (listed true (worker_filter appName) x
                         && negb (c_running x)))
    (map (fun x => if listed false (worker_filter appName) x
                   then set_running false x else x) cs)
  = without_workers appName cs.
Proof.
  unfold without_workers. induction cs as [|x cs IH]; [reflexivity|].
  cbn [map filter].
  destruct (stop_running_elem appName x) as [H1 [_ [_ H4]]]. cbv zeta in H1, H4.
  rewrite H1, IH.
  destruct (listed true (worker_filter appName) x) eqn:E; cbn [negb];
    [reflexivity|].
  rewrite H4 by reflexivity. reflexivity.
Qed.

Lemma stopped_after_stop (appName : string) (cs : list container) :
  forallb (fun x => negb (listed true (worker_filter appName) x
                          && c_running x))
    (map (fun x => if listed false (worker_filter appName) x
                   then set_running false x else x) cs) = true.
Proof.
  induction cs as [|x cs IH]; [reflexivity|].
  cbn [map forallb]. rewrite IH, andb_true_r.
  exact (proj1 (proj2 (stop_running_elem appName x))).
Qed.

Lemma listed_after_stop (appName : string) (cs : list container) :
  existsb (listed false (worker_filter appName)) cs = true ->
  existsb (listed true (worker_filter appName))
    (map (fun x => if listed false (worker_filter appName) x
                   then set_running false x else x) cs) = true.
Proof.
  induction cs as [|x cs IH]; [discriminate|].
  cbn [map existsb]. intros H. apply orb_true_iff in H. apply orb_true_iff.
  destruct H as [H|H]; [left | right; exact (IH H)].
  exact (proj1 (proj2 (proj2 (stop_running_elem appName x))) H).
Qed.

Lemma inventory_set_running (appName : string) (b : container -> bool)
  (f : container -> bool) (cs : list container) :
  map (fun x => (c_name x, c_port x))
    (filter (listed true (worker_filter appName))
       (map (fun x => if f x then set_running (b x) x else x) cs))
  = map (fun x => (c_name x, c_port x))
      (filter (listed true (worker_filter appName)) cs).
Proof.
  induction cs as [|x cs IH]; [reflexivity|]. cbn [map filter].
  destruct (f x).
  - rewrite DockerFacts.listed_set_running by exact true.
    destruct (listed true (worker_filter appName) x); cbn [map];
      rewrite IH; reflexivity.
  - destruct (listed true (worker_filter appName) x); cbn [map];
      rewrite IH; reflexivity.
Qed.

Lemma without_workers_set_running (appName : string) (b : container -> bool)
  (cs : list container) :
  without_workers appName
    (map (fun x => if listed true (worker_filter appName) x
                   then set_running (b x) x else x) cs)
  = without_workers appName cs.
Proof.
  unfold without_workers. induction cs as [|x cs IH]; [reflexivity|].
  cbn [map filter].
  destruct (listed true (worker_filter appName) x) eqn:E.
  - rewrite DockerFacts.listed_set_running by exact true. rewrite E. exact IH.
  - rewrite E. cbn [negb]. rewrite IH. reflexivity.
Qed.

Lemma stopWorkersOn_on_docker (appName serverName : string) (st : dockerd) :
  exists tr,
    exec docker_host (stopWorkersOn appName serverName) st
    = (if existsb (listed false (worker_filter appName)) (containers st)
       then with_containers st (without_workers appName (containers st))
       else st,
       tr, Fulfilled tt).
Proof.
  unfold stopWorkersOn. unfold_monad.
  rewrite exec_catch, exec_run_bind.
  cbn [respond docker_host respond_docker].
  destruct (existsb (listed false (worker_filter appName)) (containers st))
    eqn:E.
  - destruct (existsb_true_filter _ _ E) as [x [r Ef]]. rewrite Ef.
    rewrite DockerFacts.nonblank_listing. rewrite exec_run_bind.
    cbn [respond docker_host respond_docker orb]. rewrite E.
    rewrite exec_run_bind.
    cbn [respond docker_host respond_docker orb containers with_containers].
    rewrite (listed_after_stop _ _ E), stopped_after_stop.
    cbn [andb exec log prog_bind nproc_output port_busy].
    rewrite stop_running_then_remove. eexists. reflexivity.
  - rewrite (existsb_false_filter _ _ E).
    cbn [map unlines fold_right]. change (nonblank "") with false.
    cbn [exec log]. eexists. reflexivity.
Qed.

(** X18: on the Docker host [stopWorkerContainers] always ends normally for
    a server.  When a worker is running there, every container the worker
    filter lists is gone afterwards, the stopped ones included, and all
    other containers are kept as they were.  When no worker is running it
    changes nothing: the listing uses [docker ps -q], so workers that exist
    but are stopped are not seen and stay on the host. *)
Theorem stop_on_docker (appName serverName : string) (st : dockerd) :
  let run := exec docker_host (stopWorkersOn appName serverName) st in
  result run = Fulfilled tt
  /\ if existsb (listed false (worker_filter appName)) (containers st) then
       final_state run
       = with_containers st (without_workers appName (containers st))
       /\ worker_inventory appName (final_state run) = []
       /\ In (LogStopped serverName) (logged (trace run))
     else
       final_state run = st
       /\ logged (trace run) = [LogNoneToStop serverName].
Proof.
  cbv zeta. unfold stopWorkersOn. unfold_monad.
  rewrite exec_catch, exec_run_bind.
  cbn [respond docker_host respond_docker].
  destruct (existsb (listed false (worker_filter appName)) (containers st))
    eqn:E.
  - destruct (existsb_true_filter _ _ E) as [x [r Ef]]. rewrite Ef.
    rewrite DockerFacts.nonblank_listing. rewrite exec_run_bind.
    cbn [respond docker_host respond_docker orb]. rewrite E.
    rewrite exec_run_bind.
    cbn [respond docker_host respond_docker orb containers with_containers].
    rewrite (listed_after_stop _ _ E), stopped_after_stop.
    cbn [andb exec log prog_bind nproc_output port_busy result final_state
           trace fst snd].
    rewrite stop_running_then_remove.
    split; [reflexivity|]. split; [reflexivity|]. split.
    + unfold worker_inventory. cbn [containers with_containers].
      rewrite DockerFacts.listed_without_workers. reflexivity.
    + cbn. tauto.
  - rewrite (existsb_false_filter _ _ E).
    cbn [map unlines fold_right]. change (nonblank "") with false.
    cbn [exec log result final_state trace fst snd].
    split; [reflexivity|]. split; reflexivity.
Qed.

(** X19: on the Docker host, when the worker filter lists at least one
    container (running or not), [restartWorkerContainers] restarts in place
    for that server: the callback sends the inventory query and one
    [docker restart] and ends normally, also when the restart is rejected;
    afterwards the replica inventory is the same name by name and port by
    port and the other containers are untouched: nothing is created or
    removed, and the workers are not brought to the configured count. *)
Theorem restart_on_docker (serverConfigs : server_table) (api : Api)
  (appName serverName : string) (st : dockerd) :
  existsb (listed true (worker_filter appName)) (containers st) = true ->
  let run :=
    exec docker_host (restartWorkersOn serverConfigs api appName serverName)
      st in
  result run = Fulfilled tt
  /\ commands (trace run)
     = [(serverName, PsWorkers true appName);
        (serverName, RestartWorkers appName)]
  /\ worker_inventory appName (final_state run) = worker_inventory appName st
  /\ without_workers appName (containers (final_state run))
     = without_workers appName (containers st).
Proof.
  intros E. cbv zeta. unfold restartWorkersOn, restartOrStart. unfold_monad.
  rewrite exec_bind, exec_catch, exec_run_bind.
  cbn [respond docker_host respond_docker].
  destruct (existsb_true_filter _ _ E) as [x [r Ef]]. rewrite Ef.
  rewrite DockerFacts.nonblank_listing. rewrite exec_run_bind.
  cbn [respond docker_host respond_docker]. rewrite E.
  destruct (existsb
              (fun x0 => listed true (worker_filter appName) x0
                         && port_busy st (c_port x0))
              (containers st));
    cbn [exec log prog_bind result final_state trace fst snd app commands
           flat_map containers with_containers];
    (split; [reflexivity|]); (split; [reflexivity|]); split;
    solve [ unfold worker_inventory; cbn [containers];
            apply inventory_set_running
          | apply without_workers_set_running ].
Qed.

Lemma restart_on_docker_witness :
  worker_inventory "myapp"
    (final_state (exec docker_host
                    (restartWorkersOn [] api_two "myapp" "web1")
                    docker_stopped_worker))
  = [("myapp-worker-1", of_Z 3001)].
Proof.
  rewrite (proj1 (proj2 (proj2 (@restart_on_docker [] api_two "myapp" "web1"
                                  docker_stopped_worker eq_refl)))).
  reflexivity.
Defined.

Lemma others_of_reconciled (appName : string) (startingPort cores : number)
  (st : dockerd) :
  without_workers appName
    (containers (reconciled appName startingPort cores st))
  = without_workers appName (containers st)
  /\ find (named appName)
       (containers (reconciled appName startingPort cores st))
     = find (named appName) (containers st).
Proof.
  unfold reconciled. destruct (num_le cores (of_Z 1)).
  - cbn [containers with_containers].
    rewrite DockerFacts.without_workers_idem,
      DockerFacts.find_primary_without_workers.
    split; reflexivity.
  - destruct (find (named appName) (containers st)) as [primary|] eqn:Ef;
      [|rewrite Ef; split; reflexivity].
    cbv zeta. destruct (String.eqb (trim (c_image primary ++ nl)) "");
      [rewrite Ef; split; reflexivity|].
    cbn [containers with_containers].
    rewrite DockerFacts.without_workers_app, DockerFacts.without_workers_idem,
      DockerFacts.without_workers_new, app_nil_r.
    rewrite DockerFacts.find_app, DockerFacts.find_primary_without_workers, Ef.
    split; reflexivity.
Qed.

(** X20: on the Docker host a reconciliation pass for one server never
    changes, removes or reorders a container that the worker filter does not
    list; the primary in particular is found afterwards exactly as before.
    When the primary is missing and more than one core is resolved, the
    pass changes nothing at all, so workers left from before stay. *)
Theorem pass_keeps_other_containers (serverConfigs : server_table)
  (config : Config) (appName serverName : string) (st : dockerd) :
  let run :=
    exec docker_host (startWorkersOn serverConfigs config appName serverName)
      st in
  let cores :=
    resolved_cores (getInstanceCount serverConfigs config serverName) st in
  without_workers appName (containers (final_state run))
  = without_workers appName (containers st)
  /\ find (named appName) (containers (final_state run))
     = find (named appName) (containers st)
  /\ (if num_le cores (of_Z 1) then
        worker_inventory appName (final_state run) = []
      else
        match find (named appName) (containers st) with
        | None => final_state run = st
        | Some primary =>
            if String.eqb (trim (c_image primary ++ nl)) "" then
              final_state run = st
            else
              worker_inventory appName (final_state run)
              = map (fun i => (worker_name appName i,
                               slot_port
                                 (getStartingPort serverConfigs config
                                    serverName) i))
                  (worker_slots cores)
        end).
Proof.
  cbv zeta.
  destruct (DockerFacts.startWorkersOn_on_docker serverConfigs config appName
              serverName st) as [tr E].
  rewrite E. cbn [final_state fst].
  split; [apply others_of_reconciled|]. split; [apply others_of_reconciled|].
  destruct (num_le _ (of_Z 1)) eqn:Hc.
  - apply DockerFacts.inventory_of_reconciled. exact Hc.
  - destruct (find (named appName) (containers st)) as [primary|] eqn:Ef.
    + destruct (String.eqb (trim (c_image primary ++ nl)) "") eqn:Ei.
      * unfold reconciled. rewrite Hc, Ef. cbv zeta. rewrite Ei. reflexivity.
      * eapply DockerFacts.inventory_of_reconciled; eassumption.
    + unfold reconciled. rewrite Hc, Ef. reflexivity.
Qed.

(** X21: when the core probe of an ['auto'] server prints something that is
    no number, the count is [NaN]; [NaN <= 1] is false, so the pass takes
    the multi-core branch, and [1 < NaN] is false, so the creation loop does
    not run: on the Docker host the existing workers are removed and none is
    started. *)
Theorem unparseable_probe_clears_workers (serverConfigs : server_table)
  (config : Config) (appName serverName : string) (st : dockerd)
  (primary : container) :
  getInstanceCount serverConfigs config serverName = Auto ->
  parseInt (trim (nproc_output st)) = NaN ->
  find (named appName) (containers st) = Some primary ->
  String.eqb (trim (c_image primary ++ nl)) "" = false ->
  let run :=
    exec docker_host (startWorkersOn serverConfigs config appName serverName)
      st in
  result run = Fulfilled tt
  /\ created (trace run) = []
  /\ worker_inventory appName (final_state run) = [].
Proof.
  intros Hi Hn Hf Himg. cbv zeta.
  assert (Htr : created (trace (exec docker_host
                                  (startWorkersOn serverConfigs config appName
                                     serverName) st)) = []).
  { unfold startWorkersOn. cbv zeta. rewrite Hi. cbn [resolveCores].
    unfold_monad. rewrite exec_bind.
    rewrite (@detectCores_answered _ docker_host st st serverName
               (nproc_output st) eq_refl), Hn.
    pose proof (@created_single_core _ docker_host st serverName appName
                  (getAppPort config)
                  (getStartingPort serverConfigs config serverName) NaN
                  eq_refl) as Hc.
    destruct (exec docker_host (reconcile _ _ _ _ _) st) as [[st2 tr2] o].
    cbn [trace fst snd app] in *. exact Hc. }
  destruct (DockerFacts.startWorkersOn_on_docker serverConfigs config appName
              serverName st) as [tr E].
  rewrite E in *. cbn [final_state result trace fst snd] in *.
  split; [reflexivity|]. split; [exact Htr|].
  rewrite Hi. cbn [resolved_cores]. rewrite Hn.
  rewrite (proj2 (DockerFacts.inventory_of_reconciled appName
                    (getStartingPort serverConfigs config serverName) NaN st)
             primary eq_refl Hf Himg).
  reflexivity.
Qed.

Lemma unparseable_probe_clears_workers_witness :
  worker_inventory "myapp"
    (final_state (exec docker_host
                    (startWorkersOn [] config_single "myapp" "web1")
                    docker_bad_nproc)) = [].
Proof.
  exact (proj2 (proj2 (@unparseable_probe_clears_workers [] config_single "myapp"
                         "web1" docker_bad_nproc
                         (mkContainer "myapp" "sha256:1f2e" (of_Z 3000) true)
                         eq_refl eq_refl eq_refl eq_refl))).
Defined.

Lemma reconciled_after_removal (appName : string) (startingPort cores : number)
  (st : dockerd) (primary : container) :
  find (named appName) (containers st) = Some primary ->
  String.eqb (trim (c_image primary ++ nl)) "" = false ->
  reconciled appName startingPort cores
    (with_containers st (without_workers appName (containers st)))
  = reconciled appName startingPort cores st.
Proof.
  intros Ef Ei. unfold reconciled. cbn [containers with_containers port_busy].
  rewrite DockerFacts.without_workers_idem,
    DockerFacts.find_primary_without_workers, Ef.
  cbv zeta. rewrite Ei.
  destruct (num_le cores (of_Z 1)); reflexivity.
Qed.

(** X27: on the Docker host, when the primary is there and has an image,
    stopping the workers of a server and then running a start pass ends in
    the same host state as the start pass alone: the pass rebuilds the
    workers from the configuration, not from what was there before. *)
Theorem stop_then_start (serverConfigs : server_table) (config : Config)
  (appName serverName : string) (st : dockerd) (primary : container) :
  find (named appName) (containers st) = Some primary ->
  String.eqb (trim (c_image primary ++ nl)) "" = false ->
  let stop := exec docker_host (stopWorkersOn appName serverName) st in
  let start := fun host_state =>
    exec docker_host (startWorkersOn serverConfigs config appName serverName)
      host_state in
  final_state (start (final_state stop)) = final_state (start st)
  /\ result (start (final_state stop)) = Fulfilled tt.
Proof.
  intros Ef Ei. cbv zeta.
  destruct (stopWorkersOn_on_docker appName serverName st) as [tr0 Hstop].
  rewrite Hstop. cbn [final_state fst].
  destruct (DockerFacts.startWorkersOn_on_docker serverConfigs config appName
              serverName st) as [tr1 E1].
  destruct (existsb (listed false (worker_filter appName)) (containers st)).
  - destruct (DockerFacts.startWorkersOn_on_docker serverConfigs config
                appName serverName
                (with_containers st (without_workers appName (containers st))))
      as [tr2 E2].
    rewrite E1, E2. cbn [final_state result fst snd]. split; [|reflexivity].
    replace (resolved_cores (getInstanceCount serverConfigs config serverName)
               (with_containers st (without_workers appName (containers st))))
      with (resolved_cores (getInstanceCount serverConfigs config serverName)
              st)
      by (destruct (getInstanceCount serverConfigs config serverName);
          reflexivity).
    apply (reconciled_after_removal appName _ _ st Ef Ei).
  - rewrite E1. split; reflexivity.
Qed.

Lemma stop_then_start_witness :
  worker_inventory "myapp"
    (final_state
       (exec docker_host (startWorkersOn [] config_two "myapp" "web1")
          (final_state (exec docker_host (stopWorkersOn "myapp" "web1")
                          docker_mixed_workers))))
  = [("myapp-worker-1", Fin 3001)].
Proof.
  rewrite (proj1 (@stop_then_start [] config_two "myapp" "web1"
                    docker_mixed_workers
                    (mkContainer "myapp" "sha256:1f2e" (of_Z 3000) true)
                    eq_refl eq_refl)).
  vm_compute. reflexivity.
Defined.

End DockerRuns.

(* ===================================================================== *)
(** * Validation: blocks that are not objects, and where entries point *)
(* ===================================================================== *)

(** X22: the two validators differ on a [multiCore] value that is truthy
    but not an object (a string, a number, [true]): the global validator
    reads its three fields as undefined and returns no entry, while the
    per-server validator returns the single entry [multiCore configuration
    must be an object].  A falsy value is skipped by both. *)
Theorem block_that_is_no_object (config servers : value)
  (serverName : string) (v : value) :
  get config "multiCore" = v ->
  get (get servers serverName) "multiCore" = v ->
  typeof v <> TObject ->
  Validate.multiCore config = []
  /\ Validate.server_entry servers serverName
     = if truthy v
       then [Detail msg_not_object
               ("app.servers." ++ serverName ++ ".multiCore")]
       else [].
Proof.
  intros Hg Hs Hty. split.
  - unfold Validate.multiCore. rewrite Hg.
    destruct v as [| |b|n|s|fs]; try reflexivity.
    + destruct b; reflexivity.
    + destruct (truthy (VNum n)); reflexivity.
    + destruct (truthy (VStr s)); reflexivity.
    + exfalso. apply Hty. reflexivity.
  - destruct (truthy v) eqn:Ht.
    + apply server_block_not_object; rewrite Hs; assumption.
    + unfold Validate.server_entry. rewrite Hs, Ht, andb_false_r.
      reflexivity.
Qed.

Lemma block_that_is_no_object_witness :
  Validate.multiCore config_block_string = []
  /\ Validate.server_entry (get (get config_block_string "app") "servers")
       "web1"
     = [Detail msg_not_object "app.servers.web1.multiCore"].
Proof.
  refine (@block_that_is_no_object config_block_string
            (get (get config_block_string "app") "servers") "web1"
            (VStr "on") eq_refl eq_refl _).
  discriminate.
Defined.

Lemma prefix_refl (a : string) : String.prefix a a = true.
Proof.
  rewrite <- (append_empty_r a) at 2. apply prefix_append.
Qed.

(** X23: every entry the per-server validator returns belongs to one of the
    servers of [app.servers] that has a truthy [multiCore], and its path is
    [app.servers.<name>.multiCore] or lies under it; a configuration
    without [app] or without [app.servers] gives no entry. *)
Theorem app_servers_entries (config : value) (d : detail) :
  In d (Validate.app_servers config) ->
  let servers := get (get config "app") "servers" in
  truthy (get config "app") = true
  /\ truthy servers = true
  /\ exists serverName,
       In serverName (keys servers)
       /\ truthy (get (get servers serverName) "multiCore") = true
       /\ String.prefix ("app.servers." ++ serverName ++ ".multiCore") (path d)
          = true.
Proof.
  unfold Validate.app_servers. cbv zeta.
  destruct (truthy (get config "app")); cbn [negb orb]; [|contradiction].
  destruct (truthy (get (get config "app") "servers")); cbn [negb];
    [|contradiction].
  intros Hin. split; [reflexivity|]. split; [reflexivity|].
  apply in_flat_map in Hin. destruct Hin as [s [Hs Hd]].
  exists s. split; [exact Hs|].
  unfold Validate.server_entry in Hd. cbv zeta in Hd.
  destruct (truthy (get (get (get config "app") "servers") s)); cbn [andb] in Hd;
    [|contradiction].
  destruct (truthy (get (get (get (get config "app") "servers") s) "multiCore"));
    [|contradiction].
  split; [reflexivity|].
  destruct (negb (jstype_eqb (typeof _) TObject)).
  - destruct Hd as [<-|[]]. apply prefix_refl.
  - repeat (apply in_app_or in Hd; destruct Hd as [Hd|Hd]);
      repeat match type of Hd with
             | In _ (if ?c then _ else _) => destruct c
             end;
      try contradiction;
      destruct Hd as [<-|[]]; cbn [path]; apply prefix_append.
Qed.

Lemma app_servers_entries_witness :
  exists serverName,
    In serverName ["web1"]
    /\ String.prefix ("app.servers." ++ serverName ++ ".multiCore")
         "app.servers.web1.multiCore.instances" = true.
Proof.
  destruct (@app_servers_entries config_servers_invalid
              (Detail msg_instances_min "app.servers.web1.multiCore.instances")
              (or_introl eq_refl)) as [_ [_ [s [Hs [_ Hp]]]]].
  exists s. split; [exact Hs | exact Hp].
Defined.

(* ===================================================================== *)
(** * Which servers are addressed *)
(* ===================================================================== *)

Lemma sends_updateMupNginx (serverConfigs : server_table) (api : Api)
  (a : App) :
  cfg_app (getConfig api) = Some a ->
  sends (fun s c => In s (map fst (getFilteredServers a (getOptions api))))
    (updateMupNginx serverConfigs api).
Proof.
  intros Ha. unfold updateMupNginx. cbv zeta. rewrite Ha.
  unfold_monad. apply sends_bind; [apply sends_log|]. intros _.
  apply sends_promise_all. intros t Ht. apply in_map_iff in Ht.
  destruct Ht as [s [<- Hs]].
  eapply sends_weaken; [|apply sends_updateNginxOn].
  intros s' c [-> _]. exact Hs.
Qed.

(** X24: whatever the hosts answer, the four hooks send commands only when
    the configuration has an [app] with [docker] set, and then only to the
    servers [getFilteredServers] selects: a server left out by [--servers]
    is never contacted, not even for the core probe. *)
Theorem hooks_address_selected_servers (serverConfigs : server_table)
  (api : Api) {S : Type} (h : host S) (st : S) :
  let addressed := fun hook : prog unit =>
    all_commands
      (fun s _ =>
         exists a,
           cfg_app (getConfig api) = Some a
           /\ app_docker a = true
           /\ In s (map fst (getFilteredServers a (getOptions api))))
      (trace (exec h hook st)) in
  addressed (Hooks.post_default_deploy serverConfigs api)
  /\ addressed (Hooks.post_default_start serverConfigs api)
  /\ addressed (Hooks.post_default_restart serverConfigs api)
  /\ addressed (Hooks.post_default_stop serverConfigs api).
Proof.
  cbv zeta.
  unfold Hooks.post_default_deploy, Hooks.post_default_start,
    Hooks.post_default_restart, Hooks.post_default_stop.
  cbv zeta.
  destruct (cfg_app (getConfig api)) as [a|] eqn:Ha;
    [|repeat split; constructor].
  destruct (app_docker a) eqn:Hd; [|repeat split; constructor].
  assert (Hstart :
            sends (fun s _ =>
                     exists a0, Some a = Some a0 /\ app_docker a0 = true
                       /\ In s (map fst (getFilteredServers a0 (getOptions api))))
              (startWorkerContainers serverConfigs api)).
  { eapply sends_weaken; [|apply sends_startWorkerContainers; exact Ha].
    intros s c [Hin _]. exists a. auto. }
  repeat split; apply sends_trace.
  - destruct (existsb _ _); [|exact Hstart].
    unfold_monad. apply sends_bind; [exact Hstart|]. intros _.
    eapply sends_weaken; [|apply sends_updateMupNginx; exact Ha].
    intros s c Hin. exists a. auto.
  - exact Hstart.
  - eapply sends_weaken; [|apply sends_restartWorkerContainers; exact Ha].
    intros s c [Hin _]. exists a. auto.
  - eapply sends_weaken; [|apply sends_stopWorkerContainers; exact Ha].
    intros s c [Hin _]. exists a. auto.
Qed.

(* ===================================================================== *)
(** * Passes that leave the workers alone, and distinct slots *)
(* ===================================================================== *)

(** X25: with more than one core, a pass that cannot determine the image of
    the primary (the inspection is rejected, or prints nothing) sends no
    other command: no inventory query, no stop, no removal, no creation,
    so existing workers stay as they are, and the pass ends normally.  With
    one core or less, a pass whose inventory query prints nothing sends no
    other command either. *)
Theorem passes_that_change_nothing {S : Type} (h : host S) (st st1 : S)
  (serverName appName : string) (appPort startingPort cores : number)
  (r : response) :
  let run :=
    exec h (reconcile serverName appName appPort startingPort cores) st in
  let query :=
    if num_le cores (of_Z 1) then PsWorkers true appName
    else InspectImage appName in
  respond h st serverName query = (st1, r) ->
  match r with
  | Output out => trim out = ""
  | Rejected _ => num_le cores (of_Z 1) = false
  end ->
  commands (trace run) = [(serverName, query)]
  /\ final_state run = st1
  /\ result run = Fulfilled tt.
Proof.
  cbv zeta. unfold reconcile.
  destruct (num_le cores (of_Z 1)) eqn:Hc; intros Hr Hout; unfold_monad.
  - destruct r as [out|e]; [|discriminate Hout].
    cbn [log prog_bind exec]. rewrite exec_bind.
    unfold cleanupSingleCore. unfold_monad.
    rewrite exec_catch, exec_run_bind, Hr.
    unfold nonblank. rewrite Hout. cbn. repeat split.
  - rewrite exec_catch, exec_run_bind, Hr.
    destruct r as [out|e].
    + rewrite Hout. cbn. repeat split.
    + cbn. repeat split.
Qed.

Lemma passes_that_change_nothing_witness :
  commands (trace (exec host_unreachable
                     (reconcile "web1" "myapp" (of_Z 3000) (of_Z 3001) (of_Z 4))
                     tt))
  = [("web1", InspectImage "myapp")].
Proof.
  refine (proj1 (@passes_that_change_nothing _ host_unreachable tt tt "web1"
                   "myapp" (of_Z 3000) (of_Z 3001) (of_Z 4)
                   (Rejected "connect ETIMEDOUT") eq_refl _)).
  reflexivity.
Defined.

Lemma NoDup_map_injective {A B : Type} (f : A -> B) (l : list A) :
  (forall x y, In x l -> In y l -> f x = f y -> x = y) ->
  NoDup l -> NoDup (map f l).
Proof.
  intros Hinj Hnd. induction Hnd as [|x l Hx Hnd IH]; cbn [map]; constructor.
  - intros Hin. apply in_map_iff in Hin. destruct Hin as [y [E Hy]].
    apply Hinj in E; [|right; exact Hy|left; reflexivity].
    subst y. exact (Hx Hy).
  - apply IH. intros a b Ha Hb. apply Hinj; right; assumption.
Qed.

Lemma of_Z_inj (a b : Z) : of_Z a = of_Z b -> a = b.
Proof. unfold of_Z, inject_Z. intros E. injection E as E. exact E. Qed.

(** X26: whatever the count, the slots of a pass have pairwise different
    container names; and for an integer starting port, while port and count
    stay below 2^52 so that the code's additions are exact, pairwise
    different host ports.  Beyond that range the additions round and two
    slots can get the same port, as slots 3 and 4 do from 2^53. *)
Theorem slots_are_distinct (appName : string) (p : Z) (cores : number) :
  Z.abs p <= 2 ^ 52 ->
  num_lt (of_Z (2 ^ 52)) cores = false ->
  NoDup (worker_slots cores)
  /\ NoDup (map (worker_name appName) (worker_slots cores))
  /\ NoDup (upstream_ports (of_Z p) cores)
  /\ slot_port (of_Z (2 ^ 53)) 3 = slot_port (of_Z (2 ^ 53)) 4.
Proof.
  intros Hp Hc.
  assert (Hs : NoDup (worker_slots cores)) by apply for_indices_NoDup.
  assert (Hr : forall i, In i (worker_slots cores) -> 1 <= i <= 2 ^ 52).
  { intros i Hi. apply worker_slots_spec in Hi. destruct Hi as [H1 Hlt].
    split; [exact H1|]. destruct cores as [q|]; [|discriminate Hlt].
    apply num_lt_Fin in Hlt.
    destruct (Z.le_gt_cases i (2 ^ 52)) as [Hle|Hgt]; [exact Hle|].
    exfalso.
    assert (Hbig : num_lt (of_Z (2 ^ 52)) (Fin q) = true).
    { apply num_lt_Fin. eapply Qle_lt_trans; [|exact Hlt].
      rewrite <- Zle_Qle. lia. }
    congruence. }
  split; [exact Hs|]. split; [|split].
  - apply NoDup_map_injective; [|exact Hs].
    intros x y _ _. apply worker_name_inj.
  - unfold upstream_ports. apply NoDup_map_injective; [|exact Hs].
    intros x y Hx Hy E. apply Hr in Hx. apply Hr in Hy.
    rewrite !slot_port_of_Z in E by lia.
    apply of_Z_inj in E. lia.
  - vm_compute. reflexivity.
Qed.

Lemma slots_are_distinct_witness :
  NoDup (upstream_ports (of_Z 3001) (of_Z 4)).
Proof.
  refine (proj1 (proj2 (proj2 (@slots_are_distinct "myapp" 3001 (of_Z 4)
                                 _ _)))).
  - vm_compute. discriminate.
  - reflexivity.
Defined.

(* ===================================================================== *)
(** * Restart: what a rejection does *)
(* ===================================================================== *)

(** X28: in [restartWorkerContainers], a rejection of the inventory query or
    of [docker restart] is logged for that server and nothing more is sent:
    unlike the start pass there is no clean-up by name, and the workers are
    not started afresh. *)
Theorem restart_rejection_is_logged {S : Type} (h : host S) (st st1 : S)
  (serverConfigs : server_table) (api : Api) (appName serverName : string)
  (r : response) :
  respond h st serverName (PsWorkers true appName) = (st1, r) ->
  let run :=
    exec h (restartWorkersOn serverConfigs api appName serverName) st in
  match r with
  | Rejected e =>
      run = (st1,
             [Ran serverName (PsWorkers true appName) (Rejected e);
              Logged (LogRestartError serverName e)],
             Fulfilled tt)
  | Output out =>
      nonblank out = true ->
      forall st2 e,
        respond h st1 serverName (RestartWorkers appName) = (st2, Rejected e) ->
        run = (st2,
               [Ran serverName (PsWorkers true appName) (Output out);
                Ran serverName (RestartWorkers appName) (Rejected e);
                Logged (LogRestartError serverName e)],
               Fulfilled tt)
  end.
Proof.
  intros Hr. cbv zeta. unfold restartWorkersOn, restartOrStart. unfold_monad.
  rewrite exec_bind, exec_catch, exec_run_bind, Hr.
  destruct r as [out|e].
  - intros Hn st2 e Hr2. rewrite Hn, exec_run_bind, Hr2. reflexivity.
  - reflexivity.
Qed.

Lemma restart_rejection_is_logged_witness :
  exec host_unreachable (restartWorkersOn [] api_two "myapp" "web1") tt
  = (tt,
     [Ran "web1" (PsWorkers true "myapp") (Rejected "connect ETIMEDOUT");
      Logged (LogRestartError "web1" "connect ETIMEDOUT")],
     Fulfilled tt).
Proof.
  exact (@restart_rejection_is_logged _ host_unreachable tt tt [] api_two
           "myapp" "web1" (Rejected "connect ETIMEDOUT") eq_refl).
Defined.

(* ===================================================================== *)
(** * The restart operation as a whole (C10) *)
(* ===================================================================== *)

Lemma settle_all_runs {S : Type} (h : host S) (callback : string -> prog unit)
  (servers : list string) (st : S) :
  exists rs,
    exec h (settle_all (map callback servers)) st
    = (fold_left (fun st' s => final_state (exec h (callback s) st'))
         servers st,
       List.concat (map (fun x => trace (snd x))
                 (runs_in_turn h callback servers st)),
       Fulfilled rs).
Proof.
  revert st. induction servers as [|s rest IH]; intros st.
  - exists []. reflexivity.
  - cbn [map settle_all runs_in_turn fold_left List.concat]. unfold_monad.
    rewrite exec_bind, exec_settle.
    destruct (exec h (callback s) st) as [[st1 tr1] [a|e]];
      cbn [final_state trace fst snd]; rewrite exec_bind;
      destruct (IH st1) as [rs Hrs]; rewrite Hrs; cbn [exec];
      eexists; rewrite ?app_nil_r; reflexivity.
Qed.

(** The trace of a [Promise.all] is the traces of its callbacks, one after
    the other. *)
Lemma promise_all_trace {S : Type} (h : host S)
  (callback : string -> prog unit) (servers : list string) (st : S) :
  trace (exec h (promise_all (map callback servers)) st)
  = List.concat (map (fun x => trace (snd x)) (runs_in_turn h callback servers st)).
Proof.
  unfold promise_all. unfold_monad. rewrite exec_bind.
  destruct (settle_all_runs h callback servers st) as [rs Hrs]. rewrite Hrs.
  destruct (first_rejection rs); cbn [exec trace fst snd];
    apply app_nil_r.
Qed.







(** The commands of that run: [web1]'s workers are restarted in place by
    its own callback; the start of all servers that [web2]'s callback sets
    off then removes and recreates them. *)
Example restart_of_two_servers :
  commands (trace (exec two_docker_hosts (restartWorkerContainers [] api_two)
                     (docker_mixed_workers, docker_primary_only)))
  = [("web1", PsWorkers true "myapp"); ("web1", RestartWorkers "myapp");
     ("web2", PsWorkers true "myapp"); ("web1", InspectImage "myapp");
     ("web1", PsWorkers true "myapp");
     ("web1", StopWorkers true true "myapp");
     ("web1", RmWorkers true "myapp");
     ("web1",
      Run "myapp-worker-1" "web1-myapp-1" (of_Z 3001) (of_Z 3000) 1 "myapp"
        "sha256:1f2e");
     ("web1", PsStatus "myapp-worker-1"); ("web1", PsGrep "myapp");
     ("web2", InspectImage "myapp"); ("web2", PsWorkers true "myapp");
     ("web2",
      Run "myapp-worker-1" "web2-myapp-1" (of_Z 3001) (of_Z 3000) 1 "myapp"
        "sha256:1f2e");
     ("web2", PsStatus "myapp-worker-1"); ("web2", PsGrep "myapp")].
Proof. vm_compute. reflexivity. Qed.



(* ===================================================================== *)
(** * The nginx update as a whole *)
(* ===================================================================== *)

(** X29: a run of [updateMupNginx] logs its banner and runs one callback
    per selected server; it sends commands only to servers for which
    [shouldUseNginx], the code's own resolution, is true; the callback of a
    server for which it is false logs that the server is skipped and sends
    nothing; and when it is false for every selected server, the deploy
    hook is [startWorkerContainers] alone and its run contains no nginx
    command. *)
Theorem nginx_only_where_enabled (serverConfigs : server_table) (api : Api)
  (a : App) {S : Type} (h : host S) (st : S) :
  cfg_app (getConfig api) = Some a ->
  let config := getConfig api in
  let selected := map fst (getFilteredServers a (getOptions api)) in
  trace (exec h (updateMupNginx serverConfigs api) st)
  = Logged LogNginxBanner
      :: List.concat
           (map (fun x => trace (snd x))
              (runs_in_turn h (updateNginxOn serverConfigs config (app_name a))
                 selected st)) /\
  all_commands (fun s _ => shouldUseNginx serverConfigs config s = true)
    (trace (exec h (updateMupNginx serverConfigs api) st)) /\
  (forall s, shouldUseNginx serverConfigs config s = false ->
     exec h (updateNginxOn serverConfigs config (app_name a) s) st
     = (st, [Logged (LogNginxSkip s)], Fulfilled tt)) /\
  ((forall s, In s selected -> shouldUseNginx serverConfigs config s = false) ->
     Hooks.post_default_deploy serverConfigs api
     = (if app_docker a then startWorkerContainers serverConfigs api
        else Ret tt)
     /\ all_commands (fun _ c => is_nginx c = false)
          (trace (exec h (Hooks.post_default_deploy serverConfigs api) st))).
Proof.
  intros Ha config selected. split; [|repeat split].
  - unfold updateMupNginx. cbv zeta. rewrite Ha. unfold_monad.
    cbn [log prog_bind exec]. rewrite <- promise_all_trace.
    destruct (exec h (promise_all _) st) as [[st2 tr] o]. reflexivity.
  - apply sends_trace. unfold updateMupNginx. cbv zeta. rewrite Ha.
    unfold_monad. apply sends_bind; [apply sends_log|]. intros _.
    apply sends_promise_all. intros t Ht. apply in_map_iff in Ht.
    destruct Ht as [s [<- Hs]].
    eapply sends_weaken; [|apply sends_updateNginxOn].
    intros s' c [_ H]. exact H.
  - intros s Hs. unfold updateNginxOn. cbv zeta. fold config. rewrite Hs.
    reflexivity.
  - unfold Hooks.post_default_deploy. cbv zeta. rewrite Ha.
    destruct (app_docker a); [|reflexivity].
    fold config. fold selected.
    assert (E : existsb (fun s => shouldUseNginx serverConfigs config s)
                  selected = false).
    { destruct (existsb _ selected) eqn:E; [|reflexivity].
      apply existsb_exists in E. destruct E as [s [Hin Hs]].
      rewrite (H s Hin) in Hs. discriminate. }
    rewrite E. reflexivity.
  - assert (E : Hooks.post_default_deploy serverConfigs api
                = (if app_docker a then startWorkerContainers serverConfigs api
                   else Ret tt)).
    { unfold Hooks.post_default_deploy. cbv zeta. rewrite Ha.
      destruct (app_docker a); [|reflexivity].
      fold config. fold selected.
      assert (E : existsb (fun s => shouldUseNginx serverConfigs config s)
                    selected = false).
      { destruct (existsb _ selected) eqn:E; [|reflexivity].
        apply existsb_exists in E. destruct E as [s [Hin Hs]].
        rewrite (H s Hin) in Hs. discriminate. }
      rewrite E. reflexivity. }
    rewrite E. apply sends_trace. destruct (app_docker a); [|constructor].
    eapply sends_weaken; [|apply sends_startWorkerContainers; exact Ha].
    intros s c [_ Hc]. eapply start_command_not_nginx. exact Hc.
Qed.

Lemma nginx_only_where_enabled_witness :
  Hooks.post_default_deploy [] api_two = startWorkerContainers [] api_two.
Proof.
  refine (proj1 (proj2 (proj2 (proj2
    (@nginx_only_where_enabled [] api_two _ _ Docker.docker_host
       docker_primary_only eq_refl))) _)).
  intros s Hs. reflexivity.
Defined.
